(** * Policy conformance runners: field accessors, transforms, tracestate
      merge, sampling threshold, stats output and container pruning.

    Shallow embedding of
    - [runners/go/eval.go], [runners/go/main.go]  (protobuf based Go runner),
    - the pdata based Go runner (accessor, transformer, tracestate merge),
    - [runners/zig/src/eval.zig] and the Zig [main.zig] (stats, pruning),
    - [server/main.go] ([getStats]) and [find_trace_ids.go] ([otelShouldKeep]).

    Go strings and Zig byte slices are [string] (sequences of 8-bit
    characters); a Go [[]byte] that may be [nil] is [option (list byte)];
    a nilable pointer is an [option]; a runtime panic is the result [None]
    of a function returning [option]. *)

From Stdlib Require Import ZArith List String Ascii Strings.Byte Bool Lia.
From Stdlib Require Import Sorting.Sorted Sorting.Permutation.
From Stdlib Require Import Floats.PrimFloat Floats.FloatOps Floats.SpecFloat Floats.FloatAxioms.
From Stdlib Require Import DecimalString DecimalN.
Import ListNotations.
Set Warnings "-register-all".

Open Scope string_scope.
Open Scope list_scope.

(* ================================================================== *)
(** * Part I: definitions                                              *)
(* ================================================================== *)

(** ** Go slices and strings *)

Definition bytes := list byte.

(** [len] of a nilable slice: [len(nil) == 0]. *)
Definition len {A : Type} (s : option (list A)) : nat :=
  match s with None => 0 | Some l => List.length l end.

(** [[]byte(s)]: the conversion always yields a non-nil slice. *)
Definition to_bytes (s : string) : option bytes := Some (list_byte_of_string s).

(** [s[n:]] for [n <= len(s)]. *)
Fixpoint drop (n : nat) (s : string) : string :=
  match n, s with
  | O, _ => s
  | S n', String _ r => drop n' r
  | S _, EmptyString => EmptyString
  end.

(** [strings.Split(s, sep)] / [std.mem.splitScalar] for a one byte separator. *)
Fixpoint Split (s : string) (sep : ascii) : list string :=
  match s with
  | EmptyString => [EmptyString]
  | String a r =>
      if Ascii.eqb a sep then EmptyString :: Split r sep
      else match Split r sep with
           | [] => [String a EmptyString]
           | h :: t => String a h :: t
           end
  end.

(** [strings.Join(elems, sep)]. *)
Definition Join (elems : list string) (sep : string) : string := String.concat sep elems.

(** [strings.HasPrefix(s, p)] / [std.mem.startsWith]. *)
Definition HasPrefix (s p : string) : bool := String.prefix p s.

(** [strings.Index(s, substr)], [-1] when absent. *)
Definition Index (s substr : string) : Z :=
  match String.index 0 substr s with
  | Some i => Z.of_nat i
  | None => (-1)%Z
  end.

(** The text before the first [":"] (the whole text when there is none):
    [k := s; if idx := strings.Index(s, ":"); idx >= 0 { k = s[:idx] }]. *)
Definition keyOf (s : string) : string :=
  let idx := Index s ":" in
  if (0 <=? idx)%Z then String.substring 0 (Z.to_nat idx) s else s.

(** ** OTLP protobuf messages (go.opentelemetry.io/proto/otlp) *)

Inductive AnyValue : Type :=
| mkAnyValue (Value : option AnyValue_Value)
with AnyValue_Value : Type :=
| AnyValue_StringValue (StringValue : string)
| AnyValue_BoolValue (BoolValue : bool)
| AnyValue_IntValue (IntValue : Z)
| AnyValue_DoubleValue (DoubleBits : Z)
| AnyValue_ArrayValue (ArrayValues : list AnyValue)
| AnyValue_KvlistValue (KvlistValue : option KeyValueList)
| AnyValue_BytesValue (BytesValue : bytes)
with KeyValueList : Type :=
| mkKeyValueList (Values : list KeyValue)
with KeyValue : Type :=
| mkKeyValue (Key : string) (Value : option AnyValue).

Definition kvKey (kv : KeyValue) : string := let '(mkKeyValue k _) := kv in k.
Definition kvValue (kv : KeyValue) : option AnyValue := let '(mkKeyValue _ v) := kv in v.
Definition kvlValues (l : KeyValueList) : list KeyValue := let '(mkKeyValueList vs) := l in vs.

(** [&commonpb.AnyValue{Value: &commonpb.AnyValue_StringValue{StringValue: s}}] *)
Definition stringAnyValue (s : string) : option AnyValue :=
  Some (mkAnyValue (Some (AnyValue_StringValue s))).

Module LogRecord.
Record t : Type := mk {
  Body : option AnyValue;
  SeverityText : string;
  TraceId : option bytes;
  SpanId : option bytes;
  EventName : string;
  Attributes : list KeyValue
}.
Definition setBody v r := mk v (SeverityText r) (TraceId r) (SpanId r) (EventName r) (Attributes r).
Definition setSeverityText v r := mk (Body r) v (TraceId r) (SpanId r) (EventName r) (Attributes r).
Definition setTraceId v r := mk (Body r) (SeverityText r) v (SpanId r) (EventName r) (Attributes r).
Definition setSpanId v r := mk (Body r) (SeverityText r) (TraceId r) v (EventName r) (Attributes r).
Definition setEventName v r := mk (Body r) (SeverityText r) (TraceId r) (SpanId r) v (Attributes r).
Definition setAttributes v r := mk (Body r) (SeverityText r) (TraceId r) (SpanId r) (EventName r) v.
End LogRecord.

Module Resource.
Record t : Type := mk { Attributes : list KeyValue }.
End Resource.

Module InstrumentationScope.
Record t : Type := mk { Name : string; Version : string; Attributes : list KeyValue }.
Definition setAttributes v s := mk (Name s) (Version s) v.
End InstrumentationScope.

Module Metric.
(** The [Data] oneof; every kind carries the attributes of its data
    points, the three aggregated kinds their temporality enum number. *)
Inductive Data : Type :=
| Gauge (DataPoints : list (list KeyValue))
| Sum (DataPoints : list (list KeyValue)) (AggregationTemporality : Z)
| Histogram (DataPoints : list (list KeyValue)) (AggregationTemporality : Z)
| ExponentialHistogram (DataPoints : list (list KeyValue)) (AggregationTemporality : Z)
| Summary (DataPoints : list (list KeyValue)).
Record t : Type := mk {
  Name : string;
  Description : string;
  Unit : string;
  data : option Data
}.
End Metric.

Module Span.
Record Status : Type := mkStatus { Code : Z }.
Record Event : Type := mkEvent { EvName : string }.
Record t : Type := mk {
  Name : string;
  TraceId : option bytes;
  SpanId : option bytes;
  ParentSpanId : option bytes;
  TraceState : string;
  Kind : Z;
  status : option Status;
  Events : list Event;
  Attributes : list KeyValue
}.
End Span.

(** ** Field references and transform operations (package policy-go) *)

(** Modelled from the spec: the declarations of [policy.LogFieldRef],
    [policy.MetricFieldRef], [policy.TraceFieldRef] and [policy.TransformOp]
    are not part of the sources; a reference is a discriminated reference to
    a fixed field, a record attribute path, a resource attribute path or a
    scope attribute path (section 3), with the members [Field] and [AttrPath]
    the runners read. [RefOther] is a reference none of the four predicates
    accepts (the [default] branches of the runners). *)
Inductive RefKind : Type := RefField | RefRecordAttr | RefResourceAttr | RefScopeAttr | RefOther.

Inductive LogField : Type :=
| LogFieldUnspecified | LogFieldBody | LogFieldSeverityText | LogFieldTraceID
| LogFieldSpanID | LogFieldEventName | LogFieldResourceSchemaURL | LogFieldScopeSchemaURL.

Inductive MetricField : Type :=
| MetricFieldUnspecified | MetricFieldName | MetricFieldDescription | MetricFieldUnit
| MetricFieldType | MetricFieldAggregationTemporality | MetricFieldScopeName
| MetricFieldScopeVersion | MetricFieldResourceSchemaURL | MetricFieldScopeSchemaURL.

Inductive TraceField : Type :=
| TraceFieldUnspecified | TraceFieldName | TraceFieldTraceID | TraceFieldSpanID
| TraceFieldParentSpanID | TraceFieldTraceState | TraceFieldKind | TraceFieldStatus
| TraceFieldEventName | TraceFieldScopeName | TraceFieldScopeVersion
| TraceFieldResourceSchemaURL | TraceFieldScopeSchemaURL | TraceFieldSamplingThreshold.

Record FieldRef (F : Type) : Type := mkRef {
  refKind : RefKind;
  Field : F;
  AttrPath : list string
}.
Arguments mkRef {F} _ _ _.
Arguments refKind {F} _.
Arguments Field {F} _.
Arguments AttrPath {F} _.

Definition LogFieldRef := FieldRef LogField.
Definition MetricFieldRef := FieldRef MetricField.
Definition TraceFieldRef := FieldRef TraceField.

Definition IsField {F} (r : FieldRef F) : bool :=
  match refKind r with RefField => true | _ => false end.
Definition IsRecordAttr {F} (r : FieldRef F) : bool :=
  match refKind r with RefRecordAttr => true | _ => false end.
Definition IsResourceAttr {F} (r : FieldRef F) : bool :=
  match refKind r with RefResourceAttr => true | _ => false end.
Definition IsScopeAttr {F} (r : FieldRef F) : bool :=
  match refKind r with RefScopeAttr => true | _ => false end.

Inductive TransformKind : Type :=
| TransformRemove | TransformRedact | TransformRename | TransformAdd | TransformUnknown.

Record TransformOp : Type := mkOp {
  opKind : TransformKind;
  Ref : LogFieldRef;
  opValue : string;
  To : string;
  Upsert : bool
}.

(** ** find_trace_ids.go: the OTel sampling decision *)

Module Sampler.
Local Open Scope Z_scope.

(** Results of a Go function that may panic. *)
Inductive result (A : Type) : Type :=
| Ret (a : A)
| Panic.
Arguments Ret {A} _.
Arguments Panic {A}.

(** [uint64] arithmetic with wrap-around. *)
Definition wrap64 (z : Z) : Z := z mod 2 ^ 64.

(** [const maxThreshold = uint64(1) << 56] *)
Definition maxThreshold : Z := wrap64 (Z.shiftl 1 56).

(** [uint64(b)] for a byte [b]. *)
Definition byteZ (b : byte) : Z := Z.of_N (Byte.to_N b).

(** [traceIDBytes[lo:hi]]; out of range slicing panics.  The slice is
    taken to have no capacity beyond its length (Go bounds [hi] by the
    capacity). *)
Definition slice {A : Type} (l : list A) (lo hi : nat) : result (list A) :=
  if (Nat.leb lo hi && Nat.leb hi (List.length l))%bool
  then Ret (firstn (hi - lo) (skipn lo l))
  else Panic.

(** [float64(maxThreshold)]: 2^56 is exactly representable. *)
Definition float64_of_maxThreshold : float := 72057594037927936%float.

(** [uint64(f)] for a [float64]: the fraction is discarded (truncation
    towards zero). For a NaN, an infinity or a value outside the range of
    [uint64] Go leaves the result implementation dependent; the model
    gives [0] there (and for negative values). *)
Definition uint64_of_float64 (f : float) : Z :=
  match Prim2SF f with
  | S754_finite false m e =>
      let v := if 0 <=? e then Z.pos m * 2 ^ e else Z.pos m / 2 ^ (- e) in
      if v <? 2 ^ 64 then v else 0
  | _ => 0
  end.

(** [threshold := uint64((1.0 - percentage/100.0) * float64(maxThreshold))] *)
Definition threshold (percentage : float) : Z :=
  uint64_of_float64 ((1 - percentage / 100) * float64_of_maxThreshold)%float.

(** [for _, b := range bs { r = (r << 8) | uint64(b) }] *)
Definition shiftOr (r : Z) (b : byte) : Z :=
  Z.lor (wrap64 (Z.shiftl r 8)) (byteZ b).

Definition otelShouldKeep (traceIDBytes : bytes) (percentage : float) : result bool :=
  if (100 <=? percentage)%float then Ret true
  else if (percentage <=? 0)%float then Ret false
  else
    match slice traceIDBytes 9 16 with
    | Panic => Panic
    | Ret low =>
        let r := fold_left shiftOr low 0 in
        let threshold := threshold percentage in
        Ret (threshold <=? r)
    end.

(** The big-endian integer of a byte sequence. *)
Fixpoint bigEndian (bs : bytes) : Z :=
  match bs with
  | [] => 0
  | b :: rest => byteZ b * 256 ^ Z.of_nat (List.length rest) + bigEndian rest
  end.

(** The randomness value of the claim: the big-endian integer of bytes
    9 through 15 of the trace ID. *)
Definition R (traceIDBytes : bytes) : Z :=
  bigEndian (firstn 7 (skipn 9 traceIDBytes)).

(** [R >= (1 - p/100) * 2^56] in exact arithmetic, for an integer
    percentage [p], with the denominator cleared. *)
Definition exact_keep (r p : Z) : Prop := (100 - p) * 2 ^ 56 <= 100 * r.
End Sampler.

(** ** runners/go/eval.go: the protobuf based Go runner *)

Module Proto.

(** *** Context types *)

Record LogContext : Type := mkLogContext {
  Record_ : LogRecord.t;
  Resource_ : option Resource.t;
  Scope_ : option InstrumentationScope.t;
  ResourceSchemaURL : string;
  ScopeSchemaURL : string
}.

Record MetricContext : Type := mkMetricContext {
  mMetric : Metric.t;
  mDatapointAttributes : list KeyValue;
  mResource : option Resource.t;
  mScope : option InstrumentationScope.t;
  mResourceSchemaURL : string;
  mScopeSchemaURL : string
}.

Record TraceContext : Type := mkTraceContext {
  tSpan : Span.t;
  tResource : option Resource.t;
  tScope : option InstrumentationScope.t;
  tResourceSchemaURL : string;
  tScopeSchemaURL : string
}.

(** *** Attribute helpers *)

Definition anyValueBytes (v : option AnyValue) : option bytes :=
  match v with
  | None => None
  | Some (mkAnyValue val) =>
      match val with
      | Some (AnyValue_StringValue s) =>
          if s =? "" then None else to_bytes s
      | _ => None
      end
  end.

Fixpoint findAttribute (attrs : list KeyValue) (key : string) : option bytes :=
  match attrs with
  | [] => None
  | kv :: rest =>
      if kvKey kv =? key then anyValueBytes (kvValue kv)
      else findAttribute rest key
  end.

(** The loop runs over [attrs]; the recursive call descends into the
    key-value list of the first entry whose key is [path[0]], with [path[1:]]. *)
Fixpoint findAttributePath (attrs : list KeyValue) (path : list string) {struct path}
  : option bytes :=
  match path with
  | [] => None
  | p0 :: rest =>
      (fix loop (l : list KeyValue) : option bytes :=
         match l with
         | [] => None
         | kv :: tl =>
             if negb (kvKey kv =? p0) then loop tl
             else if Nat.eqb (List.length path) 1 then anyValueBytes (kvValue kv)
             else
               match kvValue kv with
               | Some (mkAnyValue (Some (AnyValue_KvlistValue (Some kvl)))) =>
                   findAttributePath (kvlValues kvl) rest
               | _ => None
               end
         end) attrs
  end.

Definition resourceAttrs (r : option Resource.t) : list KeyValue :=
  match r with None => [] | Some r => Resource.Attributes r end.

Definition scopeAttrs (s : option InstrumentationScope.t) : list KeyValue :=
  match s with None => [] | Some s => InstrumentationScope.Attributes s end.

Definition attrPath {F} (ref : FieldRef F) : string :=
  match AttrPath ref with
  | p0 :: _ => p0
  | [] => ""
  end.

(** [if s == "" { return nil }; return []byte(s)] *)
Definition nonEmptyString (s : string) : option bytes :=
  if s =? "" then None else to_bytes s.

(** [if len(b) == 0 { return nil }; return b] *)
Definition nonEmptyBytes (b : option bytes) : option bytes :=
  if Nat.eqb (len b) 0 then None else b.

(** *** Log matcher *)

Definition OTelLogMatcher (ctx : LogContext) (ref : LogFieldRef) : option bytes :=
  if IsField ref then
    match Field ref with
    | LogFieldBody => anyValueBytes (LogRecord.Body (Record_ ctx))
    | LogFieldSeverityText => nonEmptyString (LogRecord.SeverityText (Record_ ctx))
    | LogFieldTraceID => nonEmptyBytes (LogRecord.TraceId (Record_ ctx))
    | LogFieldSpanID => nonEmptyBytes (LogRecord.SpanId (Record_ ctx))
    | LogFieldEventName => nonEmptyString (LogRecord.EventName (Record_ ctx))
    | LogFieldResourceSchemaURL => nonEmptyString (ResourceSchemaURL ctx)
    | LogFieldScopeSchemaURL => nonEmptyString (ScopeSchemaURL ctx)
    | _ => None
    end
  else if IsRecordAttr ref then
    findAttributePath (LogRecord.Attributes (Record_ ctx)) (AttrPath ref)
  else if IsResourceAttr ref then
    findAttributePath (resourceAttrs (Resource_ ctx)) (AttrPath ref)
  else if IsScopeAttr ref then
    findAttributePath (scopeAttrs (Scope_ ctx)) (AttrPath ref)
  else None.

(** *** Metric matcher *)

Definition metricType (m : Metric.t) : string :=
  match Metric.data m with
  | Some (Metric.Gauge _) => "gauge"
  | Some (Metric.Sum _ _) => "sum"
  | Some (Metric.Histogram _ _) => "histogram"
  | Some (Metric.ExponentialHistogram _ _) => "exponential_histogram"
  | Some (Metric.Summary _) => "summary"
  | None => ""
  end.

(** [AGGREGATION_TEMPORALITY_DELTA = 1], [AGGREGATION_TEMPORALITY_CUMULATIVE = 2]. *)
Definition temporalityString (t : Z) : string :=
  if (t =? 1)%Z then "delta"
  else if (t =? 2)%Z then "cumulative"
  else "".

Definition aggregationTemporality (m : Metric.t) : string :=
  match Metric.data m with
  | Some (Metric.Sum _ t) => temporalityString t
  | Some (Metric.Histogram _ t) => temporalityString t
  | Some (Metric.ExponentialHistogram _ t) => temporalityString t
  | _ => ""
  end.

Definition scopeName (s : option InstrumentationScope.t) : option bytes :=
  match s with
  | None => None
  | Some s => nonEmptyString (InstrumentationScope.Name s)
  end.

Definition scopeVersion (s : option InstrumentationScope.t) : option bytes :=
  match s with
  | None => None
  | Some s => nonEmptyString (InstrumentationScope.Version s)
  end.

Definition OTelMetricMatcher (ctx : MetricContext) (ref : MetricFieldRef) : option bytes :=
  if IsField ref then
    match Field ref with
    | MetricFieldName => nonEmptyString (Metric.Name (mMetric ctx))
    | MetricFieldDescription => nonEmptyString (Metric.Description (mMetric ctx))
    | MetricFieldUnit => nonEmptyString (Metric.Unit (mMetric ctx))
    | MetricFieldType => to_bytes (metricType (mMetric ctx))
    | MetricFieldAggregationTemporality => to_bytes (aggregationTemporality (mMetric ctx))
    | MetricFieldScopeName => scopeName (mScope ctx)
    | MetricFieldScopeVersion => scopeVersion (mScope ctx)
    | MetricFieldResourceSchemaURL => nonEmptyString (mResourceSchemaURL ctx)
    | MetricFieldScopeSchemaURL => nonEmptyString (mScopeSchemaURL ctx)
    | _ => None
    end
  else if IsRecordAttr ref then
    findAttributePath (mDatapointAttributes ctx) (AttrPath ref)
  else if IsResourceAttr ref then
    findAttributePath (resourceAttrs (mResource ctx)) (AttrPath ref)
  else if IsScopeAttr ref then
    findAttributePath (scopeAttrs (mScope ctx)) (AttrPath ref)
  else None.

(** *** Trace matcher *)

(** [SPAN_KIND_INTERNAL = 1] ... [SPAN_KIND_CONSUMER = 5]. *)
Definition spanKindString (k : Z) : string :=
  if (k =? 1)%Z then "internal"
  else if (k =? 2)%Z then "server"
  else if (k =? 3)%Z then "client"
  else if (k =? 4)%Z then "producer"
  else if (k =? 5)%Z then "consumer"
  else "".

(** [STATUS_CODE_UNSET = 0], [STATUS_CODE_OK = 1], [STATUS_CODE_ERROR = 2]. *)
Definition statusCodeString (c : Z) : string :=
  if (c =? 1)%Z then "ok"
  else if (c =? 2)%Z then "error"
  else if (c =? 0)%Z then "unset"
  else "".

Fixpoint firstEventName (evts : list Span.Event) : option bytes :=
  match evts with
  | [] => None
  | evt :: rest =>
      if negb (Span.EvName evt =? "") then to_bytes (Span.EvName evt)
      else firstEventName rest
  end.

Definition OTelTraceMatcher (ctx : TraceContext) (ref : TraceFieldRef) : option bytes :=
  if IsField ref then
    match Field ref with
    | TraceFieldName => nonEmptyString (Span.Name (tSpan ctx))
    | TraceFieldTraceID => nonEmptyBytes (Span.TraceId (tSpan ctx))
    | TraceFieldSpanID => nonEmptyBytes (Span.SpanId (tSpan ctx))
    | TraceFieldParentSpanID => nonEmptyBytes (Span.ParentSpanId (tSpan ctx))
    | TraceFieldTraceState => nonEmptyString (Span.TraceState (tSpan ctx))
    | TraceFieldKind => to_bytes (spanKindString (Span.Kind (tSpan ctx)))
    | TraceFieldStatus =>
        match Span.status (tSpan ctx) with
        | None => None
        | Some st => to_bytes (statusCodeString (Span.Code st))
        end
    | TraceFieldEventName => firstEventName (Span.Events (tSpan ctx))
    | TraceFieldScopeName => scopeName (tScope ctx)
    | TraceFieldScopeVersion => scopeVersion (tScope ctx)
    | TraceFieldResourceSchemaURL => nonEmptyString (tResourceSchemaURL ctx)
    | TraceFieldScopeSchemaURL => nonEmptyString (tScopeSchemaURL ctx)
    | _ => None
    end
  else if IsRecordAttr ref then
    findAttributePath (Span.Attributes (tSpan ctx)) (AttrPath ref)
  else if IsResourceAttr ref then
    findAttributePath (resourceAttrs (tResource ctx)) (AttrPath ref)
  else if IsScopeAttr ref then
    findAttributePath (scopeAttrs (tScope ctx)) (AttrPath ref)
  else None.

End Proto.

(** *** runners/go/eval.go: log transformer *)

Module ProtoTransform.
Import Proto.

(** A [*[]*commonpb.KeyValue]: which attribute slice of the context the
    pointer designates. A nil pointer is [None]. *)
Inductive AttrsPtr : Type := RecordAttrs | ResourceAttrs | ScopeAttrs.

(** [*attrs] *)
Definition deref (ctx : LogContext) (p : AttrsPtr) : list KeyValue :=
  match p with
  | RecordAttrs => LogRecord.Attributes (Record_ ctx)
  | ResourceAttrs => resourceAttrs (Resource_ ctx)
  | ScopeAttrs => scopeAttrs (Scope_ ctx)
  end.

Definition setRecord (r : LogRecord.t) (ctx : LogContext) : LogContext :=
  mkLogContext r (Resource_ ctx) (Scope_ ctx) (ResourceSchemaURL ctx) (ScopeSchemaURL ctx).

(** [*attrs = l] *)
Definition assign (ctx : LogContext) (p : AttrsPtr) (l : list KeyValue) : LogContext :=
  match p with
  | RecordAttrs => setRecord (LogRecord.setAttributes l (Record_ ctx)) ctx
  | ResourceAttrs =>
      match Resource_ ctx with
      | Some _ =>
          mkLogContext (Record_ ctx) (Some (Resource.mk l)) (Scope_ ctx)
            (ResourceSchemaURL ctx) (ScopeSchemaURL ctx)
      | None => ctx
      end
  | ScopeAttrs =>
      match Scope_ ctx with
      | Some s =>
          mkLogContext (Record_ ctx) (Resource_ ctx)
            (Some (InstrumentationScope.setAttributes l s))
            (ResourceSchemaURL ctx) (ScopeSchemaURL ctx)
      | None => ctx
      end
  end.

Definition otelLogAttrs (ctx : LogContext) (ref : LogFieldRef) : option AttrsPtr :=
  if IsRecordAttr ref then Some RecordAttrs
  else if IsResourceAttr ref then
    match Resource_ ctx with None => None | Some _ => Some ResourceAttrs end
  else if IsScopeAttr ref then
    match Scope_ ctx with None => None | Some _ => Some ScopeAttrs end
  else None.

Fixpoint findAttributeIndexFrom (i : Z) (attrs : list KeyValue) (key : string) : Z :=
  match attrs with
  | [] => (-1)%Z
  | kv :: rest =>
      if kvKey kv =? key then i else findAttributeIndexFrom (i + 1)%Z rest key
  end.

Definition findAttributeIndex (attrs : list KeyValue) (key : string) : Z :=
  findAttributeIndexFrom 0%Z attrs key.

(** [append(a[:idx], a[idx+1:]...)] *)
Definition removeAt (idx : Z) (a : list KeyValue) : list KeyValue :=
  firstn (Z.to_nat idx) a ++ skipn (Z.to_nat (idx + 1)%Z) a.

(** [a[idx].Value = v] *)
Fixpoint setValueAt (idx : nat) (v : option AnyValue) (a : list KeyValue) : list KeyValue :=
  match a, idx with
  | [], _ => []
  | kv :: rest, O => mkKeyValue (kvKey kv) v :: rest
  | kv :: rest, S n => kv :: setValueAt n v rest
  end.

(** [a[idx].Value] for an index in range. *)
Definition valueAt (idx : Z) (a : list KeyValue) : option AnyValue :=
  match nth_error a (Z.to_nat idx) with
  | Some kv => kvValue kv
  | None => None
  end.

Definition removeAttribute (ctx : LogContext) (attrs : option AttrsPtr) (key : string)
  : bool * LogContext :=
  match attrs with
  | None => (false, ctx)
  | Some p =>
      if key =? "" then (false, ctx)
      else
        let idx := findAttributeIndex (deref ctx p) key in
        if (idx <? 0)%Z then (false, ctx)
        else (true, assign ctx p (removeAt idx (deref ctx p)))
  end.

Definition setAttribute (ctx : LogContext) (attrs : option AttrsPtr) (key value : string)
  (upsert : bool) : bool * LogContext :=
  match attrs with
  | None => (false, ctx)
  | Some p =>
      if key =? "" then (false, ctx)
      else
        let idx := findAttributeIndex (deref ctx p) key in
        if (0 <=? idx)%Z then
          if negb upsert then (true, ctx)
          else (true, assign ctx p
                        (setValueAt (Z.to_nat idx) (stringAnyValue value) (deref ctx p)))
        else (true, assign ctx p (deref ctx p ++ [mkKeyValue key (stringAnyValue value)]))
  end.

Definition otelLogRemove (ctx : LogContext) (ref : LogFieldRef) : bool * LogContext :=
  let rec := Record_ ctx in
  if IsField ref then
    match Field ref with
    | LogFieldBody =>
        let hit := match LogRecord.Body rec with Some _ => true | None => false end in
        (hit, setRecord (LogRecord.setBody None rec) ctx)
    | LogFieldSeverityText =>
        let hit := negb (LogRecord.SeverityText rec =? "") in
        (hit, setRecord (LogRecord.setSeverityText "" rec) ctx)
    | LogFieldTraceID =>
        let hit := Nat.ltb 0 (len (LogRecord.TraceId rec)) in
        (hit, setRecord (LogRecord.setTraceId None rec) ctx)
    | LogFieldSpanID =>
        let hit := Nat.ltb 0 (len (LogRecord.SpanId rec)) in
        (hit, setRecord (LogRecord.setSpanId None rec) ctx)
    | LogFieldEventName =>
        let hit := negb (LogRecord.EventName rec =? "") in
        (hit, setRecord (LogRecord.setEventName "" rec) ctx)
    | _ => (false, ctx)
    end
  else removeAttribute ctx (otelLogAttrs ctx ref) (attrPath ref).

Definition otelLogRedact (ctx : LogContext) (ref : LogFieldRef) (replacement : string)
  : bool * LogContext :=
  let rec := Record_ ctx in
  if IsField ref then
    match Field ref with
    | LogFieldBody =>
        let hit := match LogRecord.Body rec with Some _ => true | None => false end in
        (hit, setRecord (LogRecord.setBody (stringAnyValue replacement) rec) ctx)
    | LogFieldSeverityText =>
        let hit := negb (LogRecord.SeverityText rec =? "") in
        (hit, setRecord (LogRecord.setSeverityText replacement rec) ctx)
    | LogFieldTraceID =>
        let hit := Nat.ltb 0 (len (LogRecord.TraceId rec)) in
        (hit, setRecord (LogRecord.setTraceId (to_bytes replacement) rec) ctx)
    | LogFieldSpanID =>
        let hit := Nat.ltb 0 (len (LogRecord.SpanId rec)) in
        (hit, setRecord (LogRecord.setSpanId (to_bytes replacement) rec) ctx)
    | LogFieldEventName =>
        let hit := negb (LogRecord.EventName rec =? "") in
        (hit, setRecord (LogRecord.setEventName replacement rec) ctx)
    | _ => (false, ctx)
    end
  else
    let attrs := otelLogAttrs ctx ref in
    let key := attrPath ref in
    match attrs with
    | None => (false, ctx)
    | Some p =>
        if key =? "" then (false, ctx)
        else
          let idx := findAttributeIndex (deref ctx p) key in
          if (idx <? 0)%Z then (false, ctx)
          else (true, assign ctx p
                        (setValueAt (Z.to_nat idx) (stringAnyValue replacement) (deref ctx p)))
    end.

(** [otelLogRename] dereferences [attrs] without a nil check: the result is
    [None] (a nil pointer panic) when the attribute container is missing. *)
Definition otelLogRename (ctx : LogContext) (ref : LogFieldRef) (to : string) (upsert : bool)
  : option (bool * LogContext) :=
  if IsField ref then Some (false, ctx)
  else
    let attrs := otelLogAttrs ctx ref in
    let key := attrPath ref in
    if key =? "" then Some (false, ctx)
    else
      match attrs with
      | None => None
      | Some p =>
          let idx := findAttributeIndex (deref ctx p) key in
          if (idx <? 0)%Z then Some (false, ctx)
          else
            let val := anyValueBytes (valueAt idx (deref ctx p)) in
            if (negb upsert && (0 <=? findAttributeIndex (deref ctx p) to)%Z)%bool
            then Some (true, ctx)
            else
              let ctx1 := assign ctx p (removeAt idx (deref ctx p)) in
              let ctx2 :=
                match val with
                | Some b => snd (setAttribute ctx1 attrs to (string_of_list_byte b) true)
                | None => snd (setAttribute ctx1 attrs to "" true)
                end in
              Some (true, ctx2)
      end.

Definition otelLogAdd (ctx : LogContext) (ref : LogFieldRef) (value : string) (upsert : bool)
  : bool * LogContext :=
  let rec := Record_ ctx in
  if IsField ref then
    match Field ref with
    | LogFieldBody =>
        if (negb upsert && match LogRecord.Body rec with Some _ => true | None => false end)%bool
        then (true, ctx)
        else (true, setRecord (LogRecord.setBody (stringAnyValue value) rec) ctx)
    | LogFieldSeverityText =>
        if (negb upsert && negb (LogRecord.SeverityText rec =? ""))%bool
        then (true, ctx)
        else (true, setRecord (LogRecord.setSeverityText value rec) ctx)
    | LogFieldTraceID =>
        if (negb upsert && Nat.ltb 0 (len (LogRecord.TraceId rec)))%bool
        then (true, ctx)
        else (true, setRecord (LogRecord.setTraceId (to_bytes value) rec) ctx)
    | LogFieldSpanID =>
        if (negb upsert && Nat.ltb 0 (len (LogRecord.SpanId rec)))%bool
        then (true, ctx)
        else (true, setRecord (LogRecord.setSpanId (to_bytes value) rec) ctx)
    | LogFieldEventName =>
        if (negb upsert && negb (LogRecord.EventName rec =? ""))%bool
        then (true, ctx)
        else (true, setRecord (LogRecord.setEventName value rec) ctx)
    | _ => (false, ctx)
    end
  else setAttribute ctx (otelLogAttrs ctx ref) (attrPath ref) value upsert.

Definition OTelLogTransformer (ctx : LogContext) (op : TransformOp)
  : option (bool * LogContext) :=
  match opKind op with
  | TransformRemove => Some (otelLogRemove ctx (Ref op))
  | TransformRedact => Some (otelLogRedact ctx (Ref op) (opValue op))
  | TransformRename => otelLogRename ctx (Ref op) (To op) (Upsert op)
  | TransformAdd => Some (otelLogAdd ctx (Ref op) (opValue op) (Upsert op))
  | TransformUnknown => Some (false, ctx)
  end.

End ProtoTransform.

(** ** The pdata based Go runner (go.opentelemetry.io/collector/pdata) *)

Module Pdata.

(** *** pcommon values and maps *)

(** [pcommon.Value]; [Type()] is the constructor. *)
Inductive Value : Type :=
| ValueTypeEmpty
| ValueTypeStr (s : string)
| ValueTypeInt (i : Z)
| ValueTypeDouble (bits : Z)
| ValueTypeBool (b : bool)
| ValueTypeMap (m : list (string * Value))
| ValueTypeSlice (l : list Value)
| ValueTypeBytes (b : bytes).

(** [pcommon.Map]: an ordered sequence of key-value entries. *)
Definition Map := list (string * Value).

(** [m.Get(key)]: the value of the first entry with that key. *)
Fixpoint Get (m : Map) (key : string) : option Value :=
  match m with
  | [] => None
  | (k, v) :: rest => if k =? key then Some v else Get rest key
  end.

(** [m.PutStr(k, s)]: overwrite the value of the first entry with key [k],
    or append a new entry. *)
Fixpoint PutStr (m : Map) (k s : string) : Map :=
  match m with
  | [] => [(k, ValueTypeStr s)]
  | (k', v) :: rest =>
      if k' =? k then (k', ValueTypeStr s) :: rest else (k', v) :: PutStr rest k s
  end.

(** [m.RemoveIf(f)] *)
Definition RemoveIf (m : Map) (f : string -> Value -> bool) : Map :=
  filter (fun kv => negb (f (fst kv) (snd kv))) m.

(** [pcommon.TraceID] is [[16]byte], [pcommon.SpanID] is [[8]byte]; the
    zero array is the empty ID. *)
Definition NewTraceIDEmpty : bytes := repeat x00 16.
Definition NewSpanIDEmpty : bytes := repeat x00 8.
Definition IsEmpty (id : bytes) : bool := forallb (Byte.eqb x00) id.

(** *** encoding/hex *)

Definition fromHexChar (c : ascii) : option N :=
  let n := N_of_ascii c in
  if ((48 <=? n) && (n <=? 57))%N then Some (n - 48)%N
  else if ((97 <=? n) && (n <=? 102))%N then Some (n - 97 + 10)%N
  else if ((65 <=? n) && (n <=? 70))%N then Some (n - 65 + 10)%N
  else None.

Definition byte_of_N (n : N) : byte :=
  match Byte.of_N n with Some b => b | None => x00 end.

(** [hex.DecodeString]: [None] stands for a non-nil error (odd length or a
    byte that is not a hexadecimal digit). *)
Fixpoint DecodeString (s : string) : option bytes :=
  match s with
  | EmptyString => Some []
  | String _ EmptyString => None
  | String a (String b r) =>
      match fromHexChar a, fromHexChar b, DecodeString r with
      | Some x, Some y, Some l => Some (byte_of_N (x * 16 + y) :: l)
      | _, _, _ => None
      end
  end.

Definition hexDigit (n : N) : ascii :=
  if (n <? 10)%N then ascii_of_N (48 + n) else ascii_of_N (97 + (n - 10)).

(** [hex.EncodeToString] *)
Fixpoint EncodeToString (b : bytes) : string :=
  match b with
  | [] => EmptyString
  | x :: r =>
      let n := Byte.to_N x in
      String (hexDigit (n / 16)) (String (hexDigit (n mod 16)) (EncodeToString r))
  end.

(** *** ID conversion helpers *)

Definition traceIDFromString (s : string) : bytes :=
  match DecodeString s with
  | Some b => if Nat.eqb (List.length b) 16 then b else NewTraceIDEmpty
  | None => NewTraceIDEmpty
  end.

Definition spanIDFromString (s : string) : bytes :=
  match DecodeString s with
  | Some b => if Nat.eqb (List.length b) 8 then b else NewSpanIDEmpty
  | None => NewSpanIDEmpty
  end.

(** *** Context types *)

Record LogRecord : Type := mkLogRecord {
  Body : Value;
  SeverityText : string;
  TraceID : bytes;
  SpanID : bytes;
  EventName : string;
  Attributes : Map
}.

Record InstrumentationScope : Type := mkScope {
  scName : string;
  scVersion : string;
  scAttributes : Map
}.

Record LogContext : Type := mkLogContext {
  Record_ : LogRecord;
  Resource_ : Map;
  Scope_ : InstrumentationScope;
  ResourceSchemaURL : string;
  ScopeSchemaURL : string
}.

Definition setBody v r := mkLogRecord v (SeverityText r) (TraceID r) (SpanID r) (EventName r) (Attributes r).
Definition setSeverityText v r := mkLogRecord (Body r) v (TraceID r) (SpanID r) (EventName r) (Attributes r).
Definition setTraceID v r := mkLogRecord (Body r) (SeverityText r) v (SpanID r) (EventName r) (Attributes r).
Definition setSpanID v r := mkLogRecord (Body r) (SeverityText r) (TraceID r) v (EventName r) (Attributes r).
Definition setEventName v r := mkLogRecord (Body r) (SeverityText r) (TraceID r) (SpanID r) v (Attributes r).
Definition setAttributes v r := mkLogRecord (Body r) (SeverityText r) (TraceID r) (SpanID r) (EventName r) v.
Definition setRecord (r : LogRecord) (ctx : LogContext) : LogContext :=
  mkLogContext r (Resource_ ctx) (Scope_ ctx) (ResourceSchemaURL ctx) (ScopeSchemaURL ctx).

(** *** Attribute helpers *)

Definition valueBytes (v : Value) : option bytes :=
  match v with
  | ValueTypeStr s => if s =? "" then None else to_bytes s
  | _ => None
  end.

Definition findAttribute (attrs : Map) (key : string) : option bytes :=
  match Get attrs key with
  | None => None
  | Some v => valueBytes v
  end.

Fixpoint findAttributePath (attrs : Map) (path : list string) {struct path} : option bytes :=
  match path with
  | [] => None
  | p0 :: rest =>
      match Get attrs p0 with
      | None => None
      | Some v =>
          if Nat.eqb (List.length path) 1 then valueBytes v
          else match v with
               | ValueTypeMap m => findAttributePath m rest
               | _ => None
               end
      end
  end.

Definition attrPath {F} (ref : FieldRef F) : string :=
  match AttrPath ref with
  | p0 :: _ => p0
  | [] => ""
  end.

Definition nonEmptyString (s : string) : option bytes :=
  if s =? "" then None else to_bytes s.

(** [if id.IsEmpty() { return nil }; return []byte(hex.EncodeToString(id[:]))] *)
Definition hexID (id : bytes) : option bytes :=
  if IsEmpty id then None else to_bytes (EncodeToString id).

(** *** Log matcher *)

Definition OTelLogMatcher (ctx : LogContext) (ref : LogFieldRef) : option bytes :=
  if IsField ref then
    match Field ref with
    | LogFieldBody => valueBytes (Body (Record_ ctx))
    | LogFieldSeverityText => nonEmptyString (SeverityText (Record_ ctx))
    | LogFieldTraceID => hexID (TraceID (Record_ ctx))
    | LogFieldSpanID => hexID (SpanID (Record_ ctx))
    | LogFieldEventName => nonEmptyString (EventName (Record_ ctx))
    | LogFieldResourceSchemaURL => nonEmptyString (ResourceSchemaURL ctx)
    | LogFieldScopeSchemaURL => nonEmptyString (ScopeSchemaURL ctx)
    | _ => None
    end
  else if IsRecordAttr ref then findAttributePath (Attributes (Record_ ctx)) (AttrPath ref)
  else if IsResourceAttr ref then findAttributePath (Resource_ ctx) (AttrPath ref)
  else if IsScopeAttr ref then findAttributePath (scAttributes (Scope_ ctx)) (AttrPath ref)
  else None.

(** *** Log transformer *)

(** The [pcommon.Map] handle returned by [otelLogAttrs]: a view of one of
    the attribute maps of the context, or a fresh detached map. *)
Inductive MapRef : Type := RecordAttrs | ResourceAttrs | ScopeAttrs | NewMap.

Definition deref (ctx : LogContext) (p : MapRef) : Map :=
  match p with
  | RecordAttrs => Attributes (Record_ ctx)
  | ResourceAttrs => Resource_ ctx
  | ScopeAttrs => scAttributes (Scope_ ctx)
  | NewMap => []
  end.

Definition assign (ctx : LogContext) (p : MapRef) (m : Map) : LogContext :=
  match p with
  | RecordAttrs => setRecord (setAttributes m (Record_ ctx)) ctx
  | ResourceAttrs =>
      mkLogContext (Record_ ctx) m (Scope_ ctx) (ResourceSchemaURL ctx) (ScopeSchemaURL ctx)
  | ScopeAttrs =>
      mkLogContext (Record_ ctx) (Resource_ ctx)
        (mkScope (scName (Scope_ ctx)) (scVersion (Scope_ ctx)) m)
        (ResourceSchemaURL ctx) (ScopeSchemaURL ctx)
  | NewMap => ctx
  end.

Definition otelLogAttrs (ref : LogFieldRef) : MapRef :=
  if IsRecordAttr ref then RecordAttrs
  else if IsResourceAttr ref then ResourceAttrs
  else if IsScopeAttr ref then ScopeAttrs
  else NewMap.

Definition isSome {A} (o : option A) : bool := match o with Some _ => true | None => false end.
Definition notEmptyType (v : Value) : bool := match v with ValueTypeEmpty => false | _ => true end.

Definition removeAttribute (ctx : LogContext) (attrs : MapRef) (key : string)
  : bool * LogContext :=
  if key =? "" then (false, ctx)
  else if negb (isSome (Get (deref ctx attrs) key)) then (false, ctx)
  else (true, assign ctx attrs (RemoveIf (deref ctx attrs) (fun k _ => k =? key))).

Definition setAttribute (ctx : LogContext) (attrs : MapRef) (key value : string)
  (upsert : bool) : bool * LogContext :=
  if key =? "" then (false, ctx)
  else if isSome (Get (deref ctx attrs) key) then
    if negb upsert then (true, ctx)
    else (true, assign ctx attrs (PutStr (deref ctx attrs) key value))
  else (true, assign ctx attrs (PutStr (deref ctx attrs) key value)).

Definition otelLogRemove (ctx : LogContext) (ref : LogFieldRef) : bool * LogContext :=
  let rec := Record_ ctx in
  if IsField ref then
    match Field ref with
    | LogFieldBody =>
        (notEmptyType (Body rec), setRecord (setBody (ValueTypeStr "") rec) ctx)
    | LogFieldSeverityText =>
        (negb (SeverityText rec =? ""), setRecord (setSeverityText "" rec) ctx)
    | LogFieldTraceID =>
        (negb (IsEmpty (TraceID rec)), setRecord (setTraceID NewTraceIDEmpty rec) ctx)
    | LogFieldSpanID =>
        (negb (IsEmpty (SpanID rec)), setRecord (setSpanID NewSpanIDEmpty rec) ctx)
    | LogFieldEventName =>
        (negb (EventName rec =? ""), setRecord (setEventName "" rec) ctx)
    | _ => (false, ctx)
    end
  else removeAttribute ctx (otelLogAttrs ref) (attrPath ref).

Definition otelLogRedact (ctx : LogContext) (ref : LogFieldRef) (replacement : string)
  : bool * LogContext :=
  let rec := Record_ ctx in
  if IsField ref then
    match Field ref with
    | LogFieldBody =>
        (notEmptyType (Body rec), setRecord (setBody (ValueTypeStr replacement) rec) ctx)
    | LogFieldSeverityText =>
        (negb (SeverityText rec =? ""), setRecord (setSeverityText replacement rec) ctx)
    | LogFieldTraceID =>
        (negb (IsEmpty (TraceID rec)),
         setRecord (setTraceID (traceIDFromString replacement) rec) ctx)
    | LogFieldSpanID =>
        (negb (IsEmpty (SpanID rec)),
         setRecord (setSpanID (spanIDFromString replacement) rec) ctx)
    | LogFieldEventName =>
        (negb (EventName rec =? ""), setRecord (setEventName replacement rec) ctx)
    | _ => (false, ctx)
    end
  else
    let attrs := otelLogAttrs ref in
    let key := attrPath ref in
    if key =? "" then (false, ctx)
    else if negb (isSome (Get (deref ctx attrs) key)) then (false, ctx)
    else (true, assign ctx attrs (PutStr (deref ctx attrs) key replacement)).

Definition otelLogRename (ctx : LogContext) (ref : LogFieldRef) (to : string) (upsert : bool)
  : bool * LogContext :=
  if IsField ref then (false, ctx)
  else
    let attrs := otelLogAttrs ref in
    let key := attrPath ref in
    if key =? "" then (false, ctx)
    else
      match Get (deref ctx attrs) key with
      | None => (false, ctx)
      | Some v =>
          let val := valueBytes v in
          if (negb upsert && isSome (Get (deref ctx attrs) to))%bool then (true, ctx)
          else
            let m1 := RemoveIf (deref ctx attrs) (fun k _ => k =? key) in
            let m2 :=
              match val with
              | Some b => PutStr m1 to (string_of_list_byte b)
              | None => PutStr m1 to ""
              end in
            (true, assign ctx attrs m2)
      end.

Definition otelLogAdd (ctx : LogContext) (ref : LogFieldRef) (value : string) (upsert : bool)
  : bool * LogContext :=
  let rec := Record_ ctx in
  if IsField ref then
    match Field ref with
    | LogFieldBody =>
        if (negb upsert && notEmptyType (Body rec))%bool then (true, ctx)
        else (true, setRecord (setBody (ValueTypeStr value) rec) ctx)
    | LogFieldSeverityText =>
        if (negb upsert && negb (SeverityText rec =? ""))%bool then (true, ctx)
        else (true, setRecord (setSeverityText value rec) ctx)
    | LogFieldTraceID =>
        if (negb upsert && negb (IsEmpty (TraceID rec)))%bool then (true, ctx)
        else (true, setRecord (setTraceID (traceIDFromString value) rec) ctx)
    | LogFieldSpanID =>
        if (negb upsert && negb (IsEmpty (SpanID rec)))%bool then (true, ctx)
        else (true, setRecord (setSpanID (spanIDFromString value) rec) ctx)
    | LogFieldEventName =>
        if (negb upsert && negb (EventName rec =? ""))%bool then (true, ctx)
        else (true, setRecord (setEventName value rec) ctx)
    | _ => (false, ctx)
    end
  else setAttribute ctx (otelLogAttrs ref) (attrPath ref) value upsert.

Definition OTelLogTransformer (ctx : LogContext) (op : TransformOp) : bool * LogContext :=
  match opKind op with
  | TransformRemove => otelLogRemove ctx (Ref op)
  | TransformRedact => otelLogRedact ctx (Ref op) (opValue op)
  | TransformRename => otelLogRename ctx (Ref op) (To op) (Upsert op)
  | TransformAdd => otelLogAdd ctx (Ref op) (opValue op) (Upsert op)
  | TransformUnknown => (false, ctx)
  end.

End Pdata.

(** ** The pdata based Go runner: trace transformer and tracestate merge *)

Module GoTracestate.

Section Merge.

(** [strings.TrimSpace] (package strings is not part of the sources): the
    development holds for every trimming function. *)
Variable TrimSpace : string -> string.

(** The inner loop over the sub-keys of one [ot=] vendor. *)
Definition otPartsLoop (subKey : string) (otParts : list string) (parts : list string)
  : list string :=
  fold_left
    (fun otParts part =>
       let part := TrimSpace part in
       if part =? "" then otParts
       else if negb (keyOf part =? subKey) then otParts ++ [part]
       else otParts)
    parts otParts.

(** The outer loop over the vendors; the state is [(otParts, otherVendors)]. *)
Definition vendorLoop (subKey : string) (vendors : list string)
  (st : list string * list string) : list string * list string :=
  fold_left
    (fun st vendor =>
       let vendor := TrimSpace vendor in
       if vendor =? "" then st
       else if HasPrefix vendor "ot=" then
         (otPartsLoop subKey (fst st) (Split (drop 3 vendor) ";"), snd st)
       else (fst st, snd st ++ [vendor]))
    vendors st.

Definition mergeOTTracestate (tracestate subkv : string) : string :=
  let subKey := keyOf subkv in
  let st :=
    if negb (tracestate =? "") then vendorLoop subKey (Split tracestate ",") ([], [])
    else ([], []) in
  let otParts := fst st ++ [subkv] in
  let result := ("ot=" ++ Join otParts ";")%string in
  if Nat.ltb 0 (List.length (snd st)) then (result ++ "," ++ Join (snd st) ",")%string
  else result.

(** [ptrace.Span]: the members the transformer touches. *)
Record Span : Type := mkSpan {
  spName : string;
  spTraceState : string;
  spAttributes : Pdata.Map
}.

Record TraceContext : Type := mkTraceContext {
  tSpan : Span;
  tResource : Pdata.Map;
  tScope : Pdata.InstrumentationScope;
  tResourceSchemaURL : string;
  tScopeSchemaURL : string
}.

Definition TraceField_eqb (a b : TraceField) : bool :=
  match a, b with
  | TraceFieldUnspecified, TraceFieldUnspecified
  | TraceFieldName, TraceFieldName
  | TraceFieldTraceID, TraceFieldTraceID
  | TraceFieldSpanID, TraceFieldSpanID
  | TraceFieldParentSpanID, TraceFieldParentSpanID
  | TraceFieldTraceState, TraceFieldTraceState
  | TraceFieldKind, TraceFieldKind
  | TraceFieldStatus, TraceFieldStatus
  | TraceFieldEventName, TraceFieldEventName
  | TraceFieldScopeName, TraceFieldScopeName
  | TraceFieldScopeVersion, TraceFieldScopeVersion
  | TraceFieldResourceSchemaURL, TraceFieldResourceSchemaURL
  | TraceFieldScopeSchemaURL, TraceFieldScopeSchemaURL
  | TraceFieldSamplingThreshold, TraceFieldSamplingThreshold => true
  | _, _ => false
  end.

(** [policy.SpanSamplingThreshold()] *)
Definition SpanSamplingThreshold : TraceFieldRef :=
  mkRef RefField TraceFieldSamplingThreshold [].

Definition OTelTraceTransformer (ctx : TraceContext) (ref : TraceFieldRef) (value : string)
  : TraceContext :=
  if TraceField_eqb (Field ref) (Field SpanSamplingThreshold) then
    let sp := tSpan ctx in
    mkTraceContext
      (mkSpan (spName sp) (mergeOTTracestate (spTraceState sp) ("th:" ++ value)%string)
              (spAttributes sp))
      (tResource ctx) (tScope ctx) (tResourceSchemaURL ctx) (tScopeSchemaURL ctx)
  else ctx.

End Merge.

End GoTracestate.

(** ** The tracestate layout the specification describes *)

Module TracestateSpec.

Section Layout.

(** Trimming of a list member and the test for the threshold sub-key. *)
Variable trim : string -> string.
Variable isTh : string -> bool.

Definition nonEmpty (s : string) : bool := negb (s =? "").

(** The members of a [sep] separated list: trimmed, empty members dropped. *)
Definition members (text : string) (sep : ascii) : list string :=
  filter nonEmpty (map trim (Split text sep)).

Definition isOT (vendor : string) : bool := HasPrefix vendor "ot=".

(** The vendor entries of a tracestate, in order. *)
Definition vendorEntries (tracestate : string) : list string :=
  if tracestate =? "" then [] else members tracestate ",".

(** The sub-keys of the [ot] vendor entries, in order. *)
Definition otSubKeys (tracestate : string) : list string :=
  flat_map (fun v => members (drop 3 v) ";") (filter isOT (vendorEntries tracestate)).

(** The other vendor entries, in order. *)
Definition otherVendors (tracestate : string) : list string :=
  filter (fun v => negb (isOT v)) (vendorEntries tracestate).

(** [ot=k1:v1;...;th:VALUE] followed by [,vendor] for every other vendor. *)
Definition merged (tracestate value : string) : string :=
  ("ot="
   ++ Join (filter (fun p => negb (isTh p)) (otSubKeys tracestate) ++ [("th:" ++ value)%string]) ";"
   ++ String.concat "" (map (fun v => "," ++ v) (otherVendors tracestate)))%string.

End Layout.

End TracestateSpec.

(** ** runners/zig/src/eval.zig *)

Module Zig.

(** [policy.FieldRef]: a tagged union. *)
Inductive FieldRef : Type :=
| log_field (lf : LogField)
| log_attribute (path : list string)
| resource_attribute (path : list string)
| scope_attribute (path : list string).

Record LogContext : Type := mkLogContext {
  record : LogRecord.t;
  resource : option Resource.t;
  scope : option InstrumentationScope.t;
  resource_schema_url : string;
  scope_schema_url : string
}.

(** *** Attribute helpers *)

Definition anyValueString (val : option AnyValue) : option string :=
  match val with
  | None => None
  | Some (mkAnyValue None) => None
  | Some (mkAnyValue (Some inner)) =>
      match inner with
      | AnyValue_StringValue s => if Nat.eqb (String.length s) 0 then None else Some s
      | _ => None
      end
  end.

Fixpoint findAttributePath (attrs : list KeyValue) (path : list string) {struct path}
  : option string :=
  match path with
  | [] => None
  | p0 :: rest =>
      (fix loop (l : list KeyValue) : option string :=
         match l with
         | [] => None
         | kv :: tl =>
             if negb (kvKey kv =? p0) then loop tl
             else if Nat.eqb (List.length path) 1 then anyValueString (kvValue kv)
             else
               match kvValue kv with
               | Some (mkAnyValue (Some (AnyValue_KvlistValue (Some kvlist)))) =>
                   findAttributePath (kvlValues kvlist) rest
               | _ => None
               end
         end) attrs
  end.

Definition resourceAttrs (r : option Resource.t) : list KeyValue :=
  match r with None => [] | Some r => Resource.Attributes r end.

Definition scopeAttrs (s : option InstrumentationScope.t) : list KeyValue :=
  match s with None => [] | Some s => InstrumentationScope.Attributes s end.

Definition attrKey (path : list string) : option string :=
  match path with
  | p0 :: _ => Some p0
  | [] => None
  end.

Definition nonEmpty (s : string) : option string :=
  if Nat.eqb (String.length s) 0 then None else Some s.

Definition nonEmptyId (b : option bytes) : option string :=
  match b with
  | None => None
  | Some l => nonEmpty (string_of_list_byte l)
  end.

(** *** Log field accessor *)

Definition logFieldAccessor (lc : LogContext) (field : FieldRef) : option string :=
  match field with
  | log_field lf =>
      match lf with
      | LogFieldBody =>
          match LogRecord.Body (record lc) with
          | None => None
          | Some (mkAnyValue None) => None
          | Some (mkAnyValue (Some inner)) =>
              match inner with
              | AnyValue_StringValue s => if Nat.eqb (String.length s) 0 then None else Some s
              | _ => None
              end
          end
      | LogFieldSeverityText => nonEmpty (LogRecord.SeverityText (record lc))
      | LogFieldTraceID => nonEmptyId (LogRecord.TraceId (record lc))
      | LogFieldSpanID => nonEmptyId (LogRecord.SpanId (record lc))
      | LogFieldEventName => nonEmpty (LogRecord.EventName (record lc))
      | LogFieldResourceSchemaURL => nonEmpty (resource_schema_url lc)
      | LogFieldScopeSchemaURL => nonEmpty (scope_schema_url lc)
      | _ => None
      end
  | log_attribute path => findAttributePath (LogRecord.Attributes (record lc)) path
  | resource_attribute path => findAttributePath (resourceAttrs (resource lc)) path
  | scope_attribute path => findAttributePath (scopeAttrs (scope lc)) path
  end.

(** *** Tracestate merge *)

(** [std.mem.trim(u8, s, " ")] *)
Fixpoint trimLeft (s : string) : string :=
  match s with
  | String a r => if Ascii.eqb a " " then trimLeft r else s
  | EmptyString => EmptyString
  end.

Fixpoint trimRight (s : string) : string :=
  match s with
  | EmptyString => EmptyString
  | String a r =>
      match trimRight r with
      | EmptyString => if Ascii.eqb a " " then EmptyString else String a EmptyString
      | r' => String a r'
      end
  end.

Definition trim (s : string) : string := trimRight (trimLeft s).

(** [if (buf.items.len > 0) buf.appendSlice(sep); buf.appendSlice(item)] *)
Definition appendSep (buf sep item : string) : string :=
  ((if Nat.ltb 0 (String.length buf) then buf ++ sep else buf) ++ item)%string.

Definition otPartsLoop (ot_parts : string) (parts : list string) : string :=
  fold_left
    (fun ot_parts part_raw =>
       let part := trim part_raw in
       if Nat.eqb (String.length part) 0 then ot_parts
       else if HasPrefix part "th:" then ot_parts
       else appendSep ot_parts ";" part)
    parts ot_parts.

Definition vendorLoop (vendors : list string) (st : string * string) : string * string :=
  fold_left
    (fun st vendor_raw =>
       let vendor := trim vendor_raw in
       if Nat.eqb (String.length vendor) 0 then st
       else if HasPrefix vendor "ot=" then
         (otPartsLoop (fst st) (Split (drop 3 vendor) ";"), snd st)
       else (fst st, appendSep (snd st) "," vendor))
    vendors st.

(** Allocation failures ([catch {}]) are not modelled: every append succeeds. *)
Definition mergeOTTracestate (tracestate th_value : string) : string :=
  let st :=
    if Nat.ltb 0 (String.length tracestate)
    then vendorLoop (Split tracestate ",") ("", "")
    else ("", "") in
  let result := "ot=" in
  let result :=
    if Nat.ltb 0 (String.length (fst st)) then (result ++ fst st ++ ";")%string else result in
  let result := (result ++ "th:")%string in
  let result := (result ++ th_value)%string in
  if Nat.ltb 0 (String.length (snd st)) then (result ++ "," ++ snd st)%string else result.

(** *** Log field mutator *)

(** [*std.ArrayListUnmanaged(KeyValue)]: which attribute list of the
    context is meant. *)
Inductive AttrsPtr : Type := RecordAttrs | ResourceAttrs | ScopeAttrs.

Definition items (lc : LogContext) (p : AttrsPtr) : list KeyValue :=
  match p with
  | RecordAttrs => LogRecord.Attributes (record lc)
  | ResourceAttrs => resourceAttrs (resource lc)
  | ScopeAttrs => scopeAttrs (scope lc)
  end.

Definition setRecord (r : LogRecord.t) (lc : LogContext) : LogContext :=
  mkLogContext r (resource lc) (scope lc) (resource_schema_url lc) (scope_schema_url lc).

Definition setItems (lc : LogContext) (p : AttrsPtr) (l : list KeyValue) : LogContext :=
  match p with
  | RecordAttrs => setRecord (LogRecord.setAttributes l (record lc)) lc
  | ResourceAttrs =>
      match resource lc with
      | Some _ =>
          mkLogContext (record lc) (Some (Resource.mk l)) (scope lc)
            (resource_schema_url lc) (scope_schema_url lc)
      | None => lc
      end
  | ScopeAttrs =>
      match scope lc with
      | Some s =>
          mkLogContext (record lc) (resource lc)
            (Some (InstrumentationScope.setAttributes l s))
            (resource_schema_url lc) (scope_schema_url lc)
      | None => lc
      end
  end.

Fixpoint findAttrIndexFrom (i : nat) (attrs : list KeyValue) (key : string) : option nat :=
  match attrs with
  | [] => None
  | kv :: rest => if kvKey kv =? key then Some i else findAttrIndexFrom (S i) rest key
  end.

Definition findAttrIndex (attrs : list KeyValue) (key : string) : option nat :=
  findAttrIndexFrom 0 attrs key.

(** [attrs.orderedRemove(i)] for an index in range. *)
Definition orderedRemove (i : nat) (a : list KeyValue) : list KeyValue :=
  firstn i a ++ skipn (S i) a.

Fixpoint setValueAt (idx : nat) (v : option AnyValue) (a : list KeyValue) : list KeyValue :=
  match a, idx with
  | [], _ => []
  | kv :: rest, O => mkKeyValue (kvKey kv) v :: rest
  | kv :: rest, S n => kv :: setValueAt n v rest
  end.

Definition removeAttr (lc : LogContext) (p : AttrsPtr) (key : option string)
  : bool * LogContext :=
  match key with
  | None => (false, lc)
  | Some k =>
      match findAttrIndex (items lc p) k with
      | None => (false, lc)
      | Some idx => (true, setItems lc p (orderedRemove idx (items lc p)))
      end
  end.

Definition setAttr (lc : LogContext) (p : AttrsPtr) (key : option string) (value : string)
  : bool * LogContext :=
  match key with
  | None => (false, lc)
  | Some k =>
      match findAttrIndex (items lc p) k with
      | Some idx =>
          (true, setItems lc p (setValueAt idx (stringAnyValue value) (items lc p)))
      | None =>
          (true, setItems lc p (items lc p ++ [mkKeyValue k (stringAnyValue value)]))
      end
  end.

Definition mutRemove (lc : LogContext) (field : FieldRef) : bool * LogContext :=
  let rec := record lc in
  match field with
  | log_field lf =>
      match lf with
      | LogFieldBody =>
          (match LogRecord.Body rec with Some _ => true | None => false end,
           setRecord (LogRecord.setBody None rec) lc)
      | LogFieldSeverityText =>
          (Nat.ltb 0 (String.length (LogRecord.SeverityText rec)),
           setRecord (LogRecord.setSeverityText "" rec) lc)
      | LogFieldTraceID =>
          (Nat.ltb 0 (len (LogRecord.TraceId rec)),
           setRecord (LogRecord.setTraceId (Some []) rec) lc)
      | LogFieldSpanID =>
          (Nat.ltb 0 (len (LogRecord.SpanId rec)),
           setRecord (LogRecord.setSpanId (Some []) rec) lc)
      | LogFieldEventName =>
          (Nat.ltb 0 (String.length (LogRecord.EventName rec)),
           setRecord (LogRecord.setEventName "" rec) lc)
      | _ => (false, lc)
      end
  | log_attribute path => removeAttr lc RecordAttrs (attrKey path)
  | resource_attribute path =>
      match resource lc with
      | Some _ => removeAttr lc ResourceAttrs (attrKey path)
      | None => (false, lc)
      end
  | scope_attribute path =>
      match scope lc with
      | Some _ => removeAttr lc ScopeAttrs (attrKey path)
      | None => (false, lc)
      end
  end.

Definition mutSet (lc : LogContext) (field : FieldRef) (value : string) (_upsert : bool)
  : bool * LogContext :=
  let rec := record lc in
  match field with
  | log_field lf =>
      match lf with
      | LogFieldBody => (true, setRecord (LogRecord.setBody (stringAnyValue value) rec) lc)
      | LogFieldSeverityText => (true, setRecord (LogRecord.setSeverityText value rec) lc)
      | LogFieldTraceID => (true, setRecord (LogRecord.setTraceId (to_bytes value) rec) lc)
      | LogFieldSpanID => (true, setRecord (LogRecord.setSpanId (to_bytes value) rec) lc)
      | LogFieldEventName => (true, setRecord (LogRecord.setEventName value rec) lc)
      | _ => (false, lc)
      end
  | log_attribute path => setAttr lc RecordAttrs (attrKey path) value
  | resource_attribute path =>
      match resource lc with
      | Some _ => setAttr lc ResourceAttrs (attrKey path) value
      | None => (false, lc)
      end
  | scope_attribute path =>
      match scope lc with
      | Some _ => setAttr lc ScopeAttrs (attrKey path) value
      | None => (false, lc)
      end
  end.

(** The attribute list and the key a rename works on; [None] is the early
    [return false]. *)
Definition renameTarget (lc : LogContext) (from : FieldRef) : option (AttrsPtr * option string) :=
  match from with
  | log_attribute path => Some (RecordAttrs, attrKey path)
  | resource_attribute path =>
      match resource lc with Some _ => Some (ResourceAttrs, attrKey path) | None => None end
  | scope_attribute path =>
      match scope lc with Some _ => Some (ScopeAttrs, attrKey path) | None => None end
  | log_field _ => None
  end.

Definition mutRename (lc : LogContext) (from : FieldRef) (to : string) (upsert : bool)
  : bool * LogContext :=
  match renameTarget lc from with
  | None => (false, lc)
  | Some (_, None) => (false, lc)
  | Some (attrs, Some k) =>
      match findAttrIndex (items lc attrs) k with
      | None => (false, lc)
      | Some src_idx =>
          let src_val :=
            match nth_error (items lc attrs) src_idx with
            | Some kv => kvValue kv
            | None => None
            end in
          if (negb upsert && match findAttrIndex (items lc attrs) to with
                             | Some _ => true | None => false end)%bool
          then (true, lc)
          else
            let l1 := orderedRemove src_idx (items lc attrs) in
            let l2 :=
              if upsert then
                match findAttrIndex l1 to with
                | Some ti => orderedRemove ti l1
                | None => l1
                end
              else l1 in
            (true, setItems lc attrs (l2 ++ [mkKeyValue to src_val]))
      end
  end.

(** [policy.MutateOp] *)
Inductive MutateOp : Type :=
| op_remove (field : FieldRef)
| op_set (field : FieldRef) (value : string) (upsert : bool)
| op_rename (from : FieldRef) (to : string) (upsert : bool).

Definition logFieldMutator (lc : LogContext) (op : MutateOp) : bool * LogContext :=
  match op with
  | op_remove field => mutRemove lc field
  | op_set field value upsert => mutSet lc field value upsert
  | op_rename from to upsert => mutRename lc from to upsert
  end.

End Zig.

(** ** Stats output: [writeStats] (Go and Zig runners), [getStats] (server) *)

Module Stats.

(** [policy.PolicyStats]: the members [writeStats] reads ([uint64] counters). *)
Record PolicyStats : Type := mkPolicyStats {
  sPolicyID : string;
  MatchHits : N;
  MatchMisses : N
}.

Record PolicyHit : Type := mkPolicyHit {
  PolicyID : string;
  Hits : N;
  Misses : N
}.

(** [StatsOutput.Policies] is a slice that may be nil. *)
Record StatsOutput : Type := mkStatsOutput { Policies : option (list PolicyHit) }.

(** [append(s, x)] on a nilable slice. *)
Definition append {A : Type} (s : option (list A)) (x : A) : option (list A) :=
  match s with
  | None => Some [x]
  | Some l => Some (l ++ [x])
  end.

(** [sort.Slice(s, less)] (package sort is not part of the sources): the
    slice is rearranged in place into an order sorted by [less]; modelled by
    insertion of each element behind the elements it is not less than. *)
Fixpoint insertBy {A : Type} (less : A -> A -> bool) (x : A) (l : list A) : list A :=
  match l with
  | [] => [x]
  | y :: r => if less x y then x :: y :: r else y :: insertBy less x r
  end.

Definition sortSlice {A : Type} (less : A -> A -> bool) (l : list A) : list A :=
  fold_left (fun acc x => insertBy less x acc) l [].

Definition lessPolicyID (a b : PolicyHit) : bool := String.ltb (PolicyID a) (PolicyID b).

(** The loop and the nil guard of [writeStats], then the sort. *)
Definition collect (stats : list PolicyStats) : option (list PolicyHit) :=
  fold_left
    (fun out s =>
       if (N.ltb 0 (MatchHits s) || N.ltb 0 (MatchMisses s))%bool
       then append out (mkPolicyHit (sPolicyID s) (MatchHits s) (MatchMisses s))
       else out)
    stats None.

Definition statsOutput (stats : list PolicyStats) : StatsOutput :=
  let policies := collect stats in
  let policies := match policies with None => Some [] | Some l => Some l end in
  mkStatsOutput
    (match policies with
     | Some l => Some (sortSlice lessPolicyID l)
     | None => None
     end).

(** The double quote character, as a one character text. *)
Definition dq : string := String (ascii_of_nat 34) EmptyString.

(** Decimal text of an unsigned counter. *)
Definition decimal (n : N) : string := NilZero.string_of_uint (N.to_uint n).

Section Marshal.

(** The JSON text of a string, quotes included (package encoding/json is
    not part of the sources). *)
Variable jsonString : string -> string.

(** [json.Marshal] of a [PolicyHit]: [misses] has the tag [omitempty]. *)
Definition marshalHit (h : PolicyHit) : string :=
  ("{" ++ dq ++ "policy_id" ++ dq ++ ":" ++ jsonString (PolicyID h)
   ++ "," ++ dq ++ "hits" ++ dq ++ ":" ++ decimal (Hits h)
   ++ (if N.eqb (Misses h) 0 then EmptyString
       else "," ++ dq ++ "misses" ++ dq ++ ":" ++ decimal (Misses h))
   ++ "}")%string.

(** [json.Marshal] of a [StatsOutput]: a nil slice is [null]. *)
Definition marshal (o : StatsOutput) : string :=
  ("{" ++ dq ++ "policies" ++ dq ++ ":"
   ++ match Policies o with
      | None => "null"
      | Some l => "[" ++ Join (map marshalHit l) "," ++ "]"
      end
   ++ "}")%string.

(** The bytes [writeStats] hands to [os.WriteFile]. *)
Definition writeStats (stats : list PolicyStats) : string :=
  marshal (statsOutput stats).

End Marshal.

(** *** server/main.go *)

Record policyHit : Type := mkHit { hPolicyID : string; hHits : Z }.

(** [getStats]: [stats] lists the entries of the map [s.stats] in the order
    the [range] loop visits them (any order). *)
Definition getStats (stats : list (string * Z)) : option (list policyHit) :=
  let out :=
    fold_left (fun out e => append out (mkHit (fst e) (snd e))) stats None in
  let out := match out with None => Some [] | Some l => Some l end in
  match out with
  | Some l => Some (sortSlice (fun a b => String.ltb (hPolicyID a) (hPolicyID b)) l)
  | None => None
  end.

(** *** The Zig runner *)

Record PolicyStat : Type := mkPolicyStat { policy_id : string; hits : Z }.

(** [std.mem.sort] with [lessThan]: the same model as [sort.Slice]. *)
Definition zigLessThan (a b : PolicyStat) : bool := String.ltb (policy_id a) (policy_id b).

(** Decimal text of an [i64]. *)
Definition decimalZ (z : Z) : string := NilZero.string_of_int (Z.to_int z).

(** The snapshot: every policy with its counters ([None] when [getStats]
    has none); [hits] is what [readAndReset] returns. *)
Definition zigCollect (policies : list (string * option Z)) : list PolicyStat :=
  fold_left
    (fun stats p =>
       match snd p with
       | None => stats
       | Some h => if (0 <? h)%Z then stats ++ [mkPolicyStat (fst p) h] else stats
       end)
    policies [].

(** The writer loop: a comma before every entry but the first. *)
Fixpoint zigEntries (i : nat) (items : list PolicyStat) : string :=
  match items with
  | [] => ""
  | st :: rest =>
      ((if Nat.ltb 0 i then "," else EmptyString)
       ++ "{" ++ dq ++ "policy_id" ++ dq ++ ":" ++ dq ++ policy_id st ++ dq
       ++ "," ++ dq ++ "hits" ++ dq ++ ":" ++ decimalZ (hits st) ++ "}"
       ++ zigEntries (S i) rest)%string
  end.

(** The bytes written to the stats file; [None] when there is no snapshot
    ([orelse return]: nothing is written). *)
Definition zigWriteStats (snapshot : option (list (string * option Z))) : option string :=
  match snapshot with
  | None => None
  | Some policies =>
      let stats := sortSlice zigLessThan (zigCollect policies) in
      Some ("{" ++ dq ++ "policies" ++ dq ++ ":[" ++ zigEntries 0 stats ++ "]}")%string
  end.

End Stats.

(** ** Signal processing and container pruning ([processLogs],
       [processMetrics], [processTraces]) *)

Module Process.

(** [policy.EvaluateResult] *)
Inductive EvaluateResult : Type :=
| ResultNoMatch | ResultKeep | ResultKeepWithTransform | ResultDrop
| ResultSample | ResultRateLimit.

Definition isDrop (r : EvaluateResult) : bool :=
  match r with ResultDrop => true | _ => false end.

Section Batch.

(** The record type of the signal ([*logspb.LogRecord], [*metricspb.Metric],
    [*tracepb.Span]) and the state of the policy engine (counters, rate
    limiters), which every evaluation may change. *)
Variable Rec : Type.
Variable Eng : Type.

(** One evaluation of the engine on a record in its resource and scope:
    the result, the record, resource and scope as the transforms leave
    them, and the engine after the evaluation. *)
Definition Evaluation : Type :=
  Eng -> option Resource.t -> option InstrumentationScope.t -> Rec ->
  EvaluateResult * Rec * option Resource.t * option InstrumentationScope.t * Eng.

Variable evaluate : Evaluation.

(** [ScopeLogs] / [ScopeMetrics] / [ScopeSpans] *)
Record ScopeRecords : Type := mkScopeRecords {
  Scope : option InstrumentationScope.t;
  Records : list Rec
}.

(** [ResourceLogs] / [ResourceMetrics] / [ResourceSpans] *)
Record ResourceRecords : Type := mkResourceRecords {
  Resource : option Resource.t;
  Scopes : list ScopeRecords
}.

(** [kept := recs[:0]; for _, rec := range recs { ...; if result !=
    ResultDrop { kept = append(kept, rec) } }]; the state is the resource,
    the scope and the engine. *)
Fixpoint evalRecords (eng : Eng) (res : option Resource.t)
  (sc : option InstrumentationScope.t) (recs : list Rec)
  : list Rec * option Resource.t * option InstrumentationScope.t * Eng :=
  match recs with
  | [] => ([], res, sc, eng)
  | rec :: rest =>
      let '(result, rec', res', sc', eng') := evaluate eng res sc rec in
      let '(kept, res'', sc'', eng'') := evalRecords eng' res' sc' rest in
      ((if negb (isDrop result) then rec' :: kept else kept), res'', sc'', eng'')
  end.

(** The loop over the scope containers of one resource container. *)
Fixpoint evalScopes (eng : Eng) (res : option Resource.t) (scopes : list ScopeRecords)
  : list ScopeRecords * option Resource.t * Eng :=
  match scopes with
  | [] => ([], res, eng)
  | sl :: rest =>
      let '(kept, res', sc', eng') := evalRecords eng res (Scope sl) (Records sl) in
      let '(rest', res'', eng'') := evalScopes eng' res' rest in
      (mkScopeRecords sc' kept :: rest', res'', eng'')
  end.

(** The loop over the resource containers. *)
Fixpoint evalResources (eng : Eng) (data : list ResourceRecords)
  : list ResourceRecords * Eng :=
  match data with
  | [] => ([], eng)
  | rl :: rest =>
      let '(scopes', res', eng') := evalScopes eng (Resource rl) (Scopes rl) in
      let '(rest', eng'') := evalResources eng' rest in
      (mkResourceRecords res' scopes' :: rest', eng'')
  end.

(** [kept := s[:0]; for _, x := range s { if keep(x) { kept = append(kept, x) } }; s = kept]:
    the in-place filter; the write position never passes the read position. *)
Fixpoint keepIf {A : Type} (keep : A -> bool) (s : list A) : list A :=
  match s with
  | [] => []
  | x :: rest => if keep x then x :: keepIf keep rest else keepIf keep rest
  end.

(** Prune empty scope containers. *)
Definition pruneScopes (data : list ResourceRecords) : list ResourceRecords :=
  map (fun rl =>
         mkResourceRecords (Resource rl)
           (keepIf (fun sl => Nat.ltb 0 (List.length (Records sl))) (Scopes rl)))
      data.

(** Prune empty resource containers. *)
Definition pruneResources (data : list ResourceRecords) : list ResourceRecords :=
  keepIf (fun rl => Nat.ltb 0 (List.length (Scopes rl))) data.

(** The data handed to the marshaler, and the engine afterwards. *)
Definition process (eng : Eng) (data : list ResourceRecords)
  : list ResourceRecords * Eng :=
  let '(data1, eng1) := evalResources eng data in
  (pruneResources (pruneScopes data1), eng1).

(** *** The Zig runner: removal loops with an index *)

(** [while (i < items.len) { if (empty(items[i])) orderedRemove(i) else i += 1 }];
    [fuel] bounds the number of iterations. *)
Fixpoint removeLoop {A : Type} (empty : A -> bool) (fuel : nat) (i : nat) (items : list A)
  : list A :=
  match fuel with
  | O => items
  | S fuel' =>
      match nth_error items i with
      | None => items
      | Some x =>
          if empty x then removeLoop empty fuel' i (firstn i items ++ skipn (S i) items)
          else removeLoop empty fuel' (S i) items
      end
  end.

Definition zigPruneScopes (data : list ResourceRecords) : list ResourceRecords :=
  map (fun rl =>
         mkResourceRecords (Resource rl)
           (removeLoop (fun sl => Nat.eqb (List.length (Records sl)) 0)
              (List.length (Scopes rl)) 0 (Scopes rl)))
      data.

Definition zigPruneResources (data : list ResourceRecords) : list ResourceRecords :=
  removeLoop (fun rl => Nat.eqb (List.length (Scopes rl)) 0) (List.length data) 0 data.

(** *** The pdata runner: [RemoveIf] *)

Definition RemoveIf {A : Type} (f : A -> bool) (s : list A) : list A :=
  filter (fun x => negb (f x)) s.

Definition pdataPruneScopes (data : list ResourceRecords) : list ResourceRecords :=
  map (fun rl =>
         mkResourceRecords (Resource rl)
           (RemoveIf (fun sl => Nat.eqb (List.length (Records sl)) 0) (Scopes rl)))
      data.

Definition pdataPruneResources (data : list ResourceRecords) : list ResourceRecords :=
  RemoveIf (fun rl => Nat.eqb (List.length (Scopes rl)) 0) data.

(** *** What the claim asks of the output *)

(** All the records of a batch, in order. *)
Definition allRecords (data : list ResourceRecords) : list Rec :=
  flat_map (fun rl => flat_map Records (Scopes rl)) data.

(** No empty container. *)
Definition noEmptyContainer (data : list ResourceRecords) : Prop :=
  Forall (fun rl => Scopes rl <> [] /\ Forall (fun sl => Records sl <> []) (Scopes rl)) data.

End Batch.

Arguments Scope {Rec} _.
Arguments Records {Rec} _.
Arguments Resource {Rec} _.
Arguments Scopes {Rec} _.
Arguments mkScopeRecords {Rec} _ _.
Arguments mkResourceRecords {Rec} _ _.

(** *** runners/go/main.go *)

Section GoMain.

Variable Eng : Type.

(** [policy.EvaluateLog(eng, ctx, OTelLogMatcher, policy.WithLogTransform(OTelLogTransformer))],
    [policy.EvaluateMetric(eng, ctx, OTelMetricMatcher)] and
    [policy.EvaluateTrace(eng, ctx, OTelTraceMatcher)]: package policy-go is
    not part of the sources. The log evaluation may change the context
    through the transformer; the metric and trace evaluations only read it. *)
Variable EvaluateLog : Eng -> Proto.LogContext -> EvaluateResult * Proto.LogContext * Eng.
Variable EvaluateMetric : Eng -> Proto.MetricContext -> EvaluateResult * Eng.
Variable EvaluateTrace : Eng -> Proto.TraceContext -> EvaluateResult * Eng.

Definition getDatapointAttrs (m : Metric.t) : list KeyValue :=
  match Metric.data m with
  | Some (Metric.Gauge dps) => match dps with a :: _ => a | [] => [] end
  | Some (Metric.Sum dps _) => match dps with a :: _ => a | [] => [] end
  | Some (Metric.Histogram dps _) => match dps with a :: _ => a | [] => [] end
  | Some (Metric.ExponentialHistogram dps _) => match dps with a :: _ => a | [] => [] end
  | Some (Metric.Summary dps) => match dps with a :: _ => a | [] => [] end
  | None => []
  end.

Definition evalLog : Evaluation LogRecord.t Eng :=
  fun eng res sc rec =>
    let ctx := Proto.mkLogContext rec res sc "" "" in
    let '(result, ctx', eng') := EvaluateLog eng ctx in
    (result, Proto.Record_ ctx', Proto.Resource_ ctx', Proto.Scope_ ctx', eng').

Definition evalMetric : Evaluation Metric.t Eng :=
  fun eng res sc m =>
    let ctx := Proto.mkMetricContext m (getDatapointAttrs m) res sc "" "" in
    let '(result, eng') := EvaluateMetric eng ctx in
    (result, m, res, sc, eng').

Definition evalTrace : Evaluation Span.t Eng :=
  fun eng res sc span =>
    let ctx := Proto.mkTraceContext span res sc "" "" in
    let '(result, eng') := EvaluateTrace eng ctx in
    (result, span, res, sc, eng').

Definition processLogs := process LogRecord.t Eng evalLog.
Definition processMetrics := process Metric.t Eng evalMetric.
Definition processTraces := process Span.t Eng evalTrace.

End GoMain.

End Process.

(** ** Vocabulary of the claims about the accessors *)

Module Claims.

(** First entry of an attribute list with a given key. *)
Fixpoint lookup (attrs : list KeyValue) (key : string) : option KeyValue :=
  match attrs with
  | [] => None
  | kv :: rest => if kvKey kv =? key then Some kv else lookup rest key
  end.

(** The value an attribute path designates: every key but the last must
    lead to a key-value list; [None] when the path does not resolve. *)
Fixpoint resolvePath (attrs : list KeyValue) (path : list string) {struct path}
  : option (option AnyValue) :=
  match path with
  | [] => None
  | k :: rest =>
      match lookup attrs k, rest with
      | None, _ => None
      | Some kv, [] => Some (kvValue kv)
      | Some kv, _ :: _ =>
          match kvValue kv with
          | Some (mkAnyValue (Some (AnyValue_KvlistValue (Some kvl)))) =>
              resolvePath (kvlValues kvl) rest
          | _ => None
          end
      end
  end.

(** The enum tag fields: metric type and aggregation temporality, span
    kind and span status. *)
Definition metricEnumTag (ref : MetricFieldRef) : bool :=
  (IsField ref &&
   match Field ref with
   | MetricFieldType | MetricFieldAggregationTemporality => true
   | _ => false
   end)%bool.

Definition traceEnumTag (ref : TraceFieldRef) : bool :=
  (IsField ref &&
   match Field ref with
   | TraceFieldKind | TraceFieldStatus => true
   | _ => false
   end)%bool.

(** A gauge metric (no aggregation temporality) and a reference to the
    aggregation temporality field. *)
Definition gaugeMetric : Metric.t :=
  Metric.mk "cpu.usage" "" "1" (Some (Metric.Gauge [[]])).

Definition gaugeContext : Proto.MetricContext :=
  Proto.mkMetricContext gaugeMetric [] None None "" "".

Definition temporalityRef : MetricFieldRef :=
  mkRef RefField MetricFieldAggregationTemporality [].

(** A reference to the description of the metric, empty on [gaugeMetric]. *)
Definition descriptionRef : MetricFieldRef := mkRef RefField MetricFieldDescription [].

(** A metric without data and a reference to the metric type. *)
Definition untypedContext : Proto.MetricContext :=
  Proto.mkMetricContext (Metric.mk "cpu.usage" "" "1" None) [] None None "" "".

Definition metricTypeRef : MetricFieldRef := mkRef RefField MetricFieldType [].

(** A span of unspecified kind ([SPAN_KIND_UNSPECIFIED = 0]) and a
    reference to the span kind. *)
Definition unspecifiedKindContext : Proto.TraceContext :=
  Proto.mkTraceContext (Span.mk "GET /" None None None "" 0 None [] []) None None "" "".

Definition spanKindRef : TraceFieldRef := mkRef RefField TraceFieldKind [].

(** A log record with the attributes [a = "x"], [b = "y"] and an empty
    string attribute [e]. *)
Definition sampleAttrs : list KeyValue :=
  [mkKeyValue "a" (stringAnyValue "x"); mkKeyValue "b" (stringAnyValue "y");
   mkKeyValue "e" (stringAnyValue "")].

Definition sampleRecord : LogRecord.t :=
  LogRecord.mk (stringAnyValue "hello") "INFO" None None "" sampleAttrs.

Definition sampleContext : Proto.LogContext :=
  Proto.mkLogContext sampleRecord None None "" "".

Definition attrRef (key : string) : LogFieldRef := mkRef RefRecordAttr LogFieldUnspecified [key].
Definition fieldRef (f : LogField) : LogFieldRef := mkRef RefField f [].

Definition sampleMetricContext : Proto.MetricContext :=
  Proto.mkMetricContext (Metric.mk "m" "" "" (Some (Metric.Sum [sampleAttrs] 1)))
    sampleAttrs None None "" "".

Definition sampleSpan : Span.t :=
  Span.mk "GET /" None None None "" 2 None [] sampleAttrs.

Definition sampleTraceContext : Proto.TraceContext :=
  Proto.mkTraceContext sampleSpan None None "" "".

Definition samplePdataContext : Pdata.LogContext :=
  Pdata.mkLogContext
    (Pdata.mkLogRecord (Pdata.ValueTypeStr "hello") "INFO" Pdata.NewTraceIDEmpty
       Pdata.NewSpanIDEmpty ""
       [("a", Pdata.ValueTypeStr "x"); ("b", Pdata.ValueTypeStr "y")])
    [] (Pdata.mkScope "" "" []) "" "".

Definition sampleZigContext : Zig.LogContext :=
  Zig.mkLogContext sampleRecord None None "" "".

End Claims.

(** ** Vocabulary of the claims about the transforms *)

Module TransformClaims.
Import Proto ProtoTransform.

Definition isSome {A : Type} (o : option A) : bool :=
  match o with Some _ => true | None => false end.

(** The fixed fields the log transformer can write. *)
Definition mutableField (f : LogField) : bool :=
  match f with
  | LogFieldBody | LogFieldSeverityText | LogFieldTraceID | LogFieldSpanID
  | LogFieldEventName => true
  | _ => false
  end.

(** A reference a transform can act on: a mutable fixed field, or an
    attribute reference with a non-empty first key. *)
Definition mutableTarget (ref : LogFieldRef) : bool :=
  if IsField ref then mutableField (Field ref)
  else ((IsRecordAttr ref || IsResourceAttr ref || IsScopeAttr ref)
        && negb (attrPath ref =? ""))%bool.

(** Whether the targeted field exists in the context: a fixed field with a
    value, or an attribute with the referenced key in an existing container. *)
Definition present (ctx : LogContext) (ref : LogFieldRef) : bool :=
  if IsField ref then
    match Field ref with
    | LogFieldBody => isSome (LogRecord.Body (Record_ ctx))
    | LogFieldSeverityText => negb (LogRecord.SeverityText (Record_ ctx) =? "")
    | LogFieldTraceID => Nat.ltb 0 (len (LogRecord.TraceId (Record_ ctx)))
    | LogFieldSpanID => Nat.ltb 0 (len (LogRecord.SpanId (Record_ ctx)))
    | LogFieldEventName => negb (LogRecord.EventName (Record_ ctx) =? "")
    | LogFieldResourceSchemaURL => negb (ResourceSchemaURL ctx =? "")
    | LogFieldScopeSchemaURL => negb (ScopeSchemaURL ctx =? "")
    | LogFieldUnspecified => false
    end
  else
    match otelLogAttrs ctx ref with
    | None => false
    | Some p => isSome (Claims.lookup (deref ctx p) (attrPath ref))
    end.

(** The fixed fields of a log record. *)
Definition fixedFields (ctx : LogContext)
  : option AnyValue * string * option bytes * option bytes * string * string * string :=
  (LogRecord.Body (Record_ ctx), LogRecord.SeverityText (Record_ ctx),
   LogRecord.TraceId (Record_ ctx), LogRecord.SpanId (Record_ ctx),
   LogRecord.EventName (Record_ ctx), ResourceSchemaURL ctx, ScopeSchemaURL ctx).

(** A context whose resource and scope exist. *)
Definition fullContext : LogContext :=
  mkLogContext Claims.sampleRecord (Some (Resource.mk Claims.sampleAttrs))
    (Some (InstrumentationScope.mk "lib" "1.0" Claims.sampleAttrs)) "" "".

Definition renameOp (ref : LogFieldRef) (to : string) (upsert : bool) : TransformOp :=
  mkOp TransformRename ref "" to upsert.

End TransformClaims.

(** ** Example inputs for the sampling decision *)

Module SamplerExamples.

(** A trace ID whose bytes 9 through 15 are [b3 33 33 33 33 33 33], the
    integer part of [0.7 * 2^56]. *)
Definition boundaryTraceID : bytes :=
  repeat x00 9 ++ [xb3; x33; x33; x33; x33; x33; x33].

(** The trace ID [aaaaaaaaaaaaaaaaaaaaaaaaaaaaaaaa] of the scenarios. *)
Definition aaTraceID : bytes := repeat xaa 16.

End SamplerExamples.

(** ** The threshold sub-key tests of the two runners and example inputs *)

Module TracestateExamples.

(** The Go runner drops the sub-keys whose name (the text before the first
    colon) is [th]. *)
Definition goIsTh (part : string) : bool := keyOf part =? "th".

(** The Zig runner drops the sub-keys that start with [th:]. *)
Definition zigIsTh (part : string) : bool := HasPrefix part "th:".

(** The tracestate of scenario 3. *)
Definition scenarioTracestate : string := "vendora=xyz,ot=rv:1234,vendorb=p".

(** A tracestate with an incoming threshold. *)
Definition incomingTh : string := "ot=th:c;rv:1234, congo=t61rcWkgMzE".

(** The horizontal tab, as a one character text. *)
Definition tab : string := String (ascii_of_nat 9) EmptyString.

(** A tracestate whose second list member starts with a tab (the optional
    white space of a list member is a blank or a tab). *)
Definition tabbedTracestate : string := ("vendora=x," ++ tab ++ "ot=rv:1;th:c")%string.

(** [strings.TrimSpace] on ASCII text (package strings is not part of the
    sources): leading and trailing tab, line feed, vertical tab, form feed,
    carriage return and blank are removed. *)
Definition isSpace (c : ascii) : bool :=
  let n := nat_of_ascii c in
  ((Nat.leb 9 n && Nat.leb n 13) || Nat.eqb n 32)%bool.

Fixpoint trimSpaceLeft (s : string) : string :=
  match s with
  | String c r => if isSpace c then trimSpaceLeft r else s
  | EmptyString => EmptyString
  end.

Fixpoint trimSpaceRight (s : string) : string :=
  match s with
  | EmptyString => EmptyString
  | String c r =>
      match trimSpaceRight r with
      | EmptyString => if isSpace c then EmptyString else String c EmptyString
      | r' => String c r'
      end
  end.

Definition asciiTrimSpace (s : string) : string := trimSpaceRight (trimSpaceLeft s).

End TracestateExamples.

(** ** Vocabulary of the claim about the stats output *)

Module StatsClaims.
Import Stats.

(** A policy is reported when one of its counters is positive. *)
Definition active (s : PolicyStats) : bool :=
  (N.ltb 0 (MatchHits s) || N.ltb 0 (MatchMisses s))%bool.

Definition toHit (s : PolicyStats) : PolicyHit :=
  mkPolicyHit (sPolicyID s) (MatchHits s) (MatchMisses s).

(** Byte-wise ascending order of two texts: [String.leb] compares
    character codes from the left. *)
Definition ascending (a b : string) : Prop := String.leb a b = true.

(** The text [{"policies":[]}]. *)
Definition emptyStatsJSON : string := ("{" ++ dq ++ "policies" ++ dq ++ ":[]}")%string.

(** The entries the Zig runner reports. *)
Definition zigActive (p : string * option Z) : bool :=
  match snd p with
  | Some h => (0 <? h)%Z
  | None => false
  end.

Definition zigToStat (p : string * option Z) : PolicyStat :=
  mkPolicyStat (fst p) (match snd p with Some h => h | None => 0%Z end).

Definition zigEntry (st : PolicyStat) : string :=
  ("{" ++ dq ++ "policy_id" ++ dq ++ ":" ++ dq ++ policy_id st ++ dq
   ++ "," ++ dq ++ "hits" ++ dq ++ ":" ++ decimalZ (hits st) ++ "}")%string.

Definition serverHit (e : string * Z) : policyHit := mkHit (fst e) (snd e).

(** Example snapshots. *)
Definition sampleStats : list PolicyStats :=
  [mkPolicyStats "keep-info" 3 0; mkPolicyStats "idle" 0 0; mkPolicyStats "drop-debug" 1 1].

Definition idleStats : list PolicyStats :=
  [mkPolicyStats "idle" 0 0; mkPolicyStats "unused" 0 0].

(** A JSON string encoder for texts that need no escaping. *)
Definition plainQuote (s : string) : string := (dq ++ s ++ dq)%string.

End StatsClaims.

(** ** Example batch for the processing functions *)

Module ProcessExamples.
Import Process.

(** An engine with the single policy of scenario 1: drop the records whose
    severity text is [DEBUG]. *)
Definition dropDebug (eng : unit) (ctx : Proto.LogContext)
  : EvaluateResult * Proto.LogContext * unit :=
  ((if LogRecord.SeverityText (Proto.Record_ ctx) =? "DEBUG" then ResultDrop else ResultNoMatch),
   ctx, eng).

Definition logRec (severity : string) : LogRecord.t :=
  LogRecord.mk None severity None None "" [].

Definition mixedScope : ScopeRecords LogRecord.t :=
  mkScopeRecords None [logRec "INFO"; logRec "DEBUG"].

Definition debugScope : ScopeRecords LogRecord.t :=
  mkScopeRecords None [logRec "DEBUG"].

(** Two resource containers: the first has a scope that loses all its
    records and a scope that keeps one, the second loses everything. *)
Definition batch : list (ResourceRecords LogRecord.t) :=
  [mkResourceRecords None [debugScope; mixedScope];
   mkResourceRecords None [debugScope]].

Definition keptScope : ScopeRecords LogRecord.t :=
  mkScopeRecords None [logRec "INFO"].

End ProcessExamples.

(** ** Existence matchers (evaluated by the policy engine packages) *)

Module ExistsMatcher.

(** Modelled from the spec: the matcher evaluation is part of the policy
    engine packages (policy-go, policy-zig, policy-rs), which are not among
    the sources. Section 4.2: [exists(true)] succeeds iff the field is
    present, [exists(false)] inverts that, and [negate] inverts the final
    boolean again. The engine sees a field as present when the accessor
    returns a value. *)
Definition evalExists (existsFlag negate present : bool) : bool :=
  xorb negate (Bool.eqb existsFlag present).

(** Modelled from the spec: the behaviour of the Go engine recorded in the
    known issues of the repository (ENG-229): the [negate] flag is ignored
    on existence checks, so that [exists: false, negate: true] is treated
    as "field absent". *)
Definition evalExistsGoENG229 (existsFlag negate present : bool) : bool :=
  Bool.eqb existsFlag present.

(** What the engine is handed by the accessor of the Go runner. *)
Definition presentInGoRunner (ctx : Proto.LogContext) (ref : LogFieldRef) : bool :=
  match Proto.OTelLogMatcher ctx ref with
  | Some _ => true
  | None => false
  end.

End ExistsMatcher.

(** ** find_trace_ids.go: the sampling decision of the Zig runner *)

Module ZigSampler.
Import Sampler.
Local Open Scope Z_scope.

(** The code of a byte of a string. *)
Definition code (c : ascii) : Z := Z.of_N (N_of_ascii c).

(** [s[i]] as a number, [-1] when the string is too short. *)
Definition byteAt (s : string) (i : nat) : Z :=
  match String.get i s with
  | Some a => code a
  | None => -1
  end.

(** One step of [for _, c := range s]: the rune at the head of the string
    ([c] is the first byte, [rest] the bytes behind it) and its width in
    bytes. A byte that does not start a well-formed UTF-8 sequence yields
    U+FFFD with width 1. *)
Definition decodeRune (c : ascii) (rest : string) : Z * nat :=
  let s0 := code c in
  let s1 := byteAt rest 0 in
  let s2 := byteAt rest 1 in
  let s3 := byteAt rest 2 in
  let cont x := ((128 <=? x) && (x <=? 191))%bool in
  let bad := (65533, 1%nat) in
  if s0 <? 128 then (s0, 1%nat)
  else if s0 <? 194 then bad
  else if s0 <=? 223 then
    if cont s1 then (Z.lor (Z.shiftl (Z.land s0 31) 6) (Z.land s1 63), 2%nat) else bad
  else if s0 <=? 239 then
    let lo := if s0 =? 224 then 160 else 128 in
    let hi := if s0 =? 237 then 159 else 191 in
    if ((lo <=? s1) && (s1 <=? hi) && cont s2)%bool
    then (Z.lor (Z.lor (Z.shiftl (Z.land s0 15) 12) (Z.shiftl (Z.land s1 63) 6))
                (Z.land s2 63), 3%nat)
    else bad
  else if s0 <=? 244 then
    let lo := if s0 =? 240 then 144 else 128 in
    let hi := if s0 =? 244 then 143 else 191 in
    if ((lo <=? s1) && (s1 <=? hi) && cont s2 && cont s3)%bool
    then (Z.lor (Z.lor (Z.lor (Z.shiftl (Z.land s0 7) 18) (Z.shiftl (Z.land s1 63) 12))
                       (Z.shiftl (Z.land s2 63) 6))
                (Z.land s3 63), 4%nat)
    else bad
  else bad.

(** The [switch] on the rune: the value of a hexadecimal digit, [0] for
    every other rune. *)
Definition nibble (c : Z) : Z :=
  if ((48 <=? c) && (c <=? 57))%bool then c - 48
  else if ((97 <=? c) && (c <=? 102))%bool then c - 97 + 10
  else if ((65 <=? c) && (c <=? 70))%bool then c - 65 + 10
  else 0.

(** The loop [for _, c := range s { hash = (hash << 4) | nibble }]; [skip]
    counts the bytes of the current rune that are still to be passed. *)
Fixpoint rangeLoop (skip : nat) (s : string) (hash : Z) : Z :=
  match s with
  | EmptyString => hash
  | String c rest =>
      match skip with
      | S k => rangeLoop k rest hash
      | O =>
          let '(r, w) := decodeRune c rest in
          rangeLoop (w - 1) rest (Z.lor (wrap64 (Z.shiftl hash 4)) (nibble r))
      end
  end.

Definition hashTraceIdZig (hexStr : string) : Z :=
  if Nat.eqb (String.length hexStr) 0 then 0
  else
    let start :=
      if Nat.ltb 14 (String.length hexStr) then (String.length hexStr - 14)%nat else 0%nat in
    rangeLoop 0 (drop start hexStr) 0.

Definition splitmix64 (x : Z) : Z :=
  let h := wrap64 (x + 11400714819323198485) in
  let h := wrap64 (Z.lxor h (Z.shiftr h 30) * 13787848793156543929) in
  let h := wrap64 (Z.lxor h (Z.shiftr h 27) * 10723151780598845931) in
  Z.lxor h (Z.shiftr h 31).

(** [percentage] is a [uint8]; [bucket := uint8(mixed % 100)]. *)
Definition zigShouldKeep (traceIDHex : string) (percentage : Z) : bool :=
  if percentage =? 0 then false
  else if 100 <=? percentage then true
  else
    let hashVal := hashTraceIdZig traceIDHex in
    let mixed := splitmix64 hashVal in
    let bucket := (mixed mod 100) mod 256 in
    bucket <? percentage.

End ZigSampler.

(** ** The first version of the protobuf log matcher (attribute reads by
       the first key of the path) *)

Module ProtoV1.
Import Proto.

Definition OTelLogMatcher (ctx : LogContext) (ref : LogFieldRef) : option bytes :=
  if IsField ref then
    match Field ref with
    | LogFieldBody => anyValueBytes (LogRecord.Body (Record_ ctx))
    | LogFieldSeverityText => nonEmptyString (LogRecord.SeverityText (Record_ ctx))
    | LogFieldTraceID => nonEmptyBytes (LogRecord.TraceId (Record_ ctx))
    | LogFieldSpanID => nonEmptyBytes (LogRecord.SpanId (Record_ ctx))
    | _ => None
    end
  else
    let read attrs :=
      let key := attrPath ref in
      if key =? "" then None else findAttribute attrs key in
    if IsRecordAttr ref then read (LogRecord.Attributes (Record_ ctx))
    else if IsResourceAttr ref then read (resourceAttrs (Resource_ ctx))
    else if IsScopeAttr ref then read (scopeAttrs (Scope_ ctx))
    else None.

End ProtoV1.

(** ** Vocabulary of the properties of the attribute operations *)

Module AttrModel.

(** The keys of an attribute list, in order. *)
Definition keys (attrs : list KeyValue) : list string := map kvKey attrs.

(** The list without its first entry with the key. *)
Fixpoint removeFirst (key : string) (attrs : list KeyValue) : list KeyValue :=
  match attrs with
  | [] => []
  | kv :: rest => if kvKey kv =? key then rest else kv :: removeFirst key rest
  end.

(** The list with the value of its first entry with the key replaced. *)
Fixpoint setFirst (key : string) (v : option AnyValue) (attrs : list KeyValue)
  : list KeyValue :=
  match attrs with
  | [] => []
  | kv :: rest =>
      if kvKey kv =? key then mkKeyValue (kvKey kv) v :: rest
      else kv :: setFirst key v rest
  end.

(** The list with the value of the first entry with the key replaced, or
    with a new entry at the end when no entry has the key. *)
Definition upsertKey (key : string) (v : option AnyValue) (attrs : list KeyValue)
  : list KeyValue :=
  match Claims.lookup attrs key with
  | Some _ => setFirst key v attrs
  | None => attrs ++ [mkKeyValue key v]
  end.

(** The text a rename writes for the value it moves: the string the source
    read as, the empty text for every other value. *)
Definition movedText (val : option bytes) : string :=
  match val with
  | Some b => string_of_list_byte b
  | None => ""
  end.

(** A reference to the attribute [key] of the container [kind]. *)
Definition keyRef (kind : RefKind) (key : string) : LogFieldRef :=
  mkRef kind LogFieldUnspecified [key].

End AttrModel.

(** ** The Zig and the Go log accessor side by side *)

Module Conformance.

(** The Go field reference and the Go context that stand for a Zig field
    reference and a Zig context. *)
Definition goRef (f : Zig.FieldRef) : LogFieldRef :=
  match f with
  | Zig.log_field lf => mkRef RefField lf []
  | Zig.log_attribute path => mkRef RefRecordAttr LogFieldUnspecified path
  | Zig.resource_attribute path => mkRef RefResourceAttr LogFieldUnspecified path
  | Zig.scope_attribute path => mkRef RefScopeAttr LogFieldUnspecified path
  end.

Definition goContext (lc : Zig.LogContext) : Proto.LogContext :=
  Proto.mkLogContext (Zig.record lc) (Zig.resource lc) (Zig.scope lc)
    (Zig.resource_schema_url lc) (Zig.scope_schema_url lc).

(** The bytes of a Zig read. *)
Definition asBytes (r : option string) : option bytes :=
  match r with
  | Some s => Some (list_byte_of_string s)
  | None => None
  end.

(** The Go pointer that stands for a Zig attribute list pointer. *)
Definition goPtr (p : Zig.AttrsPtr) : ProtoTransform.AttrsPtr :=
  match p with
  | Zig.RecordAttrs => ProtoTransform.RecordAttrs
  | Zig.ResourceAttrs => ProtoTransform.ResourceAttrs
  | Zig.ScopeAttrs => ProtoTransform.ScopeAttrs
  end.

(** The result of a Zig mutation, as the Go transformer would return it. *)
Definition goResult (r : bool * Zig.LogContext) : bool * Proto.LogContext :=
  (fst r, goContext (snd r)).

(** The Zig reference to the attribute path [path] of an attribute list. *)
Definition zigRef (p : Zig.AttrsPtr) (path : list string) : Zig.FieldRef :=
  match p with
  | Zig.RecordAttrs => Zig.log_attribute path
  | Zig.ResourceAttrs => Zig.resource_attribute path
  | Zig.ScopeAttrs => Zig.scope_attribute path
  end.

(** Whether the container of an attribute list exists in the context. *)
Definition hasContainer (lc : Zig.LogContext) (p : Zig.AttrsPtr) : bool :=
  match p with
  | Zig.RecordAttrs => true
  | Zig.ResourceAttrs => match Zig.resource lc with Some _ => true | None => false end
  | Zig.ScopeAttrs => match Zig.scope lc with Some _ => true | None => false end
  end.

(** An attribute reference whose first key is not the empty text. *)
Definition keyedAttribute (f : Zig.FieldRef) : bool :=
  match f with
  | Zig.log_field _ => false
  | Zig.log_attribute path | Zig.resource_attribute path | Zig.scope_attribute path =>
      match path with
      | k :: _ => negb (k =? "")
      | [] => false
      end
  end.

End Conformance.

(** ** runners/go/main.go: [collectMatchedPolicies] *)

Module GoHarness.

(** [sort.Strings]: the model of [sort.Slice] with the order of strings. *)
Definition sortStrings (l : list string) : list string := Stats.sortSlice String.ltb l.

Definition collectMatchedPolicies (stats : list Stats.PolicyStats) : option (list string) :=
  let matched :=
    fold_left
      (fun matched s =>
         if N.ltb 0 (Stats.MatchHits s) then Stats.append matched (Stats.sPolicyID s)
         else matched)
      stats None in
  let matched :=
    match matched with
    | Some l => Some (sortStrings l)
    | None => None
    end in
  match matched with
  | None => Some []
  | Some l => Some l
  end.

End GoHarness.

(** ** server/main.go: the policy store *)

Module Server.
Local Open Scope Z_scope.

(** [policyv1.PolicySyncStatus]: the members [recordStats] reads; the
    getters accept a nil pointer. *)
Record PolicySyncStatus : Type := mkStatus { Id : string; MatchHits : Z }.

Definition GetId (st : option PolicySyncStatus) : string :=
  match st with Some s => Id s | None => "" end.

Definition GetMatchHits (st : option PolicySyncStatus) : Z :=
  match st with Some s => MatchHits s | None => 0 end.

(** [int64] arithmetic with wrap-around. *)
Definition wrapInt64 (z : Z) : Z := (z + 2 ^ 63) mod 2 ^ 64 - 2 ^ 63.

(** [map[string]int64]: the entries, one for every key. *)
Definition statsMap : Type := list (string * Z).

(** [m[id]]: the zero value when the key is absent. *)
Fixpoint get (m : statsMap) (id : string) : Z :=
  match m with
  | [] => 0
  | (k, v) :: rest => if (k =? id)%string then v else get rest id
  end.

(** [m[id] = v] *)
Fixpoint set (m : statsMap) (id : string) (v : Z) : statsMap :=
  match m with
  | [] => [(id, v)]
  | (k, x) :: rest => if (k =? id)%string then (k, v) :: rest else (k, x) :: set rest id v
  end.

Definition recordStats (stats : statsMap) (statuses : list (option PolicySyncStatus))
  : statsMap :=
  fold_left
    (fun stats st =>
       if 0 <? GetMatchHits st
       then set stats (GetId st) (wrapInt64 (get stats (GetId st) + GetMatchHits st))
       else stats)
    statuses stats.

(** The sum of the positive hit counts reported for a policy. *)
Definition total (statuses : list (option PolicySyncStatus)) (id : string) : Z :=
  fold_right
    (fun st acc =>
       if ((0 <? GetMatchHits st) && (GetId st =? id)%string)%bool
       then GetMatchHits st + acc else acc)
    0 statuses.

(** The policies with a positive hit count among the statuses. *)
Definition reported (statuses : list (option PolicySyncStatus)) (id : string) : Prop :=
  exists st, In st statuses /\ GetId st = id /\ 0 < GetMatchHits st.

End Server.

(** ** The sink server: accumulated OTLP data *)

Module Sink.

(** [json.RawMessage] *)
Definition RawMessage : Type := string.

Record sink : Type := mkSink {
  logs : option (list RawMessage);
  metrics : option (list RawMessage);
  traces : option (list RawMessage)
}.

(** [append(s, xs...)] on a nilable slice: nil stays nil when nothing is
    appended. *)
Definition appendAll {A : Type} (s : option (list A)) (xs : list A) : option (list A) :=
  match s, xs with
  | None, [] => None
  | None, _ :: _ => Some xs
  | Some l, _ => Some (l ++ xs)
  end.

Definition appendLogs (s : sink) (resources : list RawMessage) : sink :=
  mkSink (appendAll (logs s) resources) (metrics s) (traces s).

Definition appendMetrics (s : sink) (resources : list RawMessage) : sink :=
  mkSink (logs s) (appendAll (metrics s) resources) (traces s).

Definition appendTraces (s : sink) (resources : list RawMessage) : sink :=
  mkSink (logs s) (metrics s) (appendAll (traces s) resources).

Definition reset (s : sink) : sink := mkSink None None None.

Definition hasData (s : sink) : bool :=
  (Nat.ltb 0 (len (logs s)) || Nat.ltb 0 (len (metrics s)) || Nat.ltb 0 (len (traces s)))%bool.

(** [output]: the map from the field names to the accumulated entries, as
    the list of its entries. *)
Definition output (s : sink) : list (string * option (list RawMessage)) :=
  (if Nat.ltb 0 (len (logs s)) then [("resourceLogs", logs s)] else [])
  ++ (if Nat.ltb 0 (len (metrics s)) then [("resourceMetrics", metrics s)] else [])
  ++ (if Nat.ltb 0 (len (traces s)) then [("resourceSpans", traces s)] else []).

End Sink.

(** ** Vocabulary of the properties of the processing loops *)

Module ProcessModel.

(** An evaluation that also appends the record it is given to a log kept
    beside the engine. *)
Definition logged {Rec Eng : Type} (evaluate : Process.Evaluation Rec Eng)
  : Process.Evaluation Rec (Eng * list Rec) :=
  fun st res sc rec =>
    let '(result, rec', res', sc', eng') := evaluate (fst st) res sc rec in
    (result, rec', res', sc', (eng', snd st ++ [rec])).

End ProcessModel.

(** ** Vocabulary of the properties of the tracestate merge *)

Module TracestateModel.

(** Whether a character occurs in a text. *)
Definition hasChar (c : ascii) (s : string) : bool :=
  existsb (Ascii.eqb c) (list_ascii_of_string s).

End TracestateModel.

(** ** Vocabulary of the claim about the hit flag of the mutations *)

Module HitClaims.

Definition isSome {A : Type} (o : option A) : bool :=
  match o with Some _ => true | None => false end.

(** Whether an attribute list has an entry with the key. *)
Definition hasKey (k : string) (attrs : list KeyValue) : bool :=
  existsb (fun kv => kvKey kv =? k) attrs.

(** The protobuf runner: the resource or the scope an attribute reference
    points into is present (the record always is). *)
Definition containerPresent (ctx : Proto.LogContext) (ref : LogFieldRef) : bool :=
  if IsResourceAttr ref then isSome (Proto.Resource_ ctx)
  else if IsScopeAttr ref then isSome (Proto.Scope_ ctx)
  else true.

(** The source of a rename: an attribute, never a fixed field. *)
Definition sourceAttribute (ctx : Proto.LogContext) (ref : LogFieldRef) : bool :=
  (negb (IsField ref) && TransformClaims.present ctx ref)%bool.

(** The pdata runner: the attribute map a reference points into, and
    whether the targeted field exists. *)
Definition pdataAttributes (ctx : Pdata.LogContext) (ref : LogFieldRef) : Pdata.Map :=
  if IsRecordAttr ref then Pdata.Attributes (Pdata.Record_ ctx)
  else if IsResourceAttr ref then Pdata.Resource_ ctx
  else Pdata.scAttributes (Pdata.Scope_ ctx).

Definition pdataPresent (ctx : Pdata.LogContext) (ref : LogFieldRef) : bool :=
  if IsField ref then
    match Field ref with
    | LogFieldBody => Pdata.notEmptyType (Pdata.Body (Pdata.Record_ ctx))
    | LogFieldSeverityText => negb (Pdata.SeverityText (Pdata.Record_ ctx) =? "")
    | LogFieldTraceID => negb (Pdata.IsEmpty (Pdata.TraceID (Pdata.Record_ ctx)))
    | LogFieldSpanID => negb (Pdata.IsEmpty (Pdata.SpanID (Pdata.Record_ ctx)))
    | LogFieldEventName => negb (Pdata.EventName (Pdata.Record_ ctx) =? "")
    | _ => false
    end
  else existsb (fun e => fst e =? Proto.attrPath ref) (pdataAttributes ctx ref).

(** The Zig runner: a reference a mutation can act on (a mutable fixed
    field or an attribute reference with a key), whether the targeted field
    exists, and whether its container does. *)
Definition zigMutable (f : Zig.FieldRef) : bool :=
  match f with
  | Zig.log_field lf => TransformClaims.mutableField lf
  | Zig.log_attribute path | Zig.resource_attribute path | Zig.scope_attribute path =>
      match path with [] => false | _ :: _ => true end
  end.

Definition zigIsAttribute (f : Zig.FieldRef) : bool :=
  match f with Zig.log_field _ => false | _ => true end.

Definition zigPresent (lc : Zig.LogContext) (f : Zig.FieldRef) : bool :=
  let rec := Zig.record lc in
  match f with
  | Zig.log_field lf =>
      match lf with
      | LogFieldBody => isSome (LogRecord.Body rec)
      | LogFieldSeverityText => negb (LogRecord.SeverityText rec =? "")
      | LogFieldTraceID => Nat.ltb 0 (len (LogRecord.TraceId rec))
      | LogFieldSpanID => Nat.ltb 0 (len (LogRecord.SpanId rec))
      | LogFieldEventName => negb (LogRecord.EventName rec =? "")
      | _ => false
      end
  | Zig.log_attribute path => hasKey (hd "" path) (LogRecord.Attributes rec)
  | Zig.resource_attribute path =>
      match Zig.resource lc with
      | Some r => hasKey (hd "" path) (Resource.Attributes r)
      | None => false
      end
  | Zig.scope_attribute path =>
      match Zig.scope lc with
      | Some s => hasKey (hd "" path) (InstrumentationScope.Attributes s)
      | None => false
      end
  end.

Definition zigWritable (lc : Zig.LogContext) (f : Zig.FieldRef) : bool :=
  match f with
  | Zig.resource_attribute _ => isSome (Zig.resource lc)
  | Zig.scope_attribute _ => isSome (Zig.scope lc)
  | _ => true
  end.

(** A reference to a resource attribute. *)
Definition resourceRef (key : string) : LogFieldRef :=
  mkRef RefResourceAttr LogFieldUnspecified [key].

End HitClaims.

(** ** server/main.go: [statsHandler] *)

Module StatsHandler.
Import Stats.

Section Encode.

(** The JSON text of a string, quotes included (package encoding/json is
    not part of the sources). *)
Variable jsonString : string -> string.

(** [json.Marshal] of a [policyHit]: the members [policy_id] and [hits]
    ([int64]) in the order of the struct. *)
Definition marshalHit (h : policyHit) : string :=
  ("{" ++ dq ++ "policy_id" ++ dq ++ ":" ++ jsonString (hPolicyID h)
   ++ "," ++ dq ++ "hits" ++ dq ++ ":" ++ decimalZ (hHits h) ++ "}")%string.

(** [json.Marshal] of a [statsOutput]: a nil slice is [null]. *)
Definition marshal (policies : option (list policyHit)) : string :=
  ("{" ++ dq ++ "policies" ++ dq ++ ":"
   ++ match policies with
      | None => "null"
      | Some l => "[" ++ Join (map marshalHit l) "," ++ "]"
      end
   ++ "}")%string.

(** The line feed, as a one character text. *)
Definition newline : string := String (ascii_of_nat 10) EmptyString.

(** The body [statsHandler] writes for a store whose map holds [stats]:
    [json.NewEncoder(w).Encode(store.getStats())] writes the JSON text
    followed by a line feed. *)
Definition statsHandler (stats : list (string * Z)) : string :=
  (marshal (getStats stats) ++ newline)%string.

End Encode.

End StatsHandler.

(** ** The stats document the specification describes *)

Module StatsDocument.

(** A member [name:value] of a JSON object, and the object of a list of
    members. *)
Definition member (name value : string) : string :=
  String.concat "" [Stats.dq; name; Stats.dq; ":"; value].

Definition object (members : list string) : string :=
  String.concat "" ["{"; Join members ","; "}"].

Definition array (elements : list string) : string :=
  String.concat "" ["["; Join elements ","; "]"].

(** [{"policies":[entry,...]}] *)
Definition document (entries : list string) : string :=
  object [member "policies" (array entries)].

Section Entries.

(** The JSON text of a policy id. *)
Variable quote : string -> string.

(** [{"policy_id":"...","hits":N,"misses":M?}]: the entry of the Go
    runner, [misses] left out when it is zero. *)
Definition goEntry (h : Stats.PolicyHit) : string :=
  object ([member "policy_id" (quote (Stats.PolicyID h));
           member "hits" (Stats.decimal (Stats.Hits h))]
          ++ (if N.eqb (Stats.Misses h) 0 then []
              else [member "misses" (Stats.decimal (Stats.Misses h))])).

(** [{"policy_id":"...","hits":N}]: the entry of the server. *)
Definition serverEntry (h : Stats.policyHit) : string :=
  object [member "policy_id" (quote (Stats.hPolicyID h));
          member "hits" (Stats.decimalZ (Stats.hHits h))].

End Entries.

End StatsDocument.

(* ================================================================== *)
(** * Part II: theorems                                                *)
(* ================================================================== *)

(** ** The sampling decision of find_trace_ids.go (C6) *)

Module SamplerFacts.
Import Sampler.
Local Open Scope Z_scope.

Example threshold_50 : threshold 50 = 2 ^ 55.
Proof. vm_compute. reflexivity. Qed.

Example threshold_25 : threshold 25 = 3 * 2 ^ 54.
Proof. vm_compute. reflexivity. Qed.

Example threshold_30 : threshold 30 = 50440315826549552.
Proof. vm_compute. reflexivity. Qed.

Lemma byteZ_range (b : byte) : 0 <= byteZ b < 256.
Proof.
  unfold byteZ. pose proof (Byte.to_N_bounded b). lia.
Qed.

Lemma land_shiftl_byte (r b : Z) :
  0 <= b < 256 -> Z.land (Z.shiftl r 8) b = 0.
Proof.
  intros Hb. apply Z.bits_inj'. intros n Hn.
  rewrite Z.land_spec, Z.bits_0.
  destruct (Z.ltb_spec n 8) as [Hlt|Hge].
  - rewrite Z.shiftl_spec_low by lia. reflexivity.
  - replace (Z.testbit b n) with false; [apply andb_false_r|].
    symmetry. destruct (Z.eq_dec b 0) as [->|Hnz]; [apply Z.bits_0|].
    apply Z.bits_above_log2; [lia|].
    apply Z.log2_lt_pow2; [lia|].
    apply Z.lt_le_trans with (2 ^ 8); [lia|].
    apply Z.pow_le_mono_r; lia.
Qed.

Lemma lor_shiftl_byte (r b : Z) :
  0 <= b < 256 -> Z.lor (Z.shiftl r 8) b = r * 256 + b.
Proof.
  intros Hb.
  rewrite <- Z.lxor_lor by (now apply land_shiftl_byte).
  rewrite <- Z.add_nocarry_lxor by (now apply land_shiftl_byte).
  rewrite Z.shiftl_mul_pow2 by lia. reflexivity.
Qed.

Lemma bigEndian_range (bs : bytes) :
  0 <= bigEndian bs < 256 ^ Z.of_nat (List.length bs).
Proof.
  induction bs as [|b rest IH]; simpl bigEndian; [simpl; lia|].
  pose proof (byteZ_range b) as Hb.
  replace (Z.of_nat (List.length (b :: rest))) with (Z.of_nat (List.length rest) + 1)
    by (simpl List.length; lia).
  rewrite Z.pow_add_r by lia.
  set (P := 256 ^ Z.of_nat (List.length rest)) in *.
  assert (0 < P) by (apply Z.pow_pos_nonneg; lia).
  nia.
Qed.

(** The shift-or loop computes the big-endian integer as long as the
    [uint64] does not overflow. *)
Lemma shiftOr_loop (bs : bytes) :
  forall r,
    0 <= r ->
    (r + 1) * 256 ^ Z.of_nat (List.length bs) <= 2 ^ 64 ->
    fold_left shiftOr bs r = r * 256 ^ Z.of_nat (List.length bs) + bigEndian bs.
Proof.
  induction bs as [|b rest IH]; intros r Hr Hlim; [simpl; lia|].
  pose proof (byteZ_range b) as Hb.
  replace (Z.of_nat (List.length (b :: rest))) with (Z.of_nat (List.length rest) + 1) in *
    by (simpl List.length; lia).
  rewrite Z.pow_add_r in * by lia.
  set (P := 256 ^ Z.of_nat (List.length rest)) in *.
  assert (HP : 0 < P) by (apply Z.pow_pos_nonneg; lia).
  change (256 ^ 1) with 256 in *.
  assert (Hstep : (r * 256 + byteZ b + 1) * P <= 2 ^ 64) by nia.
  assert (Hr256 : r * 256 + byteZ b < 2 ^ 64) by nia.
  simpl fold_left. unfold shiftOr at 2. unfold wrap64.
  rewrite Z.shiftl_mul_pow2 by lia.
  rewrite Z.mod_small by (change (2 ^ 8) with 256; lia).
  rewrite <- Z.shiftl_mul_pow2 by lia.
  rewrite lor_shiftl_byte by exact Hb.
  rewrite IH; [simpl bigEndian; fold P; ring | lia | exact Hstep].
Qed.

Lemma slice_low7 (tid : bytes) :
  List.length tid = 16%nat -> slice tid 9 16 = Ret (firstn 7 (skipn 9 tid)).
Proof. intro H. unfold slice. rewrite H. reflexivity. Qed.

Lemma low7_length (tid : bytes) :
  List.length tid = 16%nat -> List.length (firstn 7 (skipn 9 tid)) = 7%nat.
Proof.
  intro H. rewrite length_firstn, length_skipn, H. reflexivity.
Qed.

Lemma loop_is_R (tid : bytes) :
  List.length tid = 16%nat ->
  fold_left shiftOr (firstn 7 (skipn 9 tid)) 0 = R tid.
Proof.
  intro H. rewrite shiftOr_loop; [unfold R; lia | lia |].
  rewrite (low7_length tid H). simpl. lia.
Qed.

Lemma R_range (tid : bytes) : List.length tid = 16%nat -> 0 <= R tid < 2 ^ 56.
Proof.
  intro H. unfold R. pose proof (bigEndian_range (firstn 7 (skipn 9 tid))) as Hr.
  rewrite (low7_length tid H) in Hr. exact Hr.
Qed.

(** Comparisons of a binary64 value with the constants 0 and 100. *)

Lemma SF_100 : Prim2SF 100%float = S754_finite false 7036874417766400 (-46).
Proof. vm_compute. reflexivity. Qed.

Lemma SF_0 : Prim2SF 0%float = S754_zero false.
Proof. vm_compute. reflexivity. Qed.

Lemma compare_cont_Lt_Gt (m n : positive) :
  Pos.compare_cont Eq m n = Lt -> Pos.compare_cont Eq n m = Gt.
Proof.
  change (Pos.compare_cont Eq m n) with (Pos.compare m n).
  change (Pos.compare_cont Eq n m) with (Pos.compare n m).
  intro H. rewrite Pos.compare_antisym, H. reflexivity.
Qed.

Lemma below_100_not_above (p : float) :
  (p <? 100)%float = true -> (100 <=? p)%float = false.
Proof.
  rewrite ltb_spec, leb_spec, SF_100. unfold SFltb, SFleb.
  destruct (Prim2SF p) as [s|s| |s m e]; cbv [SFcompare];
    try destruct s; try discriminate; try reflexivity.
  rewrite (Z.compare_antisym e (-46)).
  destruct (e ?= -46); cbv [CompOpp]; try discriminate; try reflexivity.
  destruct (Pos.compare_cont Eq m 7036874417766400) eqn:E; try discriminate.
  intros _. now rewrite (compare_cont_Lt_Gt _ _ E).
Qed.

Lemma above_0_not_below (p : float) :
  (0 <? p)%float = true -> (p <=? 0)%float = false.
Proof.
  rewrite ltb_spec, leb_spec, SF_0. unfold SFltb, SFleb.
  destruct (Prim2SF p) as [s|s| |s m e]; cbv [SFcompare];
    try destruct s; try discriminate; reflexivity.
Qed.

Lemma nonpositive_not_above_100 (p : float) :
  (p <=? 0)%float = true -> (100 <=? p)%float = false.
Proof.
  rewrite !leb_spec, SF_100, SF_0. unfold SFleb.
  destruct (Prim2SF p) as [s|s| |s m e]; cbv [SFcompare];
    try destruct s; try discriminate; reflexivity.
Qed.

End SamplerFacts.

(** C6 (as amended). For a 16 byte trace ID and a percentage with
    0 < percentage < 100, the decision keeps the span if and only if R >= T,
    where R is the big-endian integer of bytes 9 through 15 of the trace ID
    (0 <= R < 2^56) and T is the value of (1 - percentage/100) * 2^56
    computed in binary64 arithmetic and truncated to an unsigned 64 bit
    integer; at percentage >= 100 every span is kept and at percentage <= 0
    no span is kept. *)
Theorem C6_keep_iff_R_reaches_truncated_threshold :
  forall (tid : bytes) (p : float),
    List.length tid = 16 ->
    ((0 <= Sampler.R tid < 2 ^ 56)%Z)
    /\ ((0 <? p)%float = true -> (p <? 100)%float = true ->
        Sampler.otelShouldKeep tid p
        = Sampler.Ret (Sampler.threshold p <=? Sampler.R tid)%Z)
    /\ ((100 <=? p)%float = true -> Sampler.otelShouldKeep tid p = Sampler.Ret true)
    /\ ((p <=? 0)%float = true -> Sampler.otelShouldKeep tid p = Sampler.Ret false).
Proof.
  intros tid p Hlen.
  split; [now apply SamplerFacts.R_range|].
  unfold Sampler.otelShouldKeep.
  split; [|split].
  - intros H0 H100.
    rewrite (SamplerFacts.below_100_not_above p H100).
    rewrite (SamplerFacts.above_0_not_below p H0).
    rewrite (SamplerFacts.slice_low7 tid Hlen).
    now rewrite (SamplerFacts.loop_is_R tid Hlen).
  - intros H. now rewrite H.
  - intros H. rewrite (SamplerFacts.nonpositive_not_above_100 p H). now rewrite H.
Qed.

Lemma C6_witness :
  Sampler.otelShouldKeep SamplerExamples.aaTraceID 50
  = Sampler.Ret (Sampler.threshold 50 <=? Sampler.R SamplerExamples.aaTraceID)%Z
  /\ Sampler.otelShouldKeep SamplerExamples.aaTraceID 100 = Sampler.Ret true.
Proof.
  destruct (C6_keep_iff_R_reaches_truncated_threshold SamplerExamples.aaTraceID 50 eq_refl)
    as (_ & H & _).
  destruct (C6_keep_iff_R_reaches_truncated_threshold SamplerExamples.aaTraceID 100 eq_refl)
    as (_ & _ & H100 & _).
  split; [apply H; reflexivity | apply H100; reflexivity].
Defined.

(** C6, the claim as stated fails: at 30 percent the span whose R is
    50440315826549555 is kept, although R is below
    (1 - 30/100) * 2^56 = 50440315826549555.2; the code compares R with the
    truncated binary64 threshold 50440315826549552. *)
Lemma C6_counterexample_fraction_of_threshold :
  Sampler.otelShouldKeep SamplerExamples.boundaryTraceID 30 = Sampler.Ret true
  /\ Sampler.R SamplerExamples.boundaryTraceID = 50440315826549555%Z
  /\ Sampler.threshold 30 = 50440315826549552%Z
  /\ ~ Sampler.exact_keep (Sampler.R SamplerExamples.boundaryTraceID) 30.
Proof.
  split; [vm_compute; reflexivity|].
  split; [vm_compute; reflexivity|].
  split; [vm_compute; reflexivity|].
  unfold Sampler.exact_keep. vm_compute. intro H. apply H. reflexivity.
Qed.

(** ** The tracestate merge (C2) *)

Lemma string_app_assoc (a b c : string) : ((a ++ b) ++ c)%string = (a ++ b ++ c)%string.
Proof. induction a as [|x a IH]; simpl; [reflexivity | now rewrite IH]. Qed.

Lemma string_app_nil_r (a : string) : (a ++ "")%string = a.
Proof. induction a as [|x a IH]; simpl; [reflexivity | now rewrite IH]. Qed.

Lemma string_length_app (a b : string) :
  String.length (a ++ b) = String.length a + String.length b.
Proof. induction a as [|x a IH]; simpl; [reflexivity | now rewrite IH]. Qed.

Lemma Join_snoc (l : list string) (sep x : string) :
  l <> [] -> Join (l ++ [x]) sep = (Join l sep ++ sep ++ x)%string.
Proof.
  unfold Join. induction l as [|a r IH]; intro Hne; [contradiction|].
  destruct r as [|b r]; [reflexivity|].
  change ((a :: b :: r) ++ [x]) with (a :: (b :: r) ++ [x]).
  change (String.concat sep (a :: (b :: r) ++ [x]))
    with (a ++ sep ++ String.concat sep ((b :: r) ++ [x]))%string.
  rewrite IH by discriminate.
  change (String.concat sep (a :: b :: r))
    with (a ++ sep ++ String.concat sep (b :: r))%string.
  now rewrite !string_app_assoc.
Qed.

Lemma commas_Join (l : list string) :
  String.concat "" (map (fun v => ("," ++ v)%string) l)
  = match l with
    | [] => ""
    | _ :: _ => ("," ++ Join l ",")%string
    end.
Proof.
  induction l as [|a r IH]; [reflexivity|].
  destruct r as [|b r]; [reflexivity|].
  change (map (fun v => ("," ++ v)%string) (a :: b :: r))
    with (("," ++ a)%string :: map (fun v => ("," ++ v)%string) (b :: r)).
  change (String.concat "" (("," ++ a)%string :: map (fun v => ("," ++ v)%string) (b :: r)))
    with (("," ++ a) ++ "" ++ String.concat "" (map (fun v => ("," ++ v)%string) (b :: r)))%string.
  rewrite IH. unfold Join.
  change (String.concat "," (a :: b :: r))
    with (a ++ "," ++ String.concat "," (b :: r))%string.
  simpl. reflexivity.
Qed.

Lemma filter_flat_map {A B : Type} (f : B -> bool) (g : A -> list B) (l : list A) :
  filter f (flat_map g l) = flat_map (fun x => filter f (g x)) l.
Proof.
  induction l as [|a r IH]; simpl; [reflexivity|].
  now rewrite filter_app, IH.
Qed.

Lemma keyOf_th (value : string) : keyOf ("th:" ++ value) = "th".
Proof. destruct value; reflexivity. Qed.

Section MergeFacts.

Variable TrimSpace : string -> string.

Let notTh (subKey : string) : string -> bool := fun p => negb (keyOf p =? subKey).

Lemma otPartsLoop_filter (subKey : string) (parts : list string) :
  forall otParts,
    GoTracestate.otPartsLoop TrimSpace subKey otParts parts
    = otParts ++ filter (notTh subKey)
                   (filter TracestateSpec.nonEmpty (map TrimSpace parts)).
Proof.
  unfold GoTracestate.otPartsLoop, notTh.
  induction parts as [|part rest IH]; intro otParts; simpl; [now rewrite app_nil_r|].
  rewrite IH. unfold TracestateSpec.nonEmpty at 2.
  destruct (TrimSpace part =? ""); simpl; [reflexivity|].
  destruct (negb (keyOf (TrimSpace part) =? subKey)); simpl; [|reflexivity].
  now rewrite <- app_assoc.
Qed.

Lemma vendorLoop_filter (subKey : string) (vendors : list string) :
  forall st,
    GoTracestate.vendorLoop TrimSpace subKey vendors st
    = (fst st ++ flat_map
                   (fun v => filter (notTh subKey)
                               (TracestateSpec.members TrimSpace (drop 3 v) ";"))
                   (filter TracestateSpec.isOT
                      (filter TracestateSpec.nonEmpty (map TrimSpace vendors))),
       snd st ++ filter (fun v => negb (TracestateSpec.isOT v))
                   (filter TracestateSpec.nonEmpty (map TrimSpace vendors))).
Proof.
  unfold GoTracestate.vendorLoop.
  induction vendors as [|vendor rest IH]; intros [otParts others]; simpl.
  - now rewrite !app_nil_r.
  - rewrite IH. unfold TracestateSpec.nonEmpty at 3 6.
    destruct (TrimSpace vendor =? ""); simpl; [reflexivity|].
    unfold TracestateSpec.isOT at 3 6.
    destruct (HasPrefix (TrimSpace vendor) "ot="); simpl.
    + rewrite otPartsLoop_filter. unfold TracestateSpec.members.
      now rewrite <- app_assoc.
    + now rewrite <- app_assoc.
Qed.

Lemma go_merge_layout (tracestate value : string) :
  GoTracestate.mergeOTTracestate TrimSpace tracestate ("th:" ++ value)
  = TracestateSpec.merged TrimSpace TracestateExamples.goIsTh tracestate value.
Proof.
  unfold GoTracestate.mergeOTTracestate, TracestateSpec.merged.
  rewrite keyOf_th, commas_Join.
  unfold TracestateSpec.otSubKeys, TracestateSpec.otherVendors, TracestateSpec.vendorEntries.
  rewrite filter_flat_map.
  destruct (tracestate =? ""); simpl negb; cbv iota.
  - simpl. now rewrite string_app_nil_r.
  - rewrite vendorLoop_filter. unfold fst, snd. rewrite !app_nil_l.
    unfold TracestateSpec.members at 2 3.
    destruct (filter (fun v => negb (TracestateSpec.isOT v)) _) as [|o os].
    + simpl. now rewrite string_app_nil_r.
    + simpl List.length. simpl Nat.ltb. cbv iota.
      now rewrite !string_app_assoc.
Qed.

End MergeFacts.

(** The Zig runner keeps the two lists as joined text. *)

Lemma length_zero_eqb (s : string) : Nat.eqb (String.length s) 0 = (s =? "").
Proof. destruct s; reflexivity. Qed.

Lemma length_pos_nonEmpty (s : string) :
  Nat.ltb 0 (String.length s) = TracestateSpec.nonEmpty s.
Proof. destruct s; reflexivity. Qed.

Lemma Join_cons_length (a : string) (r : list string) (sep : string) :
  TracestateSpec.nonEmpty a = true ->
  Nat.ltb 0 (String.length (Join (a :: r) sep)) = true.
Proof.
  intro Ha. destruct a as [|c a]; [discriminate|].
  unfold Join. destruct r; reflexivity.
Qed.

Lemma appendSep_Join (acc : list string) (sep item : string) :
  Forall (fun s => TracestateSpec.nonEmpty s = true) acc ->
  Zig.appendSep (Join acc sep) sep item = Join (acc ++ [item]) sep.
Proof.
  intro Hall. unfold Zig.appendSep. destruct acc as [|a r]; [reflexivity|].
  rewrite Join_cons_length by (now inversion Hall).
  rewrite Join_snoc by discriminate. now rewrite string_app_assoc.
Qed.

Lemma nonEmpty_unfold (s : string) : TracestateSpec.nonEmpty s = negb (s =? "").
Proof. reflexivity. Qed.

Lemma Forall_snoc_nonEmpty (acc : list string) (x : string) :
  Forall (fun s => TracestateSpec.nonEmpty s = true) acc ->
  (x =? "") = false ->
  Forall (fun s => TracestateSpec.nonEmpty s = true) (acc ++ [x]).
Proof.
  intros Hall Hx. apply Forall_app. split; [exact Hall|].
  constructor; [|constructor]. now rewrite nonEmpty_unfold, Hx.
Qed.

Lemma zig_otPartsLoop_Join (parts : list string) :
  forall acc,
    Forall (fun s => TracestateSpec.nonEmpty s = true) acc ->
    Zig.otPartsLoop (Join acc ";") parts
    = Join (acc ++ filter (fun p => negb (TracestateExamples.zigIsTh p))
                     (filter TracestateSpec.nonEmpty (map Zig.trim parts))) ";".
Proof.
  unfold Zig.otPartsLoop.
  induction parts as [|part rest IH]; intros acc Hall; cbn [fold_left map filter].
  - now rewrite app_nil_r.
  - rewrite length_zero_eqb, nonEmpty_unfold.
    destruct (Zig.trim part =? "") eqn:E; cbn [negb]; [now apply IH|].
    cbn [filter]. unfold TracestateExamples.zigIsTh at 1.
    destruct (HasPrefix (Zig.trim part) "th:"); cbn [negb]; [now apply IH|].
    rewrite appendSep_Join by exact Hall.
    rewrite IH by (now apply Forall_snoc_nonEmpty).
    now rewrite <- app_assoc.
Qed.

Lemma zig_otParts_nonEmpty (acc parts : list string) :
  Forall (fun s => TracestateSpec.nonEmpty s = true) acc ->
  Forall (fun s => TracestateSpec.nonEmpty s = true)
    (acc ++ filter (fun p => negb (TracestateExamples.zigIsTh p))
              (filter TracestateSpec.nonEmpty (map Zig.trim parts))).
Proof.
  intro Hall. apply Forall_app. split; [exact Hall|].
  apply Forall_forall. intros x Hx. apply filter_In in Hx as [Hx _].
  now apply filter_In in Hx as [_ Hx].
Qed.

Lemma zig_vendorLoop_Join (vendors : list string) :
  forall a o,
    Forall (fun s => TracestateSpec.nonEmpty s = true) a ->
    Forall (fun s => TracestateSpec.nonEmpty s = true) o ->
    Zig.vendorLoop vendors (Join a ";", Join o ",")
    = (Join (a ++ flat_map
                    (fun v => filter (fun p => negb (TracestateExamples.zigIsTh p))
                                (TracestateSpec.members Zig.trim (drop 3 v) ";"))
                    (filter TracestateSpec.isOT
                       (filter TracestateSpec.nonEmpty (map Zig.trim vendors)))) ";",
       Join (o ++ filter (fun v => negb (TracestateSpec.isOT v))
                    (filter TracestateSpec.nonEmpty (map Zig.trim vendors))) ",").
Proof.
  unfold Zig.vendorLoop.
  induction vendors as [|vendor rest IH]; intros a o Ha Ho;
    cbn [fold_left map filter flat_map fst snd].
  - now rewrite !app_nil_r.
  - rewrite length_zero_eqb, nonEmpty_unfold.
    destruct (Zig.trim vendor =? "") eqn:E; cbn [negb]; [now apply IH|].
    cbn [filter].
    change (TracestateSpec.isOT (Zig.trim vendor)) with (HasPrefix (Zig.trim vendor) "ot=").
    destruct (HasPrefix (Zig.trim vendor) "ot="); cbn [negb flat_map].
    + rewrite zig_otPartsLoop_Join by exact Ha.
      rewrite IH; [|now apply zig_otParts_nonEmpty | exact Ho].
      unfold TracestateSpec.members. now rewrite <- app_assoc.
    + rewrite appendSep_Join by exact Ho.
      rewrite IH; [now rewrite <- app_assoc | exact Ha |].
      now apply Forall_snoc_nonEmpty.
Qed.

Lemma Join_nil_length (l : list string) (sep : string) :
  Forall (fun s => TracestateSpec.nonEmpty s = true) l ->
  Nat.ltb 0 (String.length (Join l sep)) = match l with [] => false | _ :: _ => true end.
Proof.
  intro H. destruct l as [|a r]; [reflexivity|].
  apply Join_cons_length. now inversion H.
Qed.

Lemma filter_all {A : Type} (f g : A -> bool) (l : list A) :
  (forall x, f x = true -> g x = true) -> Forall (fun x => g x = true) (filter f l).
Proof.
  intro H. apply Forall_forall. intros x Hx. apply filter_In in Hx. now apply H.
Qed.

Lemma members_nonEmpty (trim : string -> string) (text : string) (sep : ascii) :
  Forall (fun s => TracestateSpec.nonEmpty s = true) (TracestateSpec.members trim text sep).
Proof. unfold TracestateSpec.members. now apply filter_all. Qed.

Lemma zig_merge_layout (tracestate value : string) :
  Zig.mergeOTTracestate tracestate value
  = TracestateSpec.merged Zig.trim TracestateExamples.zigIsTh tracestate value.
Proof.
  unfold Zig.mergeOTTracestate, TracestateSpec.merged.
  rewrite commas_Join.
  unfold TracestateSpec.otSubKeys, TracestateSpec.otherVendors, TracestateSpec.vendorEntries.
  rewrite filter_flat_map.
  destruct tracestate as [|c t].
  - simpl. now rewrite string_app_nil_r.
  - remember (String c t) as ts eqn:Hts.
    replace (Nat.ltb 0 (String.length ts)) with true by (subst ts; reflexivity).
    replace (ts =? "") with false by (subst ts; reflexivity).
    clear Hts c t.
    change ("", "") with (Join [] ";", Join [] ",").
    rewrite zig_vendorLoop_Join by constructor. unfold fst, snd. rewrite !app_nil_l.
    fold (TracestateSpec.members Zig.trim ts ",").
    set (kept := flat_map _ _). set (others := filter (fun v => negb _) _).
    assert (Hk : Forall (fun s => TracestateSpec.nonEmpty s = true) kept).
    { subst kept. apply Forall_flat_map. apply Forall_forall. intros v _.
      apply Forall_forall. intros x Hx. apply filter_In in Hx as [Hx _].
      pose proof (members_nonEmpty Zig.trim (drop 3 v) ";") as Hm.
      rewrite Forall_forall in Hm. now apply Hm. }
    assert (Ho : Forall (fun s => TracestateSpec.nonEmpty s = true) others).
    { subst others. apply Forall_forall. intros x Hx. apply filter_In in Hx as [Hx _].
      pose proof (members_nonEmpty Zig.trim ts ",") as Hm.
      rewrite Forall_forall in Hm. now apply Hm. }
    rewrite (Join_nil_length kept ";" Hk), (Join_nil_length others "," Ho).
    destruct kept as [|k ks]; destruct others as [|o os];
      rewrite ?Join_snoc by discriminate; simpl app;
      rewrite ?string_app_assoc, ?string_app_nil_r; reflexivity.
Qed.

Lemma HasPrefix_ot (x : string) : HasPrefix ("ot=" ++ x) "ot=" = true.
Proof. destruct x; reflexivity. Qed.

(** For every tracestate and every threshold value, the merged tracestate
    is [ot=] followed by the sub-keys of the incoming [ot] entries without
    the [th] sub-key, then [th:VALUE], all joined by [;], followed by
    [,entry] for every other vendor entry, where the entries and sub-keys
    are the list members as the runner itself trims them (the Go runner
    with strings.TrimSpace, the Zig runner of blanks only). *)
Lemma merged_tracestate_layout :
  forall (TrimSpace : string -> string) (ctx : GoTracestate.TraceContext)
         (tracestate value : string),
    GoTracestate.mergeOTTracestate TrimSpace tracestate ("th:" ++ value)
    = TracestateSpec.merged TrimSpace TracestateExamples.goIsTh tracestate value
    /\ Zig.mergeOTTracestate tracestate value
       = TracestateSpec.merged Zig.trim TracestateExamples.zigIsTh tracestate value
    /\ HasPrefix (GoTracestate.mergeOTTracestate TrimSpace tracestate ("th:" ++ value)) "ot="
       = true
    /\ HasPrefix (Zig.mergeOTTracestate tracestate value) "ot=" = true
    /\ GoTracestate.spTraceState
         (GoTracestate.tSpan
            (GoTracestate.OTelTraceTransformer TrimSpace ctx
               GoTracestate.SpanSamplingThreshold value))
       = TracestateSpec.merged TrimSpace TracestateExamples.goIsTh
           (GoTracestate.spTraceState (GoTracestate.tSpan ctx)) value.
Proof.
  intros TrimSpace ctx tracestate value.
  split; [apply go_merge_layout|].
  split; [apply zig_merge_layout|].
  split; [rewrite go_merge_layout; apply HasPrefix_ot|].
  split; [rewrite zig_merge_layout; apply HasPrefix_ot|].
  simpl. apply go_merge_layout.
Qed.

(** C2. The Zig runner trims blanks only from the members of the
    tracestate.  On a tracestate whose [ot] entry follows a tab it does not
    recognise the entry: the merged tracestate keeps the old [th] sub-key,
    has a second [ot=] entry and leaves the [rv] sub-key out of the leading
    one.  The Go runner, which trims with strings.TrimSpace, writes what the
    claim says for the same input. *)
Theorem C2_zig_merge_misses_ot_entry_after_tab :
  Zig.mergeOTTracestate TracestateExamples.tabbedTracestate "8"
  = ("ot=th:8,vendora=x," ++ TracestateExamples.tab ++ "ot=rv:1;th:c")%string
  /\ GoTracestate.mergeOTTracestate TracestateExamples.asciiTrimSpace
       TracestateExamples.tabbedTracestate "th:8"
     = "ot=rv:1;th:8,vendora=x".
Proof. split; reflexivity. Qed.

(** Scenario 3, with blanks only as the trimmed characters. *)
Example merge_preserves_vendors :
  GoTracestate.mergeOTTracestate Zig.trim TracestateExamples.scenarioTracestate "th:8"
  = "ot=rv:1234;th:8,vendora=xyz,vendorb=p"
  /\ Zig.mergeOTTracestate TracestateExamples.incomingTh "8"
     = "ot=rv:1234;th:8,congo=t61rcWkgMzE".
Proof. split; reflexivity. Qed.

(** ** The stats output (C8) *)

Section SortFacts.

Variable A : Type.
Variable key : A -> string.

Let less (a b : A) : bool := String.ltb (key a) (key b).
Let le (a b : A) : Prop := StatsClaims.ascending (key a) (key b).

Lemma ltb_leb (s t : string) : String.ltb s t = true -> String.leb s t = true.
Proof. unfold String.ltb, String.leb. destruct (String.compare s t); congruence. Qed.

Lemma not_ltb_leb (s t : string) : String.ltb s t = false -> String.leb t s = true.
Proof.
  unfold String.ltb, String.leb. rewrite (String.compare_antisym t s).
  destruct (String.compare s t); simpl; congruence.
Qed.

Lemma insertBy_HdRel (x y : A) (l : list A) :
  le y x -> HdRel le y l -> HdRel le y (Stats.insertBy less x l).
Proof.
  intros Hyx Hl. destruct l as [|z r]; simpl; [now constructor|].
  destruct (less x z); constructor; [exact Hyx | now inversion Hl].
Qed.

Lemma insertBy_Sorted (x : A) (l : list A) :
  Sorted le l -> Sorted le (Stats.insertBy less x l).
Proof.
  induction l as [|y r IH]; intro Hs; simpl.
  - repeat constructor.
  - inversion Hs as [|? ? Hr Hhd]; subst.
    destruct (less x y) eqn:E.
    + constructor; [exact Hs|]. constructor. now apply ltb_leb.
    + constructor; [now apply IH|].
      apply insertBy_HdRel; [now apply not_ltb_leb | exact Hhd].
Qed.

Lemma insertBy_Permutation (x : A) (l : list A) :
  Permutation (Stats.insertBy less x l) (x :: l).
Proof.
  induction l as [|y r IH]; simpl; [reflexivity|].
  destruct (less x y); [reflexivity|].
  rewrite IH. apply perm_swap.
Qed.

Lemma sortSlice_acc (l : list A) :
  forall acc,
    Sorted le acc ->
    Sorted le (fold_left (fun acc x => Stats.insertBy less x acc) l acc)
    /\ Permutation (fold_left (fun acc x => Stats.insertBy less x acc) l acc) (acc ++ l).
Proof.
  induction l as [|x r IH]; intros acc Hs; simpl.
  - rewrite app_nil_r. now split.
  - destruct (IH (Stats.insertBy less x acc) (insertBy_Sorted x acc Hs)) as [H1 H2].
    split; [exact H1|]. rewrite H2, insertBy_Permutation.
    simpl. apply Permutation_middle.
Qed.

Lemma sortSlice_sorted (l : list A) :
  Sorted le (Stats.sortSlice less l) /\ Permutation (Stats.sortSlice less l) l.
Proof. apply (sortSlice_acc l []). constructor. Qed.

End SortFacts.

Lemma append_fold {A B : Type} (f : B -> bool) (g : B -> A) (l : list B) :
  forall acc,
    fold_left (fun out s => if f s then Stats.append out (g s) else out) l acc
    = match map g (filter f l) with
      | [] => acc
      | _ :: _ =>
          Some (match acc with None => [] | Some a => a end ++ map g (filter f l))
      end.
Proof.
  induction l as [|x r IH]; intro acc; simpl; [reflexivity|].
  rewrite IH. destruct (f x); simpl; [|reflexivity].
  destruct (map g (filter f r)) as [|y ys]; destruct acc as [a|]; simpl;
    rewrite <- ?app_assoc; reflexivity.
Qed.

Lemma collect_filter (stats : list Stats.PolicyStats) :
  Stats.collect stats
  = match map StatsClaims.toHit (filter StatsClaims.active stats) with
    | [] => None
    | l => Some l
    end.
Proof.
  etransitivity;
    [exact (append_fold StatsClaims.active StatsClaims.toHit stats None)|].
  destruct (map StatsClaims.toHit (filter StatsClaims.active stats)); reflexivity.
Qed.

Lemma statsOutput_entries (stats : list Stats.PolicyStats) :
  Stats.Policies (Stats.statsOutput stats)
  = Some (Stats.sortSlice Stats.lessPolicyID
            (map StatsClaims.toHit (filter StatsClaims.active stats))).
Proof.
  unfold Stats.statsOutput. rewrite collect_filter.
  destruct (map StatsClaims.toHit (filter StatsClaims.active stats)); reflexivity.
Qed.

Lemma zigCollect_acc (policies : list (string * option Z)) :
  forall acc,
    fold_left
      (fun stats p =>
         match snd p with
         | None => stats
         | Some h => if (0 <? h)%Z then stats ++ [Stats.mkPolicyStat (fst p) h] else stats
         end) policies acc
    = acc ++ map StatsClaims.zigToStat (filter StatsClaims.zigActive policies).
Proof.
  induction policies as [|[id [h|]] r IH]; intro acc; simpl.
  - now rewrite app_nil_r.
  - rewrite IH. unfold StatsClaims.zigActive at 2. simpl.
    destruct (0 <? h)%Z; simpl; [now rewrite <- app_assoc | reflexivity].
  - apply IH.
Qed.

Lemma zigEntries_tail (items : list Stats.PolicyStat) :
  forall i,
    Stats.zigEntries (S i) items
    = String.concat "" (map (fun st => ("," ++ StatsClaims.zigEntry st)%string) items).
Proof.
  induction items as [|st r IH]; intro i; [reflexivity|].
  cbn [Stats.zigEntries map]. rewrite IH.
  change (Nat.ltb 0 (S i)) with true. cbv iota.
  unfold StatsClaims.zigEntry.
  destruct r as [|st' r']; simpl; rewrite ?string_app_assoc; simpl;
    rewrite ?string_app_assoc; simpl; rewrite ?string_app_nil_r; reflexivity.
Qed.

Lemma zigEntries_Join (items : list Stats.PolicyStat) :
  Stats.zigEntries 0 items = Join (map StatsClaims.zigEntry items) ",".
Proof.
  destruct items as [|st r]; [reflexivity|].
  cbn [Stats.zigEntries]. rewrite zigEntries_tail.
  change (Nat.ltb 0 0) with false. cbv iota.
  rewrite <- (map_map StatsClaims.zigEntry (fun v => ("," ++ v)%string)), commas_Join.
  unfold Join, StatsClaims.zigEntry.
  destruct r as [|st' r']; simpl; rewrite ?string_app_assoc; simpl;
    rewrite ?string_app_assoc; simpl; rewrite ?string_app_nil_r; reflexivity.
Qed.

Lemma append_all {A B : Type} (g : B -> A) (l : list B) :
  forall acc,
    fold_left (fun out e => Stats.append out (g e)) l acc
    = match l with
      | [] => acc
      | _ :: _ => Some (match acc with None => [] | Some a => a end ++ map g l)
      end.
Proof.
  induction l as [|x r IH]; intro acc; simpl; [reflexivity|].
  rewrite IH. destruct r as [|y ys]; destruct acc as [a|]; simpl;
    rewrite <- ?app_assoc; reflexivity.
Qed.

Lemma getStats_entries (stats : list (string * Z)) :
  Stats.getStats stats
  = Some (Stats.sortSlice (fun a b => String.ltb (Stats.hPolicyID a) (Stats.hPolicyID b))
            (map StatsClaims.serverHit stats)).
Proof.
  unfold Stats.getStats.
  replace (fold_left _ stats None)
    with (match stats with
          | [] => None
          | _ :: _ => Some ([] ++ map StatsClaims.serverHit stats)
          end)
    by (symmetry; exact (append_all StatsClaims.serverHit stats None)).
  destruct stats; reflexivity.
Qed.

Lemma app_empty_right (s : string) : (s ++ "")%string = s.
Proof. induction s as [|c r IH]; [reflexivity | simpl; now rewrite IH]. Qed.

Lemma marshalHit_goEntry (quote : string -> string) (h : Stats.PolicyHit) :
  Stats.marshalHit quote h = StatsDocument.goEntry quote h.
Proof.
  unfold Stats.marshalHit, StatsDocument.goEntry, StatsDocument.object,
    StatsDocument.member, Join.
  destruct (N.eqb (Stats.Misses h) 0); simpl;
    rewrite ?string_app_assoc; simpl; rewrite ?string_app_assoc; simpl;
    rewrite ?app_empty_right; reflexivity.
Qed.

Lemma marshalHit_serverEntry (quote : string -> string) (h : Stats.policyHit) :
  StatsHandler.marshalHit quote h = StatsDocument.serverEntry quote h.
Proof.
  unfold StatsHandler.marshalHit, StatsDocument.serverEntry, StatsDocument.object,
    StatsDocument.member, Join.
  simpl; rewrite ?string_app_assoc; simpl; rewrite ?string_app_assoc; simpl;
    rewrite ?app_empty_right; reflexivity.
Qed.

Lemma document_text (entries : list string) :
  StatsDocument.document entries
  = ("{" ++ Stats.dq ++ "policies" ++ Stats.dq ++ ":[" ++ Join entries "," ++ "]}")%string.
Proof.
  unfold StatsDocument.document, StatsDocument.object, StatsDocument.member,
    StatsDocument.array, Join.
  simpl. rewrite ?string_app_assoc. reflexivity.
Qed.

(** C8 (as amended). The stats output lists the policies to report sorted
    ascending by policy_id in byte-wise order, each reported once (the
    entries are a permutation of the reported policies), in the Go runner,
    the Zig runner and the server, and its text is the document
    [{"policies":[entry,...]}] of these entries.  When there is nothing to
    report the Go and the Zig runner write exactly [{"policies":[]}]; the
    body of the stats response of the server is the document followed by a
    line feed, [{"policies":[]}] and a line feed when the store is empty. *)
Theorem C8_stats_sorted_by_policy_id :
  forall (jsonString : string -> string) (stats : list Stats.PolicyStats)
         (snapshot : list (string * option Z)) (serverStats : list (string * Z)),
    let reported := map StatsClaims.toHit (filter StatsClaims.active stats) in
    let entries := Stats.sortSlice Stats.lessPolicyID reported in
    let zigReported := map StatsClaims.zigToStat (filter StatsClaims.zigActive snapshot) in
    let zigEntries := Stats.sortSlice Stats.zigLessThan zigReported in
    let serverEntries :=
      Stats.sortSlice (fun a b => String.ltb (Stats.hPolicyID a) (Stats.hPolicyID b))
        (map StatsClaims.serverHit serverStats) in
    (* Go runner *)
    Stats.Policies (Stats.statsOutput stats) = Some entries
    /\ Sorted (fun a b => StatsClaims.ascending (Stats.PolicyID a) (Stats.PolicyID b)) entries
    /\ Permutation entries reported
    /\ Stats.writeStats jsonString stats
       = StatsDocument.document (map (StatsDocument.goEntry jsonString) entries)
    /\ (filter StatsClaims.active stats = [] ->
        Stats.writeStats jsonString stats = StatsClaims.emptyStatsJSON)
    (* Zig runner *)
    /\ Stats.zigWriteStats (Some snapshot)
       = Some ("{" ++ Stats.dq ++ "policies" ++ Stats.dq ++ ":["
               ++ Join (map StatsClaims.zigEntry zigEntries) "," ++ "]}")%string
    /\ Sorted (fun a b => StatsClaims.ascending (Stats.policy_id a) (Stats.policy_id b))
         zigEntries
    /\ Permutation zigEntries zigReported
    /\ (filter StatsClaims.zigActive snapshot = [] ->
        Stats.zigWriteStats (Some snapshot) = Some StatsClaims.emptyStatsJSON)
    (* server *)
    /\ Stats.getStats serverStats = Some serverEntries
    /\ Sorted (fun a b => StatsClaims.ascending (Stats.hPolicyID a) (Stats.hPolicyID b))
         serverEntries
    /\ Permutation serverEntries (map StatsClaims.serverHit serverStats)
    /\ StatsHandler.statsHandler jsonString serverStats
       = (StatsDocument.document (map (StatsDocument.serverEntry jsonString) serverEntries)
          ++ StatsHandler.newline)%string
    /\ (serverStats = [] ->
        StatsHandler.statsHandler jsonString serverStats
        = (StatsClaims.emptyStatsJSON ++ StatsHandler.newline)%string).
Proof.
  intros jsonString stats snapshot serverStats reported entries zigReported zigEntries
    serverEntries.
  destruct (sortSlice_sorted Stats.PolicyHit Stats.PolicyID reported) as [Hs Hp].
  destruct (sortSlice_sorted Stats.PolicyStat Stats.policy_id zigReported) as [Hzs Hzp].
  destruct (sortSlice_sorted Stats.policyHit Stats.hPolicyID
              (map StatsClaims.serverHit serverStats)) as [Hss Hsp].
  assert (Hw : Stats.writeStats jsonString stats
               = StatsDocument.document (map (StatsDocument.goEntry jsonString) entries)).
  { rewrite document_text.
    rewrite (map_ext _ _ (fun h => eq_sym (marshalHit_goEntry jsonString h))).
    unfold Stats.writeStats, Stats.marshal. rewrite statsOutput_entries.
    fold reported. fold entries.
    rewrite !string_app_assoc. simpl. rewrite ?string_app_assoc. reflexivity. }
  assert (Hz : Stats.zigWriteStats (Some snapshot)
               = Some ("{" ++ Stats.dq ++ "policies" ++ Stats.dq ++ ":["
                       ++ Join (map StatsClaims.zigEntry zigEntries) "," ++ "]}")%string).
  { unfold Stats.zigWriteStats, Stats.zigCollect.
    rewrite (zigCollect_acc snapshot []), app_nil_l, zigEntries_Join. reflexivity. }
  assert (Hh : StatsHandler.statsHandler jsonString serverStats
               = (StatsDocument.document
                    (map (StatsDocument.serverEntry jsonString) serverEntries)
                  ++ StatsHandler.newline)%string).
  { rewrite document_text.
    rewrite (map_ext _ _ (fun h => eq_sym (marshalHit_serverEntry jsonString h))).
    unfold StatsHandler.statsHandler, StatsHandler.marshal. rewrite getStats_entries.
    fold serverEntries.
    rewrite !string_app_assoc. simpl. rewrite ?string_app_assoc. reflexivity. }
  split; [apply statsOutput_entries|].
  split; [exact Hs|]. split; [exact Hp|]. split; [exact Hw|].
  split; [intro He; rewrite Hw; subst entries reported; rewrite He; reflexivity|].
  split; [exact Hz|]. split; [exact Hzs|]. split; [exact Hzp|].
  split; [intro He; rewrite Hz; subst zigEntries zigReported; rewrite He; reflexivity|].
  split; [apply getStats_entries|]. split; [exact Hss|]. split; [exact Hsp|].
  split; [exact Hh|].
  intro He. rewrite Hh. subst serverEntries. rewrite He. reflexivity.
Qed.

Lemma C8_witness :
  Stats.writeStats StatsClaims.plainQuote StatsClaims.idleStats = StatsClaims.emptyStatsJSON
  /\ Stats.zigWriteStats (Some [("idle", Some 0%Z); ("unset", None)])
     = Some StatsClaims.emptyStatsJSON
  /\ StatsHandler.statsHandler StatsClaims.plainQuote []
     = (StatsClaims.emptyStatsJSON ++ StatsHandler.newline)%string.
Proof.
  pose proof (C8_stats_sorted_by_policy_id StatsClaims.plainQuote StatsClaims.idleStats
                [("idle", Some 0%Z); ("unset", None)] []) as H.
  cbv zeta in H.
  destruct H as (_ & _ & _ & _ & Hgo & _ & _ & _ & Hzig & _ & _ & _ & _ & Hsrv).
  split; [apply Hgo; reflexivity|].
  split; [apply Hzig; reflexivity | apply Hsrv; reflexivity].
Defined.

(** C8, the claim as stated fails for the server: the body of the stats
    response of an empty store is not the text [{"policies":[]}], a line
    feed follows it. *)
Lemma C8_counterexample_server_line_feed :
  StatsHandler.statsHandler StatsClaims.plainQuote [] <> StatsClaims.emptyStatsJSON
  /\ String.length (StatsHandler.statsHandler StatsClaims.plainQuote [])
     = S (String.length StatsClaims.emptyStatsJSON).
Proof. split; [discriminate | reflexivity]. Qed.

(** The stats of scenario 1 style input: the idle policy is left out, the
    others come out in byte-wise order of their ids. *)
Example stats_sample :
  map Stats.PolicyID
    (match Stats.Policies (Stats.statsOutput StatsClaims.sampleStats) with
     | Some l => l
     | None => []
     end)
  = ["drop-debug"; "keep-info"]
  /\ StatsClaims.emptyStatsJSON
     = string_of_list_ascii
         (map ascii_of_nat [123; 34; 112; 111; 108; 105; 99; 105; 101; 115; 34; 58; 91; 93; 125]).
Proof. split; reflexivity. Qed.

(** ** Pruning of empty containers (C10) *)

Section PruneFacts.
Import Process.

Variable Rec : Type.

Let ScopeRecords := Process.ScopeRecords Rec.
Let ResourceRecords := Process.ResourceRecords Rec.

Lemma keepIf_filter {A : Type} (keep : A -> bool) (s : list A) :
  keepIf keep s = filter keep s.
Proof. induction s as [|x r IH]; simpl; [reflexivity | now rewrite IH]. Qed.

Lemma length_pos_not_nil {A : Type} (l : list A) :
  Nat.ltb 0 (List.length l) = true <-> l <> [].
Proof. destruct l; simpl; split; try discriminate; try reflexivity; congruence. Qed.

Lemma pruned_noEmptyContainer (data : list ResourceRecords) :
  noEmptyContainer Rec (pruneResources Rec (pruneScopes Rec data)).
Proof.
  unfold noEmptyContainer, pruneResources, pruneScopes.
  rewrite keepIf_filter. apply Forall_forall. intros rl Hin.
  apply filter_In in Hin as [Hin Hne]. apply length_pos_not_nil in Hne.
  split; [exact Hne|].
  apply in_map_iff in Hin as (rl0 & <- & _). simpl.
  rewrite keepIf_filter. apply Forall_forall. intros sl Hsl.
  apply filter_In in Hsl as [_ Hsl]. now apply length_pos_not_nil.
Qed.

Lemma flat_map_filter_nonEmpty {A B : Type} (g : A -> list B) (l : list A) :
  flat_map g (filter (fun x => Nat.ltb 0 (List.length (g x))) l) = flat_map g l.
Proof.
  induction l as [|x r IH]; simpl; [reflexivity|].
  destruct (g x) eqn:E; simpl; [exact IH|]. now rewrite E, IH.
Qed.

Lemma pruneScopes_records (data : list ResourceRecords) :
  allRecords Rec (pruneScopes Rec data) = allRecords Rec data.
Proof.
  unfold allRecords, pruneScopes.
  induction data as [|rl r IH]; simpl; [reflexivity|].
  rewrite IH, keepIf_filter. f_equal.
  apply (flat_map_filter_nonEmpty (@Records Rec)).
Qed.

Lemma pruneResources_records (data : list ResourceRecords) :
  allRecords Rec (pruneResources Rec data) = allRecords Rec data.
Proof.
  unfold allRecords, pruneResources. rewrite keepIf_filter.
  induction data as [|rl r IH]; simpl; [reflexivity|].
  destruct (Scopes rl) eqn:E; simpl; [exact IH|]. now rewrite E, IH.
Qed.

Lemma In_keepIf {A : Type} (keep : A -> bool) (s : list A) (x : A) :
  In x (keepIf keep s) <-> In x s /\ keep x = true.
Proof. rewrite keepIf_filter. apply filter_In. Qed.

Lemma pruned_retains (data : list ResourceRecords) (rl : ResourceRecords)
  (sl : ScopeRecords) :
  In rl data -> In sl (Scopes rl) -> Records sl <> [] ->
  exists rl', In rl' (pruneResources Rec (pruneScopes Rec data))
              /\ Resource rl' = Resource rl
              /\ In sl (Scopes rl')
              /\ (forall sl', In sl' (Scopes rl') -> In sl' (Scopes rl)).
Proof.
  intros Hrl Hsl Hne.
  exists (mkResourceRecords (Resource rl)
            (keepIf (fun sl => Nat.ltb 0 (List.length (Records sl))) (Scopes rl))).
  assert (Hin : In sl (keepIf (fun sl => Nat.ltb 0 (List.length (Records sl))) (Scopes rl))).
  { apply In_keepIf. split; [exact Hsl|]. now apply length_pos_not_nil. }
  split; [|split; [reflexivity|split; [exact Hin|]]].
  - unfold pruneResources. apply In_keepIf. split.
    + unfold pruneScopes. apply in_map_iff. now exists rl.
    + simpl. apply length_pos_not_nil. intro E. rewrite E in Hin. contradiction.
  - simpl. intros sl' H. now apply In_keepIf in H.
Qed.

Lemma firstn_app_exact {A : Type} (l1 l2 : list A) :
  firstn (List.length l1) (l1 ++ l2) = l1.
Proof. induction l1 as [|x r IH]; simpl; [now destruct l2 | now rewrite IH]. Qed.

Lemma skipn_app_exact {A : Type} (l1 l2 : list A) :
  skipn (List.length l1) (l1 ++ l2) = l2.
Proof. induction l1 as [|x r IH]; simpl; [reflexivity | exact IH]. Qed.

Lemma skipn_nth {A : Type} (i : nat) :
  forall (items : list A) (x : A),
    nth_error items i = Some x -> skipn i items = x :: skipn (S i) items.
Proof.
  induction i as [|i IHi]; intros [|y r] x E; simpl in *; try discriminate.
  - now injection E as ->.
  - now apply IHi.
Qed.

Lemma firstn_nth {A : Type} (i : nat) :
  forall (items : list A) (x : A),
    nth_error items i = Some x -> firstn (S i) items = firstn i items ++ [x].
Proof.
  induction i as [|i IHi]; intros [|y r] x E; simpl in *; try discriminate.
  - now injection E as ->.
  - f_equal. now apply IHi.
Qed.

(** The removal loop of the Zig runner is the same filter. *)
Lemma removeLoop_filter {A : Type} (empty : A -> bool) (fuel : nat) :
  forall (i : nat) (items : list A),
    i <= List.length items ->
    List.length items - i <= fuel ->
    removeLoop empty fuel i items
    = firstn i items ++ filter (fun x => negb (empty x)) (skipn i items).
Proof.
  induction fuel as [|fuel IH]; intros i items Hi Hfuel.
  - cbn [removeLoop]. assert (i = List.length items) by lia. subst i.
    rewrite firstn_all, skipn_all. now rewrite app_nil_r.
  - cbn [removeLoop]. destruct (nth_error items i) as [x|] eqn:E.
    + assert (Hlt : i < List.length items) by (apply nth_error_Some; congruence).
      assert (Hlen : List.length (firstn i items) = i)
        by (rewrite length_firstn; lia).
      rewrite (skipn_nth i items x E). cbn [filter].
      destruct (empty x); cbn [negb].
      * set (tl := skipn (S i) items).
        assert (Htl : List.length tl = List.length items - S i)
          by (subst tl; apply length_skipn).
        rewrite IH by (rewrite length_app, Hlen, Htl; lia).
        rewrite <- Hlen at 1 3.
        now rewrite firstn_app_exact, skipn_app_exact.
      * rewrite IH by lia.
        rewrite (firstn_nth i items x E), <- app_assoc. reflexivity.
    + apply nth_error_None in E. assert (i = List.length items) by lia. subst i.
      rewrite firstn_all, skipn_all. now rewrite app_nil_r.
Qed.

Lemma eqb_zero_negb_pos (n : nat) : negb (Nat.eqb n 0) = Nat.ltb 0 n.
Proof. destruct n; reflexivity. Qed.

Lemma removeLoop_keepIf {A : Type} (len : A -> nat) (items : list A) :
  removeLoop (fun x => Nat.eqb (len x) 0) (List.length items) 0 items
  = keepIf (fun x => Nat.ltb 0 (len x)) items.
Proof.
  rewrite removeLoop_filter by lia. cbn [firstn skipn app].
  rewrite keepIf_filter. apply filter_ext. intro x. apply eqb_zero_negb_pos.
Qed.

Lemma RemoveIf_keepIf {A : Type} (len : A -> nat) (items : list A) :
  RemoveIf (fun x => Nat.eqb (len x) 0) items
  = keepIf (fun x => Nat.ltb 0 (len x)) items.
Proof.
  unfold RemoveIf. rewrite keepIf_filter. apply filter_ext. intro x.
  apply eqb_zero_negb_pos.
Qed.

Lemma zigPrune_same (data : list ResourceRecords) :
  zigPruneResources Rec (zigPruneScopes Rec data)
  = pruneResources Rec (pruneScopes Rec data).
Proof.
  assert (Hs : zigPruneScopes Rec data = pruneScopes Rec data).
  { unfold zigPruneScopes, pruneScopes. apply map_ext. intro rl. f_equal.
    apply (removeLoop_keepIf (fun sl => List.length (Records sl))). }
  rewrite Hs. unfold zigPruneResources, pruneResources.
  apply (removeLoop_keepIf (fun rl => List.length (Scopes rl))).
Qed.

Lemma pdataPrune_same (data : list ResourceRecords) :
  pdataPruneResources Rec (pdataPruneScopes Rec data)
  = pruneResources Rec (pruneScopes Rec data).
Proof.
  assert (Hs : pdataPruneScopes Rec data = pruneScopes Rec data).
  { unfold pdataPruneScopes, pruneScopes. apply map_ext. intro rl. f_equal.
    apply (RemoveIf_keepIf (fun sl => List.length (Records sl))). }
  rewrite Hs. unfold pdataPruneResources, pruneResources.
  apply (RemoveIf_keepIf (fun rl => List.length (Scopes rl))).
Qed.

End PruneFacts.

(** C10. For every batch, every signal (record type) and every engine, the
    data handed to the marshaler is the evaluated data with the empty scope
    containers and then the empty resource containers pruned: no resource
    container without scope containers and no scope container without
    records is left, every surviving record is still there in order, and
    every scope container with a surviving record is retained in a
    retained copy of its resource container. The pruning loops of the Zig
    runner and the [RemoveIf] calls of the pdata runner compute the same
    result. *)
Theorem C10_output_has_no_empty_container :
  forall (Rec Eng : Type) (evaluate : Process.Evaluation Rec Eng) (eng : Eng)
         (data : list (Process.ResourceRecords Rec)),
    let evaluated := fst (Process.evalResources Rec Eng evaluate eng data) in
    let out := fst (Process.process Rec Eng evaluate eng data) in
    out = Process.pruneResources Rec (Process.pruneScopes Rec evaluated)
    /\ Process.noEmptyContainer Rec out
    /\ Process.allRecords Rec out = Process.allRecords Rec evaluated
    /\ (forall rl sl,
          In rl evaluated -> In sl (Process.Scopes rl) -> Process.Records sl <> [] ->
          exists rl', In rl' out
                      /\ Process.Resource rl' = Process.Resource rl
                      /\ In sl (Process.Scopes rl')
                      /\ (forall sl', In sl' (Process.Scopes rl') ->
                                      In sl' (Process.Scopes rl)))
    /\ Process.zigPruneResources Rec (Process.zigPruneScopes Rec evaluated) = out
    /\ Process.pdataPruneResources Rec (Process.pdataPruneScopes Rec evaluated) = out.
Proof.
  intros Rec Eng evaluate eng data evaluated out.
  assert (Hout : out = Process.pruneResources Rec (Process.pruneScopes Rec evaluated)).
  { subst out evaluated. unfold Process.process.
    now destruct (Process.evalResources Rec Eng evaluate eng data). }
  split; [exact Hout|]. rewrite Hout.
  split; [apply pruned_noEmptyContainer|].
  split; [now rewrite pruneResources_records, pruneScopes_records|].
  split; [intros rl sl; apply pruned_retains|].
  split; [apply zigPrune_same | apply pdataPrune_same].
Qed.

Lemma C10_witness :
  Process.noEmptyContainer LogRecord.t
    (fst (Process.processLogs unit ProcessExamples.dropDebug tt ProcessExamples.batch))
  /\ exists rl',
       In rl' (fst (Process.processLogs unit ProcessExamples.dropDebug tt
                      ProcessExamples.batch))
       /\ In ProcessExamples.keptScope (Process.Scopes rl').
Proof.
  pose proof (C10_output_has_no_empty_container LogRecord.t unit
                (Process.evalLog unit ProcessExamples.dropDebug) tt ProcessExamples.batch)
    as H.
  cbv zeta in H. destruct H as (_ & Hne & _ & Hret & _).
  split; [exact Hne|].
  destruct (Hret (Process.mkResourceRecords None
                    [Process.mkScopeRecords None []; ProcessExamples.keptScope])
                 ProcessExamples.keptScope)
    as (rl' & Hin & _ & Hsl & _).
  - left. reflexivity.
  - right. left. reflexivity.
  - discriminate.
  - exists rl'. split; [exact Hin | exact Hsl].
Defined.

(** The example batch: one resource container with one scope container
    with the INFO record is left. *)
Example process_example :
  fst (Process.processLogs unit ProcessExamples.dropDebug tt ProcessExamples.batch)
  = [Process.mkResourceRecords None [ProcessExamples.keptScope]].
Proof. reflexivity. Qed.

(** ** Double negation on existence checks (C7) *)

(** C7. The claim: a matcher with exists: false and negate: true evaluates
    to true exactly when the field is present. On the record with the
    attribute [a = "x"] the accessor of the Go runner reports the field as
    present, so the matcher has to evaluate to true; the behaviour recorded
    for the Go engine (ENG-229, negate ignored on existence checks)
    evaluates it to false. *)
Theorem C7_double_negation_go_divergence :
  ExistsMatcher.presentInGoRunner Claims.sampleContext (Claims.attrRef "a") = true
  /\ (forall present, ExistsMatcher.evalExists false true present = present)
  /\ ExistsMatcher.evalExists false true
       (ExistsMatcher.presentInGoRunner Claims.sampleContext (Claims.attrRef "a")) = true
  /\ ExistsMatcher.evalExistsGoENG229 false true
       (ExistsMatcher.presentInGoRunner Claims.sampleContext (Claims.attrRef "a")) = false.
Proof.
  split; [reflexivity|]. split; [intros []; reflexivity|]. split; reflexivity.
Qed.

(** ** The string read of the field accessors (C1) *)

Lemma list_byte_of_string_nil (s : string) :
  list_byte_of_string s = [] -> s = "".
Proof.
  intro H. rewrite <- (string_of_list_byte_of_string s), H. reflexivity.
Qed.

Lemma to_bytes_not_empty (s : string) :
  (s =? "") = false -> to_bytes s <> Some [].
Proof.
  intros Hs H. unfold to_bytes in H. injection H as H.
  apply list_byte_of_string_nil in H. subst s. discriminate.
Qed.

Lemma nonEmpty_dec (s : string) (r : option bytes) :
  (if s =? "" then None else to_bytes s) = r -> r <> Some [].
Proof.
  destruct (s =? "") eqn:E; intros <-; [discriminate | now apply to_bytes_not_empty].
Qed.

Lemma anyValueBytes_not_empty (v : option AnyValue) :
  Proto.anyValueBytes v <> Some [].
Proof.
  destruct v as [[[inner|]]|]; simpl; try discriminate.
  destruct inner; try discriminate.
  now apply (nonEmpty_dec StringValue).
Qed.

Lemma anyValueBytes_some (v : option AnyValue) (b : bytes) :
  Proto.anyValueBytes v = Some b <->
  exists s, v = stringAnyValue s /\ s <> "" /\ b = list_byte_of_string s.
Proof.
  split.
  - destruct v as [[[inner|]]|]; simpl; try discriminate.
    destruct inner; try discriminate.
    destruct (StringValue =? "") eqn:E; [discriminate|].
    intro H. injection H as <-. exists StringValue. repeat split.
    now apply String.eqb_neq.
  - intros (s & -> & Hs & ->). simpl.
    apply String.eqb_neq in Hs. now rewrite Hs.
Qed.

Lemma nonEmptyBytes_not_empty (b : option bytes) :
  Proto.nonEmptyBytes b <> Some [].
Proof.
  unfold Proto.nonEmptyBytes. destruct b as [[|x l]|]; simpl; discriminate.
Qed.

Lemma nonEmptyString_not_empty (s : string) :
  Proto.nonEmptyString s <> Some [].
Proof. now apply (nonEmpty_dec s). Qed.

Lemma findAttributePath_resolve (path : list string) :
  forall attrs,
    Proto.findAttributePath attrs path =
    match Claims.resolvePath attrs path with
    | Some v => Proto.anyValueBytes v
    | None => None
    end.
Proof.
  induction path as [|p0 rest IH]; intros attrs; [reflexivity|].
  induction attrs as [|kv tl IHtl]; [reflexivity|].
  simpl in *.
  destruct (kvKey kv =? p0) eqn:E; simpl.
  - destruct rest as [|k rest']; [reflexivity|].
    simpl.
    destruct (kvValue kv) as [[[inner|]]|]; try reflexivity.
    destruct inner; try reflexivity.
    destruct KvlistValue as [kvl|]; [apply IH | reflexivity].
  - apply IHtl.
Qed.

Lemma findAttributePath_not_empty (attrs : list KeyValue) (path : list string) :
  Proto.findAttributePath attrs path <> Some [].
Proof.
  rewrite findAttributePath_resolve.
  destruct (Claims.resolvePath attrs path); [apply anyValueBytes_not_empty | discriminate].
Qed.

Lemma scopeName_not_empty (s : option InstrumentationScope.t) :
  Proto.scopeName s <> Some [].
Proof. destruct s; simpl; [apply nonEmptyString_not_empty | discriminate]. Qed.

Lemma scopeVersion_not_empty (s : option InstrumentationScope.t) :
  Proto.scopeVersion s <> Some [].
Proof. destruct s; simpl; [apply nonEmptyString_not_empty | discriminate]. Qed.

Lemma firstEventName_not_empty (evts : list Span.Event) :
  Proto.firstEventName evts <> Some [].
Proof.
  induction evts as [|e r IH]; simpl; [discriminate|].
  destruct (Span.EvName e =? "") eqn:E; simpl; [exact IH|].
  now apply to_bytes_not_empty.
Qed.

Create HintDb nonempty.
#[local] Hint Resolve anyValueBytes_not_empty nonEmptyBytes_not_empty
  nonEmptyString_not_empty findAttributePath_not_empty scopeName_not_empty
  scopeVersion_not_empty firstEventName_not_empty : nonempty.

Lemma OTelLogMatcher_not_empty (ctx : Proto.LogContext) (ref : LogFieldRef) :
  Proto.OTelLogMatcher ctx ref <> Some [].
Proof.
  unfold Proto.OTelLogMatcher.
  destruct (IsField ref); [destruct (Field ref); auto with nonempty; discriminate|].
  destruct (IsRecordAttr ref); [auto with nonempty|].
  destruct (IsResourceAttr ref); [auto with nonempty|].
  destruct (IsScopeAttr ref); [auto with nonempty | discriminate].
Qed.

Lemma OTelMetricMatcher_not_empty (ctx : Proto.MetricContext) (ref : MetricFieldRef) :
  Claims.metricEnumTag ref = false ->
  Proto.OTelMetricMatcher ctx ref <> Some [].
Proof.
  unfold Proto.OTelMetricMatcher, Claims.metricEnumTag. intro Htag.
  destruct (IsField ref); simpl in Htag;
    [destruct (Field ref); auto with nonempty; discriminate|].
  destruct (IsRecordAttr ref); [auto with nonempty|].
  destruct (IsResourceAttr ref); [auto with nonempty|].
  destruct (IsScopeAttr ref); [auto with nonempty | discriminate].
Qed.

Lemma OTelTraceMatcher_not_empty (ctx : Proto.TraceContext) (ref : TraceFieldRef) :
  Claims.traceEnumTag ref = false ->
  Proto.OTelTraceMatcher ctx ref <> Some [].
Proof.
  unfold Proto.OTelTraceMatcher, Claims.traceEnumTag. intro Htag.
  destruct (IsField ref); simpl in Htag;
    [destruct (Field ref); auto with nonempty; discriminate|].
  destruct (IsRecordAttr ref); [auto with nonempty|].
  destruct (IsResourceAttr ref); [auto with nonempty|].
  destruct (IsScopeAttr ref); [auto with nonempty | discriminate].
Qed.

(** The pdata runner. *)

Lemma valueBytes_not_empty (v : Pdata.Value) : Pdata.valueBytes v <> Some [].
Proof. destruct v; simpl; try discriminate. now apply (nonEmpty_dec s). Qed.

Lemma pdata_findAttributePath_not_empty (path : list string) :
  forall attrs, Pdata.findAttributePath attrs path <> Some [].
Proof.
  induction path as [|p0 rest IH]; intros attrs; simpl; [discriminate|].
  destruct (Pdata.Get attrs p0) as [v|]; [|discriminate].
  destruct rest as [|k rest']; [apply valueBytes_not_empty|].
  destruct v; try discriminate. apply IH.
Qed.

Lemma hexID_not_empty (id : bytes) : Pdata.hexID id <> Some [].
Proof.
  unfold Pdata.hexID. destruct id as [|x r]; [discriminate|].
  destruct (Pdata.IsEmpty (x :: r)); [discriminate|].
  now apply to_bytes_not_empty.
Qed.

Lemma pdata_OTelLogMatcher_not_empty (ctx : Pdata.LogContext) (ref : LogFieldRef) :
  Pdata.OTelLogMatcher ctx ref <> Some [].
Proof.
  unfold Pdata.OTelLogMatcher.
  pose proof valueBytes_not_empty. pose proof hexID_not_empty.
  pose proof pdata_findAttributePath_not_empty.
  assert (forall s, Pdata.nonEmptyString s <> Some [])
    by (intro s; now apply (nonEmpty_dec s)).
  destruct (IsField ref); [destruct (Field ref); auto; discriminate|].
  destruct (IsRecordAttr ref); [auto|].
  destruct (IsResourceAttr ref); [auto|].
  destruct (IsScopeAttr ref); [auto | discriminate].
Qed.

(** The Zig runner: an optional slice is never the empty slice. *)

Lemma zig_nonEmpty_not_empty (s : string) : Zig.nonEmpty s <> Some "".
Proof. destruct s; simpl; discriminate. Qed.

Lemma anyValueString_not_empty (v : option AnyValue) : Zig.anyValueString v <> Some "".
Proof.
  destruct v as [[[inner|]]|]; simpl; try discriminate.
  destruct inner; try discriminate. destruct StringValue; simpl; discriminate.
Qed.

Lemma zig_findAttributePath_not_empty (path : list string) :
  forall attrs, Zig.findAttributePath attrs path <> Some "".
Proof.
  induction path as [|p0 rest IH]; intros attrs; [discriminate|].
  induction attrs as [|kv tl IHtl]; [discriminate|].
  simpl in *. destruct (kvKey kv =? p0); simpl; [|exact IHtl].
  destruct rest as [|k rest']; [apply anyValueString_not_empty|]. simpl.
  destruct (kvValue kv) as [[[inner|]]|]; try discriminate.
  destruct inner; try discriminate.
  destruct KvlistValue; [apply IH | discriminate].
Qed.

Lemma logFieldAccessor_not_empty (lc : Zig.LogContext) (field : Zig.FieldRef) :
  Zig.logFieldAccessor lc field <> Some "".
Proof.
  destruct field as [lf|path|path|path]; simpl;
    try apply zig_findAttributePath_not_empty.
  destruct lf; try discriminate; try apply zig_nonEmpty_not_empty.
  - apply (anyValueString_not_empty (LogRecord.Body (Zig.record lc))).
  - unfold Zig.nonEmptyId. destruct (LogRecord.TraceId _);
      [apply zig_nonEmpty_not_empty | discriminate].
  - unfold Zig.nonEmptyId. destruct (LogRecord.SpanId _);
      [apply zig_nonEmpty_not_empty | discriminate].
Qed.

(** Apart from the enum tag fields (metric type, aggregation temporality,
    span kind, span status), no string read returns the empty byte string:
    the read of an attribute value is Some exactly for a non-empty string
    value, a path that does not resolve reads None, and the log, metric and
    trace accessors of the protobuf runner, the log accessor of the pdata
    runner and the log accessor of the Zig runner never return it. *)
Lemma string_read_none_or_nonempty :
  forall (lctx : Proto.LogContext) (lref : LogFieldRef)
         (mctx : Proto.MetricContext) (mref : MetricFieldRef)
         (tctx : Proto.TraceContext) (tref : TraceFieldRef)
         (pctx : Pdata.LogContext) (zctx : Zig.LogContext) (zref : Zig.FieldRef)
         (attrs : list KeyValue) (path : list string)
         (v : option AnyValue) (pv : Pdata.Value) (b : bytes),
    Claims.metricEnumTag mref = false ->
    Claims.traceEnumTag tref = false ->
    (Proto.anyValueBytes v = Some b <->
     exists s, v = stringAnyValue s /\ s <> "" /\ b = list_byte_of_string s)
    /\ Pdata.valueBytes pv <> Some []
    /\ Zig.anyValueString v <> Some ""
    /\ (Claims.resolvePath attrs path = None -> Proto.findAttributePath attrs path = None)
    /\ Proto.findAttributePath attrs path <> Some []
    /\ Proto.OTelLogMatcher lctx lref <> Some []
    /\ Proto.OTelMetricMatcher mctx mref <> Some []
    /\ Proto.OTelTraceMatcher tctx tref <> Some []
    /\ Pdata.OTelLogMatcher pctx lref <> Some []
    /\ Zig.logFieldAccessor zctx zref <> Some "".
Proof.
  intros lctx lref mctx mref tctx tref pctx zctx zref attrs path v pv b Hm Ht.
  split; [apply anyValueBytes_some|].
  split; [apply valueBytes_not_empty|].
  split; [apply anyValueString_not_empty|].
  split; [intro H; rewrite findAttributePath_resolve, H; reflexivity|].
  split; [apply findAttributePath_not_empty|].
  split; [apply OTelLogMatcher_not_empty|].
  split; [now apply OTelMetricMatcher_not_empty|].
  split; [now apply OTelTraceMatcher_not_empty|].
  split; [apply pdata_OTelLogMatcher_not_empty | apply logFieldAccessor_not_empty].
Qed.

(** C1. The enum tag branches of the metric and the trace matcher of the
    protobuf runner lack the guard against the empty text that every
    other branch has.  On a gauge metric, which has no aggregation
    temporality, the read of the aggregation temporality field is the
    empty byte string and not nil; so is the read of the metric type of a
    metric without data and of the kind of a span whose kind is
    unspecified.  On the same gauge metric the guarded branch of the
    description, which is empty as well, reads nil. *)
Theorem C1_enum_tag_read_is_empty_not_nil :
  Proto.aggregationTemporality Claims.gaugeMetric = ""
  /\ Proto.OTelMetricMatcher Claims.gaugeContext Claims.temporalityRef = Some []
  /\ Proto.OTelMetricMatcher Claims.gaugeContext Claims.descriptionRef = None
  /\ Proto.OTelMetricMatcher Claims.untypedContext Claims.metricTypeRef = Some []
  /\ Proto.OTelTraceMatcher Claims.unspecifiedKindContext Claims.spanKindRef = Some [].
Proof. repeat split. Qed.

(** ** The log transformer: rename (C4, C9) *)

Section RenameFacts.
Import Proto ProtoTransform TransformClaims.

Lemma findAttributeIndexFrom_spec (attrs : list KeyValue) (key : string) :
  forall i,
    match Claims.lookup attrs key with
    | Some _ =>
        (i <= findAttributeIndexFrom i attrs key < i + Z.of_nat (List.length attrs))%Z
    | None => findAttributeIndexFrom i attrs key = (-1)%Z
    end.
Proof.
  induction attrs as [|kv rest IH]; intro i; simpl; [reflexivity|].
  destruct (kvKey kv =? key); [lia|].
  specialize (IH (i + 1)%Z). destruct (Claims.lookup rest key); lia.
Qed.

Lemma findAttributeIndex_found (attrs : list KeyValue) (key : string) :
  (0 <=? findAttributeIndex attrs key)%Z = isSome (Claims.lookup attrs key).
Proof.
  unfold findAttributeIndex. pose proof (findAttributeIndexFrom_spec attrs key 0) as H.
  destruct (Claims.lookup attrs key); simpl.
  - apply Z.leb_le. lia.
  - rewrite H. reflexivity.
Qed.

Lemma findAttributeIndex_neg (attrs : list KeyValue) (key : string) :
  (findAttributeIndex attrs key <? 0)%Z = negb (isSome (Claims.lookup attrs key)).
Proof.
  rewrite <- findAttributeIndex_found.
  destruct (0 <=? findAttributeIndex attrs key)%Z eqn:E; simpl.
  - apply Z.ltb_ge. now apply Z.leb_le.
  - apply Z.ltb_lt. apply Z.leb_gt in E. exact E.
Qed.

Lemma otelLogRename_blocked (ctx : LogContext) (ref : LogFieldRef) (to : string)
  (p : AttrsPtr) :
  IsField ref = false ->
  otelLogAttrs ctx ref = Some p ->
  isSome (Claims.lookup (deref ctx p) (attrPath ref)) = true ->
  isSome (Claims.lookup (deref ctx p) to) = true ->
  otelLogRename ctx ref to false = Some (negb (attrPath ref =? ""), ctx).
Proof.
  intros Hf Hp Hsrc Hto. unfold otelLogRename. rewrite Hf, Hp.
  destruct (attrPath ref =? ""); [reflexivity|]. simpl.
  rewrite findAttributeIndex_neg, Hsrc. simpl.
  rewrite findAttributeIndex_found, Hto. reflexivity.
Qed.

Lemma pdata_rename_blocked (ctx : Pdata.LogContext) (ref : LogFieldRef) (to : string) :
  IsField ref = false ->
  Pdata.isSome (Pdata.Get (Pdata.deref ctx (Pdata.otelLogAttrs ref)) (Pdata.attrPath ref)) = true ->
  Pdata.isSome (Pdata.Get (Pdata.deref ctx (Pdata.otelLogAttrs ref)) to) = true ->
  Pdata.otelLogRename ctx ref to false = (negb (Pdata.attrPath ref =? ""), ctx).
Proof.
  intros Hf Hsrc Hto. unfold Pdata.otelLogRename. rewrite Hf.
  destruct (Pdata.attrPath ref =? ""); [reflexivity|].
  destruct (Pdata.Get _ (Pdata.attrPath ref)); [|discriminate].
  simpl. rewrite Hto. reflexivity.
Qed.

Lemma zig_rename_blocked (lc : Zig.LogContext) (from : Zig.FieldRef) (to k : string)
  (p : Zig.AttrsPtr) :
  Zig.renameTarget lc from = Some (p, Some k) ->
  Zig.findAttrIndex (Zig.items lc p) k <> None ->
  Zig.findAttrIndex (Zig.items lc p) to <> None ->
  Zig.mutRename lc from to false = (true, lc).
Proof.
  intros Ht Hsrc Hto. unfold Zig.mutRename. rewrite Ht.
  destruct (Zig.findAttrIndex (Zig.items lc p) k); [|contradiction].
  destruct (Zig.findAttrIndex (Zig.items lc p) to); [reflexivity | contradiction].
Qed.

End RenameFacts.

(** C4. When the attributes hold both the source key and the target key, a
    rename with upsert = false returns the context unchanged (no entry is
    added, removed or reordered, keys and values stay), in the protobuf
    runner, the pdata runner and the Zig runner. *)
Theorem C4_rename_no_upsert_target_present_unchanged :
  forall (ctx : Proto.LogContext) (pctx : Pdata.LogContext) (lc : Zig.LogContext)
         (ref : LogFieldRef) (from : Zig.FieldRef) (k to : string)
         (p : ProtoTransform.AttrsPtr) (zp : Zig.AttrsPtr),
    IsField ref = false ->
    ProtoTransform.otelLogAttrs ctx ref = Some p ->
    TransformClaims.isSome (Claims.lookup (ProtoTransform.deref ctx p) (Proto.attrPath ref)) = true ->
    TransformClaims.isSome (Claims.lookup (ProtoTransform.deref ctx p) to) = true ->
    Pdata.isSome (Pdata.Get (Pdata.deref pctx (Pdata.otelLogAttrs ref)) (Pdata.attrPath ref)) = true ->
    Pdata.isSome (Pdata.Get (Pdata.deref pctx (Pdata.otelLogAttrs ref)) to) = true ->
    Zig.renameTarget lc from = Some (zp, Some k) ->
    Zig.findAttrIndex (Zig.items lc zp) k <> None ->
    Zig.findAttrIndex (Zig.items lc zp) to <> None ->
    ProtoTransform.otelLogRename ctx ref to false
      = Some (negb (Proto.attrPath ref =? ""), ctx)
    /\ ProtoTransform.OTelLogTransformer ctx (TransformClaims.renameOp ref to false)
      = Some (negb (Proto.attrPath ref =? ""), ctx)
    /\ snd (Pdata.otelLogRename pctx ref to false) = pctx
    /\ Zig.mutRename lc from to false = (true, lc).
Proof.
  intros ctx pctx lc ref from k to p zp Hf Hp Hs Ht Hps Hpt Hz Hzs Hzt.
  pose proof (otelLogRename_blocked ctx ref to p Hf Hp Hs Ht) as H.
  split; [exact H|]. split; [exact H|].
  split; [now rewrite pdata_rename_blocked | now apply (zig_rename_blocked lc from to k zp)].
Qed.

Lemma C4_witness :
  ProtoTransform.otelLogRename Claims.sampleContext (Claims.attrRef "a") "b" false
    = Some (true, Claims.sampleContext)
  /\ Zig.mutRename Claims.sampleZigContext (Zig.log_attribute ["a"]) "b" false
    = (true, Claims.sampleZigContext).
Proof.
  pose proof (C4_rename_no_upsert_target_present_unchanged
                Claims.sampleContext Claims.samplePdataContext Claims.sampleZigContext
                (Claims.attrRef "a") (Zig.log_attribute ["a"]) "a" "b"
                ProtoTransform.RecordAttrs Zig.RecordAttrs
                eq_refl eq_refl eq_refl eq_refl eq_refl eq_refl eq_refl) as H.
  assert (Hs : Zig.findAttrIndex (Zig.items Claims.sampleZigContext Zig.RecordAttrs) "a" <> None)
    by (vm_compute; discriminate).
  assert (Ht : Zig.findAttrIndex (Zig.items Claims.sampleZigContext Zig.RecordAttrs) "b" <> None)
    by (vm_compute; discriminate).
  destruct (H Hs Ht) as (H1 & _ & _ & H4). split; [exact H1 | exact H4].
Defined.

(** ** The hit flags of the log transformer (C3, C9) *)

Section TransformFacts.
Import Proto ProtoTransform TransformClaims.

Lemma assign_fixedFields (ctx : LogContext) (p : AttrsPtr) (l : list KeyValue) :
  fixedFields (assign ctx p l) = fixedFields ctx.
Proof.
  destruct p; simpl; [reflexivity| |].
  - destruct (Resource_ ctx); reflexivity.
  - destruct (Scope_ ctx); reflexivity.
Qed.

Lemma setAttribute_fixedFields (ctx : LogContext) (a : option AttrsPtr)
  (key value : string) (upsert : bool) :
  fixedFields (snd (setAttribute ctx a key value upsert)) = fixedFields ctx.
Proof.
  unfold setAttribute. destruct a as [p|]; [|reflexivity].
  destruct (key =? ""); [reflexivity|].
  destruct (0 <=? _)%Z; [destruct (negb upsert)|]; simpl;
    try reflexivity; apply assign_fixedFields.
Qed.

Lemma otelLogRename_fixedFields (ctx ctx' : LogContext) (ref : LogFieldRef)
  (to : string) (upsert hit : bool) :
  otelLogRename ctx ref to upsert = Some (hit, ctx') ->
  fixedFields ctx' = fixedFields ctx.
Proof.
  unfold otelLogRename.
  destruct (IsField ref); [intro H; injection H as _ <-; reflexivity|].
  destruct (attrPath ref =? ""); [intro H; injection H as _ <-; reflexivity|].
  destruct (otelLogAttrs ctx ref) as [p|]; [|discriminate].
  destruct (_ <? 0)%Z; [intro H; injection H as _ <-; reflexivity|].
  destruct (negb upsert && _)%bool; [intro H; injection H as _ <-; reflexivity|].
  cbv zeta.
  match goal with
  | |- Some (_, ?X) = _ -> _ =>
      intro H; assert (E : ctx' = X) by congruence; rewrite E; clear H E
  end.
  destruct (anyValueBytes _); rewrite setAttribute_fixedFields; apply assign_fixedFields.
Qed.

Lemma otelLogRemove_hit (ctx : LogContext) (ref : LogFieldRef) :
  mutableTarget ref = true -> fst (otelLogRemove ctx ref) = present ctx ref.
Proof.
  unfold mutableTarget, otelLogRemove, present. intro Hm.
  destruct (IsField ref).
  - destruct (Field ref); try discriminate; reflexivity.
  - apply andb_prop in Hm as [_ Hk]. apply negb_true_iff in Hk.
    unfold removeAttribute. destruct (otelLogAttrs ctx ref) as [p|]; [|reflexivity].
    rewrite Hk, findAttributeIndex_neg.
    destruct (isSome _); reflexivity.
Qed.

Lemma otelLogRedact_hit (ctx : LogContext) (ref : LogFieldRef) (replacement : string) :
  mutableTarget ref = true -> fst (otelLogRedact ctx ref replacement) = present ctx ref.
Proof.
  unfold mutableTarget, otelLogRedact, present. intro Hm.
  destruct (IsField ref).
  - destruct (Field ref); try discriminate; reflexivity.
  - apply andb_prop in Hm as [_ Hk]. apply negb_true_iff in Hk.
    destruct (otelLogAttrs ctx ref) as [p|]; [|reflexivity].
    rewrite Hk, findAttributeIndex_neg.
    destruct (isSome _); reflexivity.
Qed.

Lemma otelLogRename_hit (ctx : LogContext) (ref : LogFieldRef) (to : string)
  (upsert : bool) (p : AttrsPtr) :
  mutableTarget ref = true -> IsField ref = false -> otelLogAttrs ctx ref = Some p ->
  exists ctx', otelLogRename ctx ref to upsert = Some (present ctx ref, ctx').
Proof.
  unfold mutableTarget, otelLogRename, present. intros Hm Hf Hp. rewrite Hf in *.
  apply andb_prop in Hm as [_ Hk]. apply negb_true_iff in Hk.
  rewrite Hk, Hp, findAttributeIndex_neg.
  destruct (isSome _); simpl; [|eauto].
  destruct (negb upsert && _)%bool; eauto.
Qed.

Lemma otelLogAdd_hit (ctx : LogContext) (ref : LogFieldRef) (value : string)
  (upsert : bool) :
  mutableTarget ref = true ->
  fst (otelLogAdd ctx ref value upsert) = (IsField ref || isSome (otelLogAttrs ctx ref))%bool.
Proof.
  unfold mutableTarget, otelLogAdd. intro Hm.
  destruct (IsField ref).
  - destruct (Field ref); try discriminate; simpl;
      match goal with |- fst (if ?c then _ else _) = _ => destruct c end; reflexivity.
  - apply andb_prop in Hm as [_ Hk]. apply negb_true_iff in Hk.
    unfold setAttribute. destruct (otelLogAttrs ctx ref) as [p|]; [|reflexivity].
    rewrite Hk. destruct (0 <=? _)%Z; [destruct (negb upsert)|]; reflexivity.
Qed.

End TransformFacts.

(** C9. A rename whose field reference is a fixed field returns false and
    leaves the record, resource and scope as they are, in the protobuf
    runner, the pdata runner and the Zig runner; and whatever the reference
    is, a rename never changes a fixed field of the record: it only acts on
    the entries of an attribute list. *)
Theorem C9_rename_fixed_field_is_noop :
  forall (ctx : Proto.LogContext) (pctx : Pdata.LogContext) (lc : Zig.LogContext)
         (ref : LogFieldRef) (lf : LogField) (to : string) (upsert : bool),
    IsField ref = true ->
    ProtoTransform.otelLogRename ctx ref to upsert = Some (false, ctx)
    /\ ProtoTransform.OTelLogTransformer ctx (TransformClaims.renameOp ref to upsert)
       = Some (false, ctx)
    /\ Pdata.otelLogRename pctx ref to upsert = (false, pctx)
    /\ Pdata.OTelLogTransformer pctx (TransformClaims.renameOp ref to upsert) = (false, pctx)
    /\ Zig.mutRename lc (Zig.log_field lf) to upsert = (false, lc)
    /\ (forall (anyRef : LogFieldRef) (hit : bool) (ctx' : Proto.LogContext),
          ProtoTransform.otelLogRename ctx anyRef to upsert = Some (hit, ctx') ->
          TransformClaims.fixedFields ctx' = TransformClaims.fixedFields ctx).
Proof.
  intros ctx pctx lc ref lf to upsert Hf.
  unfold ProtoTransform.OTelLogTransformer, Pdata.OTelLogTransformer,
    ProtoTransform.otelLogRename, Pdata.otelLogRename. simpl. rewrite Hf.
  repeat split. intros anyRef hit ctx' H.
  now apply (otelLogRename_fixedFields ctx ctx' anyRef to upsert hit).
Qed.

Lemma C9_witness :
  ProtoTransform.otelLogRename TransformClaims.fullContext
    (Claims.fieldRef LogFieldSeverityText) "level" true
  = Some (false, TransformClaims.fullContext).
Proof.
  exact (proj1 (C9_rename_fixed_field_is_noop TransformClaims.fullContext
                  Claims.samplePdataContext Claims.sampleZigContext
                  (Claims.fieldRef LogFieldSeverityText) LogFieldSeverityText
                  "level" true eq_refl)).
Defined.

(** C3, the claim as stated fails for add: adding the attribute [new],
    which the record does not have, returns true. *)
Lemma C3_counterexample_add_absent :
  TransformClaims.present Claims.sampleContext (Claims.attrRef "new") = false /\
  fst (ProtoTransform.otelLogAdd Claims.sampleContext (Claims.attrRef "new") "v" false) = true /\
  fst (ProtoTransform.setAttribute Claims.sampleContext (Some ProtoTransform.RecordAttrs)
         "new" "v" false) = true /\
  fst (Zig.setAttr Claims.sampleZigContext Zig.RecordAttrs (Some "new") "v") = true.
Proof. repeat split. Qed.

(** ** Replacement of trace and span IDs (C5) *)

Lemma traceIDFromString_decoded (s : string) (b : bytes) :
  Pdata.DecodeString s = Some b -> List.length b = 16 -> Pdata.traceIDFromString s = b.
Proof.
  intros Hd Hl. unfold Pdata.traceIDFromString. rewrite Hd, Hl. reflexivity.
Qed.

Lemma traceIDFromString_rejected (s : string) :
  (forall b, Pdata.DecodeString s = Some b -> List.length b <> 16) ->
  Pdata.traceIDFromString s = Pdata.NewTraceIDEmpty.
Proof.
  intro H. unfold Pdata.traceIDFromString.
  destruct (Pdata.DecodeString s) as [b|] eqn:E; [|reflexivity].
  destruct (Nat.eqb (List.length b) 16) eqn:El; [|reflexivity].
  apply Nat.eqb_eq in El. now elim (H b eq_refl).
Qed.

Lemma spanIDFromString_decoded (s : string) (b : bytes) :
  Pdata.DecodeString s = Some b -> List.length b = 8 -> Pdata.spanIDFromString s = b.
Proof.
  intros Hd Hl. unfold Pdata.spanIDFromString. rewrite Hd, Hl. reflexivity.
Qed.

Lemma spanIDFromString_rejected (s : string) :
  (forall b, Pdata.DecodeString s = Some b -> List.length b <> 8) ->
  Pdata.spanIDFromString s = Pdata.NewSpanIDEmpty.
Proof.
  intro H. unfold Pdata.spanIDFromString.
  destruct (Pdata.DecodeString s) as [b|] eqn:E; [|reflexivity].
  destruct (Nat.eqb (List.length b) 8) eqn:El; [|reflexivity].
  apply Nat.eqb_eq in El. now elim (H b eq_refl).
Qed.

(** C5 (as amended). In the protobuf runner and in the Zig runner a redact
    of trace_id or span_id, and an add that writes (upsert, or the ID was
    empty; the Zig set always writes), store the bytes of the replacement
    string as they are. In the pdata runner the ID written is the result of
    [traceIDFromString] / [spanIDFromString]: the hexadecimal decoding of the
    replacement when it decodes to exactly 16 (8) bytes, the empty (all
    zero) ID otherwise. *)
Theorem C5_id_replacement_bytes :
  forall (ctx : Proto.LogContext) (pctx : Pdata.LogContext) (lc : Zig.LogContext)
         (tref sref : LogFieldRef) (replacement : string) (upsert : bool),
    IsField tref = true -> Field tref = LogFieldTraceID ->
    IsField sref = true -> Field sref = LogFieldSpanID ->
    (* protobuf runner *)
    LogRecord.TraceId (Proto.Record_ (snd (ProtoTransform.otelLogRedact ctx tref replacement)))
      = Some (list_byte_of_string replacement)
    /\ LogRecord.SpanId (Proto.Record_ (snd (ProtoTransform.otelLogRedact ctx sref replacement)))
      = Some (list_byte_of_string replacement)
    /\ LogRecord.TraceId (Proto.Record_ (snd (ProtoTransform.otelLogAdd ctx tref replacement upsert)))
      = (if (negb upsert && Nat.ltb 0 (len (LogRecord.TraceId (Proto.Record_ ctx))))%bool
         then LogRecord.TraceId (Proto.Record_ ctx)
         else Some (list_byte_of_string replacement))
    /\ LogRecord.SpanId (Proto.Record_ (snd (ProtoTransform.otelLogAdd ctx sref replacement upsert)))
      = (if (negb upsert && Nat.ltb 0 (len (LogRecord.SpanId (Proto.Record_ ctx))))%bool
         then LogRecord.SpanId (Proto.Record_ ctx)
         else Some (list_byte_of_string replacement))
    (* Zig runner *)
    /\ LogRecord.TraceId
         (Zig.record (snd (Zig.mutSet lc (Zig.log_field LogFieldTraceID) replacement upsert)))
      = Some (list_byte_of_string replacement)
    /\ LogRecord.SpanId
         (Zig.record (snd (Zig.mutSet lc (Zig.log_field LogFieldSpanID) replacement upsert)))
      = Some (list_byte_of_string replacement)
    (* pdata runner *)
    /\ Pdata.TraceID (Pdata.Record_ (snd (Pdata.otelLogRedact pctx tref replacement)))
      = Pdata.traceIDFromString replacement
    /\ Pdata.SpanID (Pdata.Record_ (snd (Pdata.otelLogRedact pctx sref replacement)))
      = Pdata.spanIDFromString replacement
    /\ Pdata.TraceID (Pdata.Record_ (snd (Pdata.otelLogAdd pctx tref replacement upsert)))
      = (if (negb upsert && negb (Pdata.IsEmpty (Pdata.TraceID (Pdata.Record_ pctx))))%bool
         then Pdata.TraceID (Pdata.Record_ pctx)
         else Pdata.traceIDFromString replacement)
    /\ (forall b, Pdata.DecodeString replacement = Some b -> List.length b = 16 ->
        Pdata.traceIDFromString replacement = b)
    /\ ((forall b, Pdata.DecodeString replacement = Some b -> List.length b <> 16) ->
        Pdata.traceIDFromString replacement = Pdata.NewTraceIDEmpty)
    /\ (forall b, Pdata.DecodeString replacement = Some b -> List.length b = 8 ->
        Pdata.spanIDFromString replacement = b)
    /\ ((forall b, Pdata.DecodeString replacement = Some b -> List.length b <> 8) ->
        Pdata.spanIDFromString replacement = Pdata.NewSpanIDEmpty).
Proof.
  intros ctx pctx lc tref sref replacement upsert Ht Hft Hs Hfs.
  unfold ProtoTransform.otelLogRedact, ProtoTransform.otelLogAdd,
    Pdata.otelLogRedact, Pdata.otelLogAdd.
  rewrite Ht, Hft, Hs, Hfs.
  split; [reflexivity|]. split; [reflexivity|].
  split; [destruct (negb upsert && _)%bool; reflexivity|].
  split; [destruct (negb upsert && _)%bool; reflexivity|].
  split; [reflexivity|]. split; [reflexivity|].
  split; [reflexivity|]. split; [reflexivity|].
  split; [destruct (negb upsert && _)%bool; reflexivity|].
  split; [apply traceIDFromString_decoded|].
  split; [apply traceIDFromString_rejected|].
  split; [apply spanIDFromString_decoded | apply spanIDFromString_rejected].
Qed.

Lemma C5_witness :
  LogRecord.TraceId
    (Proto.Record_ (snd (ProtoTransform.otelLogRedact Claims.sampleContext
                           (Claims.fieldRef LogFieldTraceID) "REDACTED")))
  = Some (list_byte_of_string "REDACTED").
Proof.
  exact (proj1 (C5_id_replacement_bytes Claims.sampleContext Claims.samplePdataContext
                  Claims.sampleZigContext (Claims.fieldRef LogFieldTraceID)
                  (Claims.fieldRef LogFieldSpanID) "REDACTED" false
                  eq_refl eq_refl eq_refl eq_refl)).
Defined.

(** C5, the claim as stated fails in the pdata runner: redacting trace_id
    with [REDACTED] stores the empty (all zero) ID, not the bytes of the
    replacement; and a replacement of 32 hexadecimal digits is stored as the
    16 bytes it decodes to, not as its 32 bytes. *)
Lemma C5_counterexample_pdata_redact :
  Pdata.TraceID
    (Pdata.Record_ (snd (Pdata.otelLogRedact Claims.samplePdataContext
                           (Claims.fieldRef LogFieldTraceID) "REDACTED")))
  = Pdata.NewTraceIDEmpty
  /\ Pdata.NewTraceIDEmpty <> list_byte_of_string "REDACTED"
  /\ Pdata.TraceID
       (Pdata.Record_ (snd (Pdata.otelLogRedact Claims.samplePdataContext
                              (Claims.fieldRef LogFieldTraceID)
                              "000102030405060708090a0b0c0d0e0f")))
     = [x00; x01; x02; x03; x04; x05; x06; x07; x08; x09; x0a; x0b; x0c; x0d; x0e; x0f]
  /\ List.length (list_byte_of_string "000102030405060708090a0b0c0d0e0f") = 32.
Proof.
  split; [reflexivity|]. split; [vm_compute; discriminate|].
  split; reflexivity.
Qed.

(* ================================================================== *)
(** * Part III: further properties of the code                         *)
(* ================================================================== *)

(** ** find_trace_ids.go: the two sampling decisions *)

Module ZigSamplerFacts.
Import Sampler ZigSampler.
Local Open Scope Z_scope.

Lemma bigEndian_app (a b : bytes) :
  bigEndian (a ++ b) = bigEndian a * 256 ^ Z.of_nat (List.length b) + bigEndian b.
Proof.
  induction a as [|x a IH]; [simpl; lia|].
  change ((x :: a) ++ b) with (x :: (a ++ b)). simpl bigEndian.
  rewrite IH, length_app, Nat2Z.inj_add, Z.pow_add_r by lia. ring.
Qed.

Lemma firstn_7_skipn_9 (tid : bytes) :
  List.length tid = 16%nat -> firstn 7 (skipn 9 tid) = skipn 9 tid.
Proof.
  intro H. apply firstn_all2. rewrite length_skipn, H. apply Nat.le_refl.
Qed.

Lemma R_mod (tid : bytes) :
  List.length tid = 16%nat -> R tid = bigEndian tid mod 2 ^ 56.
Proof.
  intro H. pose proof (SamplerFacts.R_range tid H) as Hr.
  unfold R in *. rewrite (firstn_7_skipn_9 tid H) in *.
  rewrite <- (firstn_skipn 9 tid) at 2. rewrite bigEndian_app.
  assert (Hl : List.length (skipn 9 tid) = 7%nat) by (rewrite length_skipn, H; reflexivity).
  rewrite Hl. change (256 ^ Z.of_nat 7) with (2 ^ 56).
  rewrite Z.add_comm, Z.mod_add by lia. symmetry. now apply Z.mod_small.
Qed.

Lemma land_shiftl_nibble (r b : Z) :
  0 <= b < 16 -> Z.land (Z.shiftl r 4) b = 0.
Proof.
  intros Hb. apply Z.bits_inj'. intros n Hn.
  rewrite Z.land_spec, Z.bits_0.
  destruct (Z.ltb_spec n 4) as [Hlt|Hge].
  - rewrite Z.shiftl_spec_low by lia. reflexivity.
  - replace (Z.testbit b n) with false; [apply andb_false_r|].
    symmetry. destruct (Z.eq_dec b 0) as [->|Hnz]; [apply Z.bits_0|].
    apply Z.bits_above_log2; [lia|].
    apply Z.log2_lt_pow2; [lia|].
    apply Z.lt_le_trans with (2 ^ 4); [lia|].
    apply Z.pow_le_mono_r; lia.
Qed.

Lemma lor_shiftl_nibble (r b : Z) :
  0 <= b < 16 -> Z.lor (Z.shiftl r 4) b = r * 16 + b.
Proof.
  intros Hb.
  rewrite <- Z.lxor_lor by (now apply land_shiftl_nibble).
  rewrite <- Z.add_nocarry_lxor by (now apply land_shiftl_nibble).
  rewrite Z.shiftl_mul_pow2 by lia. reflexivity.
Qed.

(** One step of the loop, as long as the [uint64] does not overflow. *)
Lemma hash_step (h n : Z) :
  0 <= h -> h * 16 < 2 ^ 64 -> 0 <= n < 16 ->
  Z.lor (wrap64 (Z.shiftl h 4)) n = h * 16 + n.
Proof.
  intros Hh Hlim Hn. unfold wrap64.
  rewrite Z.shiftl_mul_pow2 by lia. change (2 ^ 4) with 16.
  rewrite Z.mod_small by lia.
  rewrite <- (lor_shiftl_nibble h n Hn), Z.shiftl_mul_pow2 by lia. reflexivity.
Qed.

Lemma nibble_range (c : Z) : 0 <= nibble c < 16.
Proof.
  unfold nibble.
  destruct (48 <=? c) eqn:E1; destruct (c <=? 57) eqn:E2; simpl;
    destruct (97 <=? c) eqn:E3; destruct (c <=? 102) eqn:E4; simpl;
    destruct (65 <=? c) eqn:E5; destruct (c <=? 70) eqn:E6; simpl; lia.
Qed.

(** A hexadecimal digit written by [hex.EncodeToString] is a rune of
    width 1 whose nibble is the digit. *)
Lemma hexDigit_rune (n : N) (rest : string) :
  (n < 16)%N ->
  decodeRune (Pdata.hexDigit n) rest = (code (Pdata.hexDigit n), 1%nat)
  /\ nibble (code (Pdata.hexDigit n)) = Z.of_N n.
Proof.
  intro H.
  destruct n as [|p]; [split; reflexivity|].
  do 4 (try destruct p as [p|p|]); try lia; split; reflexivity.
Qed.

Lemma div16_lt (x : byte) : (Byte.to_N x / 16 < 16)%N.
Proof.
  pose proof (Byte.to_N_bounded x). apply N.Div0.div_lt_upper_bound. lia.
Qed.

Lemma mod16_lt (x : byte) : (Byte.to_N x mod 16 < 16)%N.
Proof. apply N.mod_lt. discriminate. Qed.

Lemma byteZ_split (x : byte) :
  byteZ x = Z.of_N (Byte.to_N x / 16) * 16 + Z.of_N (Byte.to_N x mod 16).
Proof.
  unfold byteZ. rewrite (N.div_mod (Byte.to_N x) 16) at 1 by discriminate. lia.
Qed.

(** Over the text [hex.EncodeToString] writes, the loop computes the
    big-endian integer of the bytes. *)
Lemma rangeLoop_hex (bs : bytes) :
  forall h,
    0 <= h ->
    (h + 1) * 256 ^ Z.of_nat (List.length bs) <= 2 ^ 64 ->
    rangeLoop 0 (Pdata.EncodeToString bs) h
    = h * 256 ^ Z.of_nat (List.length bs) + bigEndian bs.
Proof.
  induction bs as [|x rest IH]; intros h Hh Hlim; [simpl; lia|].
  replace (Z.of_nat (List.length (x :: rest))) with (Z.of_nat (List.length rest) + 1) in *
    by (simpl List.length; lia).
  rewrite Z.pow_add_r in * by lia. change (256 ^ 1) with 256 in *.
  set (P := 256 ^ Z.of_nat (List.length rest)) in *.
  assert (HP : 0 < P) by (apply Z.pow_pos_nonneg; lia).
  pose proof (SamplerFacts.byteZ_range x) as Hx.
  pose proof (byteZ_split x) as Hsplit.
  pose proof (div16_lt x) as Hhi. pose proof (mod16_lt x) as Hlo.
  cbn [Pdata.EncodeToString rangeLoop].
  destruct (hexDigit_rune _ (String (Pdata.hexDigit (Byte.to_N x mod 16))
                               (Pdata.EncodeToString rest)) Hhi) as [-> ->].
  cbn [Nat.sub rangeLoop].
  destruct (hexDigit_rune _ (Pdata.EncodeToString rest) Hlo) as [-> ->].
  cbn [Nat.sub].
  set (hi := Z.of_N (Byte.to_N x / 16)) in *.
  set (lo := Z.of_N (Byte.to_N x mod 16)) in *.
  assert (Hhi' : 0 <= hi < 16)
    by (split; [apply N2Z.is_nonneg | apply (N2Z.inj_lt _ 16); exact Hhi]).
  assert (Hlo' : 0 <= lo < 16)
    by (split; [apply N2Z.is_nonneg | apply (N2Z.inj_lt _ 16); exact Hlo]).
  assert (H256 : (h + 1) * 256 <= 2 ^ 64) by nia.
  rewrite (hash_step h) by lia.
  rewrite hash_step by lia.
  replace ((h * 16 + hi) * 16 + lo) with (h * 256 + byteZ x) by lia.
  rewrite IH by nia.
  simpl bigEndian. fold P. ring.
Qed.

Lemma EncodeToString_length (bs : bytes) :
  String.length (Pdata.EncodeToString bs) = (2 * List.length bs)%nat.
Proof.
  induction bs as [|x r IH]; [reflexivity|].
  cbn [Pdata.EncodeToString String.length List.length]. rewrite IH. lia.
Qed.

Lemma drop_EncodeToString (n : nat) :
  forall bs, drop (2 * n) (Pdata.EncodeToString bs) = Pdata.EncodeToString (skipn n bs).
Proof.
  induction n as [|n IH]; intro bs; [reflexivity|].
  replace (2 * S n)%nat with (S (S (2 * n))) by lia.
  destruct bs as [|x r]; [reflexivity|].
  cbn [Pdata.EncodeToString drop skipn]. apply IH.
Qed.

(** The loop never leaves the range of the hexadecimal digits it has
    room for. *)
Lemma rangeLoop_bound (s : string) :
  forall (skip : nat) (h : Z) (k : nat),
    0 <= h < 16 ^ Z.of_nat k ->
    (k + String.length s <= 14)%nat ->
    0 <= rangeLoop skip s h < 16 ^ Z.of_nat (k + String.length s).
Proof.
  induction s as [|c rest IH]; intros skip h k Hh Hk.
  - simpl. rewrite Nat.add_0_r. exact Hh.
  - cbn [String.length] in *.
    assert (Hmono : 16 ^ Z.of_nat k <= 16 ^ Z.of_nat (S k))
      by (apply Z.pow_le_mono_r; lia).
    replace (k + S (String.length rest))%nat with (S k + String.length rest)%nat by lia.
    cbn [rangeLoop]. destruct skip as [|skip].
    + destruct (decodeRune c rest) as [r w].
      pose proof (nibble_range r) as Hn.
      assert (Hp : 16 ^ Z.of_nat (S k) = 16 ^ Z.of_nat k * 16)
        by (rewrite Nat2Z.inj_succ, Z.pow_succ_r by lia; ring).
      assert (H14 : 16 ^ Z.of_nat (S k) <= 16 ^ 14)
        by (apply Z.pow_le_mono_r; lia).
      apply IH; [|lia].
      rewrite hash_step; [lia| lia | | exact Hn].
      apply Z.lt_le_trans with (16 ^ 14); [lia | vm_compute; discriminate].
    + apply IH; lia.
Qed.

Lemma drop_length (n : nat) :
  forall s, String.length (drop n s) = (String.length s - n)%nat.
Proof.
  induction n as [|n IH]; intro s; [simpl; lia|].
  destruct s as [|c r]; [reflexivity|]. cbn [drop String.length]. rewrite IH. lia.
Qed.

End ZigSamplerFacts.

(** X1. For a 16 byte trace ID and a percentage strictly between 0 and 100,
    [otelShouldKeep] compares the threshold with the low 56 bits of the
    trace ID read as one 128 bit big-endian integer: the first nine bytes
    have no influence on the decision. *)
Theorem otelShouldKeep_low_56_bits :
  forall (tid : bytes) (p : float),
    List.length tid = 16 ->
    (0 <? p)%float = true -> (p <? 100)%float = true ->
    Sampler.otelShouldKeep tid p
    = Sampler.Ret (Sampler.threshold p <=? Sampler.bigEndian tid mod 2 ^ 56)%Z.
Proof.
  intros tid p Hlen H0 H100. unfold Sampler.otelShouldKeep.
  rewrite (SamplerFacts.below_100_not_above p H100).
  rewrite (SamplerFacts.above_0_not_below p H0).
  rewrite (SamplerFacts.slice_low7 tid Hlen).
  rewrite (SamplerFacts.loop_is_R tid Hlen).
  now rewrite (ZigSamplerFacts.R_mod tid Hlen).
Qed.

Lemma otelShouldKeep_low_56_bits_witness :
  Sampler.otelShouldKeep SamplerExamples.aaTraceID 50
  = Sampler.Ret (Sampler.threshold 50
                 <=? Sampler.bigEndian SamplerExamples.aaTraceID mod 2 ^ 56)%Z.
Proof.
  exact (otelShouldKeep_low_56_bits SamplerExamples.aaTraceID 50 eq_refl eq_refl eq_refl).
Defined.

(** X2. For a 16 byte trace ID, [hashTraceIdZig] applied to the text
    [hex.EncodeToString] writes for it is the big-endian integer of its
    bytes 9 through 15: the Zig sampler hashes the same 56 bits the OTel
    sampler compares with its threshold. *)
Theorem hashTraceIdZig_of_hex_is_R :
  forall tid : bytes,
    List.length tid = 16 ->
    ZigSampler.hashTraceIdZig (Pdata.EncodeToString tid) = Sampler.R tid.
Proof.
  intros tid Hlen. unfold ZigSampler.hashTraceIdZig.
  rewrite ZigSamplerFacts.EncodeToString_length, Hlen.
  change (2 * 16 - 14) with (2 * 9).
  cbn [Nat.eqb Nat.ltb Nat.leb Nat.mul Nat.add].
  change 18 with (2 * 9). rewrite ZigSamplerFacts.drop_EncodeToString.
  assert (Hl : List.length (skipn 9 tid) = 7)
    by (rewrite length_skipn, Hlen; reflexivity).
  rewrite ZigSamplerFacts.rangeLoop_hex; [|lia|rewrite Hl; vm_compute; discriminate].
  unfold Sampler.R. rewrite (ZigSamplerFacts.firstn_7_skipn_9 tid Hlen). lia.
Qed.

Lemma hashTraceIdZig_of_hex_is_R_witness :
  ZigSampler.hashTraceIdZig (Pdata.EncodeToString SamplerExamples.boundaryTraceID)
  = Sampler.R SamplerExamples.boundaryTraceID.
Proof.
  exact (hashTraceIdZig_of_hex_is_R SamplerExamples.boundaryTraceID eq_refl).
Defined.

(** X3. Whatever bytes the text holds, [hashTraceIdZig] returns a value
    below 2^56: at most the last 14 bytes are read and every rune adds four
    bits. *)
Theorem hashTraceIdZig_fits_56_bits :
  forall hexStr : string,
    (0 <= ZigSampler.hashTraceIdZig hexStr < 2 ^ 56)%Z.
Proof.
  intro hexStr. unfold ZigSampler.hashTraceIdZig.
  destruct (Nat.eqb (String.length hexStr) 0); [lia|].
  set (start := if Nat.ltb 14 (String.length hexStr)
                then String.length hexStr - 14 else 0).
  assert (Hlen : String.length (drop start hexStr) <= 14).
  { rewrite ZigSamplerFacts.drop_length. subst start.
    destruct (Nat.ltb_spec 14 (String.length hexStr)); lia. }
  pose proof (ZigSamplerFacts.rangeLoop_bound (drop start hexStr) 0 0%Z 0) as H.
  cbn [Nat.add] in H.
  assert (Hmono : (16 ^ Z.of_nat (String.length (drop start hexStr)) <= 16 ^ 14)%Z)
    by (apply Z.pow_le_mono_r; lia).
  change (16 ^ 14)%Z with (2 ^ 56)%Z in Hmono.
  specialize (H ltac:(simpl; lia) Hlen). lia.
Qed.

(** X4. [zigShouldKeep] is monotone in the percentage: a trace ID kept at
    one percentage is kept at every higher one. *)
Theorem zigShouldKeep_monotone :
  forall (traceIDHex : string) (p q : Z),
    (p <= q)%Z ->
    ZigSampler.zigShouldKeep traceIDHex p = true ->
    ZigSampler.zigShouldKeep traceIDHex q = true.
Proof.
  intros t p q Hpq. unfold ZigSampler.zigShouldKeep.
  set (bucket := ((ZigSampler.splitmix64 (ZigSampler.hashTraceIdZig t) mod 100) mod 256)%Z).
  assert (Hb : (0 <= bucket)%Z) by (subst bucket; apply Z.mod_pos_bound; lia).
  destruct (Z.eqb_spec p 0) as [Hp|Hp]; [discriminate|].
  destruct (Z.eqb_spec q 0) as [Hq|Hq];
    destruct (Z.leb_spec 100 p); destruct (Z.leb_spec 100 q);
    try reflexivity; try lia; rewrite ?Z.ltb_lt; lia.
Qed.

Lemma zigShouldKeep_monotone_witness :
  ZigSampler.zigShouldKeep "aabbccdd0000000000ffffffffffffff" 50 = true
  /\ ZigSampler.zigShouldKeep "aabbccdd0000000000ffffffffffffff" 75 = true.
Proof.
  assert (H : ZigSampler.zigShouldKeep "aabbccdd0000000000ffffffffffffff" 50 = true)
    by (vm_compute; reflexivity).
  split; [exact H|].
  apply (zigShouldKeep_monotone "aabbccdd0000000000ffffffffffffff" 50 75); [lia | exact H].
Defined.

(** ** The attribute operations of the protobuf log transformer *)

Section AttrFacts.
Import Proto ProtoTransform AttrModel.

Lemma lookup_key (attrs : list KeyValue) (k : string) (kv : KeyValue) :
  Claims.lookup attrs k = Some kv -> kvKey kv = k.
Proof.
  induction attrs as [|x r IH]; simpl; [discriminate|].
  destruct (kvKey x =? k) eqn:E; [|exact IH].
  intro H. injection H as <-. now apply String.eqb_eq.
Qed.

Lemma lookup_In_keys (attrs : list KeyValue) (k : string) :
  Claims.lookup attrs k = None <-> ~ In k (keys attrs).
Proof.
  induction attrs as [|x r IH]; simpl; [tauto|].
  destruct (String.eqb_spec (kvKey x) k) as [E|E].
  - split; [discriminate | intro H; elim H; now left].
  - rewrite IH. tauto.
Qed.

(** The index the code computes designates the first entry with the key. *)
Lemma removeAt_from (attrs : list KeyValue) (k : string) :
  forall i,
    Claims.lookup attrs k <> None ->
    removeAt (findAttributeIndexFrom i attrs k - i) attrs = removeFirst k attrs.
Proof.
  unfold removeAt.
  induction attrs as [|x r IH]; intros i Hl; [now elim Hl|].
  simpl in *. destruct (kvKey x =? k).
  - replace (i - i)%Z with 0%Z by lia. reflexivity.
  - pose proof (findAttributeIndexFrom_spec r k (i + 1)) as Hr.
    destruct (Claims.lookup r k) eqn:El; [|now elim Hl].
    specialize (IH (i + 1)%Z ltac:(discriminate)).
    set (idx := findAttributeIndexFrom (i + 1) r k) in *.
    replace (Z.to_nat (idx - i)) with (S (Z.to_nat (idx - (i + 1)))) by lia.
    replace (Z.to_nat (idx - i + 1)) with (S (Z.to_nat (idx - (i + 1) + 1))) by lia.
    simpl. now rewrite IH.
Qed.

Lemma removeAt_removeFirst (attrs : list KeyValue) (k : string) :
  Claims.lookup attrs k <> None ->
  removeAt (findAttributeIndex attrs k) attrs = removeFirst k attrs.
Proof.
  intro H. unfold findAttributeIndex.
  rewrite <- (removeAt_from attrs k 0 H). now rewrite Z.sub_0_r.
Qed.

Lemma setValueAt_from (attrs : list KeyValue) (k : string) (v : option AnyValue) :
  forall i,
    Claims.lookup attrs k <> None ->
    setValueAt (Z.to_nat (findAttributeIndexFrom i attrs k - i)) v attrs = setFirst k v attrs.
Proof.
  induction attrs as [|x r IH]; intros i Hl; [now elim Hl|].
  simpl in *. destruct (kvKey x =? k).
  - replace (i - i)%Z with 0%Z by lia. reflexivity.
  - pose proof (findAttributeIndexFrom_spec r k (i + 1)) as Hr.
    destruct (Claims.lookup r k) eqn:El; [|now elim Hl].
    specialize (IH (i + 1)%Z ltac:(discriminate)).
    set (idx := findAttributeIndexFrom (i + 1) r k) in *.
    replace (Z.to_nat (idx - i)) with (S (Z.to_nat (idx - (i + 1)))) by lia.
    simpl. now rewrite IH.
Qed.

Lemma setValueAt_setFirst (attrs : list KeyValue) (k : string) (v : option AnyValue) :
  Claims.lookup attrs k <> None ->
  setValueAt (Z.to_nat (findAttributeIndex attrs k)) v attrs = setFirst k v attrs.
Proof.
  intro H. unfold findAttributeIndex.
  rewrite <- (setValueAt_from attrs k v 0 H). now rewrite Z.sub_0_r.
Qed.

Lemma valueAt_from (attrs : list KeyValue) (k : string) :
  forall i,
    valueAt (findAttributeIndexFrom i attrs k - i) attrs
    = match Claims.lookup attrs k with
      | Some kv => kvValue kv
      | None => valueAt (-1 - i) attrs
      end.
Proof.
  unfold valueAt.
  induction attrs as [|x r IH]; intros i; [reflexivity|].
  simpl. destruct (kvKey x =? k).
  - replace (i - i)%Z with 0%Z by lia. reflexivity.
  - pose proof (findAttributeIndexFrom_spec r k (i + 1)) as Hr.
    specialize (IH (i + 1)%Z).
    destruct (Claims.lookup r k) eqn:El.
    + set (idx := findAttributeIndexFrom (i + 1) r k) in *.
      replace (Z.to_nat (idx - i)) with (S (Z.to_nat (idx - (i + 1)))) by lia.
      exact IH.
    + rewrite Hr. reflexivity.
Qed.

Lemma valueAt_lookup (attrs : list KeyValue) (k : string) (kv : KeyValue) :
  Claims.lookup attrs k = Some kv ->
  valueAt (findAttributeIndex attrs k) attrs = kvValue kv.
Proof.
  intro H. unfold findAttributeIndex.
  pose proof (valueAt_from attrs k 0) as Hv. rewrite Z.sub_0_r, H in Hv. exact Hv.
Qed.

(** What a read of a single key returns. *)
Lemma read_lookup (attrs : list KeyValue) (k : string) :
  findAttributePath attrs [k]
  = match Claims.lookup attrs k with
    | Some kv => anyValueBytes (kvValue kv)
    | None => None
    end.
Proof.
  rewrite findAttributePath_resolve. simpl.
  destruct (Claims.lookup attrs k); reflexivity.
Qed.

(** A read depends on the attribute list only through the first entry
    with the first key of the path. *)
Lemma read_same_lookup (l1 l2 : list KeyValue) (path : list string) :
  (forall k rest, path = k :: rest -> Claims.lookup l1 k = Claims.lookup l2 k) ->
  findAttributePath l1 path = findAttributePath l2 path.
Proof.
  intro H. rewrite !findAttributePath_resolve.
  destruct path as [|k rest]; [reflexivity|].
  simpl. now rewrite (H k rest eq_refl).
Qed.

Lemma lookup_removeFirst_other (attrs : list KeyValue) (k k' : string) :
  k' <> k -> Claims.lookup (removeFirst k attrs) k' = Claims.lookup attrs k'.
Proof.
  intro Hne. induction attrs as [|x r IH]; [reflexivity|].
  simpl. destruct (String.eqb_spec (kvKey x) k) as [E|E].
  - destruct (String.eqb_spec (kvKey x) k'); [congruence | reflexivity].
  - simpl. now rewrite IH.
Qed.

Lemma lookup_removeFirst_same (attrs : list KeyValue) (k : string) :
  NoDup (keys attrs) -> Claims.lookup (removeFirst k attrs) k = None.
Proof.
  induction attrs as [|x r IH]; intro Hnd; [reflexivity|].
  simpl in *. inversion Hnd as [|? ? Hnin Hnd']; subst.
  destruct (String.eqb_spec (kvKey x) k) as [E|E].
  - apply lookup_In_keys. now rewrite <- E.
  - simpl. destruct (String.eqb_spec (kvKey x) k); [contradiction | now apply IH].
Qed.

Lemma keys_removeFirst_incl (attrs : list KeyValue) (k x : string) :
  In x (keys (removeFirst k attrs)) -> In x (keys attrs).
Proof.
  induction attrs as [|kv r IH]; simpl; [tauto|].
  destruct (kvKey kv =? k); simpl; tauto.
Qed.

Lemma NoDup_removeFirst (attrs : list KeyValue) (k : string) :
  NoDup (keys attrs) -> NoDup (keys (removeFirst k attrs)).
Proof.
  induction attrs as [|kv r IH]; intro Hnd; [constructor|].
  simpl in *. inversion Hnd as [|? ? Hnin Hnd']; subst.
  destruct (kvKey kv =? k); [exact Hnd'|].
  simpl. constructor; [|now apply IH].
  intro Hin. apply Hnin. now apply (keys_removeFirst_incl r k).
Qed.

Lemma keys_setFirst (attrs : list KeyValue) (k : string) (v : option AnyValue) :
  keys (setFirst k v attrs) = keys attrs.
Proof.
  induction attrs as [|kv r IH]; [reflexivity|].
  simpl. destruct (kvKey kv =? k); simpl; [reflexivity | now rewrite IH].
Qed.

Lemma lookup_setFirst_same (attrs : list KeyValue) (k : string) (v : option AnyValue) :
  Claims.lookup attrs k <> None ->
  exists kv, Claims.lookup (setFirst k v attrs) k = Some kv /\ kvValue kv = v.
Proof.
  induction attrs as [|x r IH]; intro H; [now elim H|].
  simpl in *. destruct (kvKey x =? k) eqn:E.
  - simpl. rewrite E. eexists. split; reflexivity.
  - simpl. rewrite E. now apply IH.
Qed.

Lemma lookup_setFirst_other (attrs : list KeyValue) (k k' : string) (v : option AnyValue) :
  k' <> k -> Claims.lookup (setFirst k v attrs) k' = Claims.lookup attrs k'.
Proof.
  intro Hne. induction attrs as [|x r IH]; [reflexivity|].
  simpl. destruct (String.eqb_spec (kvKey x) k) as [E|E]; simpl.
  - destruct (String.eqb_spec (kvKey x) k'); [congruence | reflexivity].
  - now rewrite IH.
Qed.

Lemma lookup_snoc (attrs : list KeyValue) (kv : KeyValue) (k' : string) :
  Claims.lookup (attrs ++ [kv]) k'
  = match Claims.lookup attrs k' with
    | Some x => Some x
    | None => if kvKey kv =? k' then Some kv else None
    end.
Proof.
  induction attrs as [|x r IH]; [reflexivity|].
  simpl. destruct (kvKey x =? k'); [reflexivity | exact IH].
Qed.

Lemma NoDup_snoc (attrs : list KeyValue) (k : string) (v : option AnyValue) :
  Claims.lookup attrs k = None -> NoDup (keys attrs) ->
  NoDup (keys (attrs ++ [mkKeyValue k v])).
Proof.
  intros Hl Hnd. unfold keys in *. rewrite map_app. simpl.
  apply NoDup_app; [exact Hnd | repeat constructor; simpl; tauto |].
  intros x Hin [E|[]]. subst x. now apply (lookup_In_keys attrs k).
Qed.

(** The attribute list a pointer designates, after an assignment through a
    pointer. *)
Lemma deref_assign_same (ctx : LogContext) (ref : LogFieldRef) (p : AttrsPtr)
  (l : list KeyValue) :
  otelLogAttrs ctx ref = Some p -> deref (assign ctx p l) p = l.
Proof.
  unfold otelLogAttrs.
  destruct (IsRecordAttr ref); [intro H; injection H as <-; reflexivity|].
  destruct (IsResourceAttr ref).
  { destruct (Resource_ ctx) eqn:E; [|discriminate].
    intro H; injection H as <-. simpl. rewrite E. reflexivity. }
  destruct (IsScopeAttr ref); [|discriminate].
  destruct (Scope_ ctx) eqn:E; [|discriminate].
  intro H; injection H as <-. simpl. rewrite E. reflexivity.
Qed.

Lemma deref_assign_other (ctx : LogContext) (p q : AttrsPtr) (l : list KeyValue) :
  p <> q -> deref (assign ctx p l) q = deref ctx q.
Proof.
  intro Hne. destruct p, q; try contradiction; simpl; try reflexivity;
    try (destruct (Resource_ ctx); reflexivity);
    destruct (Scope_ ctx); reflexivity.
Qed.

Lemma otelLogAttrs_assign (ctx : LogContext) (p : AttrsPtr) (l : list KeyValue)
  (ref : LogFieldRef) :
  otelLogAttrs (assign ctx p l) ref = otelLogAttrs ctx ref.
Proof.
  unfold otelLogAttrs. destruct p; simpl; try reflexivity.
  - destruct (Resource_ ctx) eqn:E; simpl; rewrite ?E; reflexivity.
  - destruct (Scope_ ctx) eqn:E; simpl; rewrite ?E; reflexivity.
Qed.

(** The matcher reads an attribute reference from the list the transformer
    changes for that reference. *)
Lemma matcher_deref (ctx : LogContext) (ref : LogFieldRef) (p : AttrsPtr) :
  otelLogAttrs ctx ref = Some p ->
  OTelLogMatcher ctx ref = findAttributePath (deref ctx p) (AttrPath ref).
Proof.
  unfold otelLogAttrs, OTelLogMatcher, IsField, IsRecordAttr, IsResourceAttr, IsScopeAttr.
  destruct (refKind ref); try discriminate.
  - intro H; injection H as <-. reflexivity.
  - destruct (Resource_ ctx) eqn:E; [|discriminate].
    intro H; injection H as <-. simpl. now rewrite E.
  - destruct (Scope_ ctx) eqn:E; [|discriminate].
    intro H; injection H as <-. simpl. now rewrite E.
Qed.

Lemma matcher_assign_other (ctx : LogContext) (ref : LogFieldRef) (p : AttrsPtr)
  (l : list KeyValue) :
  otelLogAttrs ctx ref <> Some p ->
  OTelLogMatcher (assign ctx p l) ref = OTelLogMatcher ctx ref.
Proof.
  unfold otelLogAttrs, OTelLogMatcher, IsField, IsRecordAttr, IsResourceAttr, IsScopeAttr.
  destruct (refKind ref), p; simpl; intro H; try reflexivity;
    destruct (Resource_ ctx) eqn:E1; destruct (Scope_ ctx) eqn:E2;
    simpl; rewrite ?E1, ?E2; try reflexivity; now elim H.
Qed.

Lemma otelLogAttrs_kind (ctx : LogContext) (r1 r2 : LogFieldRef) (p : AttrsPtr) :
  otelLogAttrs ctx r1 = Some p -> otelLogAttrs ctx r2 = Some p -> refKind r1 = refKind r2.
Proof.
  unfold otelLogAttrs, IsRecordAttr, IsResourceAttr, IsScopeAttr.
  destruct (refKind r1), (refKind r2), (Resource_ ctx), (Scope_ ctx), p;
    try discriminate; reflexivity.
Qed.

Lemma otelLogAttrs_not_field (ctx : LogContext) (ref : LogFieldRef) (p : AttrsPtr) :
  otelLogAttrs ctx ref = Some p -> IsField ref = false.
Proof.
  unfold otelLogAttrs, IsField, IsRecordAttr, IsResourceAttr, IsScopeAttr.
  destruct (refKind ref); try discriminate; reflexivity.
Qed.

Lemma attrPath_single (ref : LogFieldRef) (k : string) :
  AttrPath ref = [k] -> attrPath ref = k.
Proof. unfold attrPath. now intros ->. Qed.

Lemma isSome_lookup {A : Type} (o : option A) :
  TransformClaims.isSome o = true <-> o <> None.
Proof. destruct o; simpl; split; congruence. Qed.

End AttrFacts.

(** ** The transforms in terms of the keys of the attribute list *)

Section TransformModel.
Import Proto ProtoTransform AttrModel.

Lemma AttrsPtr_dec (p q : AttrsPtr) : {p = q} + {p <> q}.
Proof. decide equality. Qed.

Lemma assign_assign (ctx : LogContext) (p : AttrsPtr) (l1 l2 : list KeyValue) :
  assign (assign ctx p l1) p l2 = assign ctx p l2.
Proof.
  destruct p; simpl; [reflexivity| |].
  - destruct (Resource_ ctx) eqn:E; simpl; rewrite ?E; reflexivity.
  - destruct (Scope_ ctx) eqn:E; simpl; rewrite ?E; reflexivity.
Qed.

Lemma lookup_index_neg (attrs : list KeyValue) (k : string) :
  (findAttributeIndex attrs k <? 0)%Z
  = match Claims.lookup attrs k with Some _ => false | None => true end.
Proof. rewrite findAttributeIndex_neg. destruct (Claims.lookup attrs k); reflexivity. Qed.

Lemma lookup_index_found (attrs : list KeyValue) (k : string) :
  (0 <=? findAttributeIndex attrs k)%Z
  = match Claims.lookup attrs k with Some _ => true | None => false end.
Proof. rewrite findAttributeIndex_found. destruct (Claims.lookup attrs k); reflexivity. Qed.

(** [removeAttribute] removes the first entry with the key. *)
Lemma removeAttribute_model (ctx : LogContext) (p : AttrsPtr) (k : string) :
  k <> "" ->
  removeAttribute ctx (Some p) k
  = match Claims.lookup (deref ctx p) k with
    | Some _ => (true, assign ctx p (removeFirst k (deref ctx p)))
    | None => (false, ctx)
    end.
Proof.
  intro Hk. unfold removeAttribute.
  destruct (String.eqb_spec k ""); [contradiction|].
  cbv zeta. rewrite lookup_index_neg.
  destruct (Claims.lookup (deref ctx p) k) eqn:E; [|reflexivity].
  rewrite removeAt_removeFirst by (rewrite E; discriminate). reflexivity.
Qed.

(** [setAttribute] overwrites the first entry with the key when asked to,
    and appends an entry when there is none. *)
Lemma setAttribute_model (ctx : LogContext) (p : AttrsPtr) (k value : string)
  (upsert : bool) :
  k <> "" ->
  setAttribute ctx (Some p) k value upsert
  = match Claims.lookup (deref ctx p) k with
    | Some _ =>
        if upsert then (true, assign ctx p (upsertKey k (stringAnyValue value) (deref ctx p)))
        else (true, ctx)
    | None => (true, assign ctx p (upsertKey k (stringAnyValue value) (deref ctx p)))
    end.
Proof.
  intro Hk. unfold setAttribute, upsertKey.
  destruct (String.eqb_spec k ""); [contradiction|].
  cbv zeta. rewrite lookup_index_found.
  destruct (Claims.lookup (deref ctx p) k) eqn:E; [|reflexivity].
  destruct upsert; [|reflexivity]. simpl.
  rewrite setValueAt_setFirst by (rewrite E; discriminate). reflexivity.
Qed.

Lemma otelLogRemove_model (ctx : LogContext) (ref : LogFieldRef) (p : AttrsPtr) :
  otelLogAttrs ctx ref = Some p -> attrPath ref <> "" ->
  otelLogRemove ctx ref
  = match Claims.lookup (deref ctx p) (attrPath ref) with
    | Some _ => (true, assign ctx p (removeFirst (attrPath ref) (deref ctx p)))
    | None => (false, ctx)
    end.
Proof.
  intros Hp Hk. unfold otelLogRemove.
  rewrite (otelLogAttrs_not_field ctx ref p Hp), Hp.
  now apply removeAttribute_model.
Qed.

Lemma otelLogRedact_model (ctx : LogContext) (ref : LogFieldRef) (p : AttrsPtr)
  (replacement : string) :
  otelLogAttrs ctx ref = Some p -> attrPath ref <> "" ->
  otelLogRedact ctx ref replacement
  = match Claims.lookup (deref ctx p) (attrPath ref) with
    | Some _ =>
        (true, assign ctx p
                 (setFirst (attrPath ref) (stringAnyValue replacement) (deref ctx p)))
    | None => (false, ctx)
    end.
Proof.
  intros Hp Hk. unfold otelLogRedact.
  rewrite (otelLogAttrs_not_field ctx ref p Hp), Hp.
  destruct (String.eqb_spec (attrPath ref) ""); [contradiction|].
  cbv zeta. rewrite lookup_index_neg.
  destruct (Claims.lookup (deref ctx p) (attrPath ref)) eqn:E; [|reflexivity].
  rewrite setValueAt_setFirst by (rewrite E; discriminate). reflexivity.
Qed.

Lemma otelLogAdd_model (ctx : LogContext) (ref : LogFieldRef) (p : AttrsPtr)
  (value : string) (upsert : bool) :
  otelLogAttrs ctx ref = Some p -> attrPath ref <> "" ->
  otelLogAdd ctx ref value upsert
  = match Claims.lookup (deref ctx p) (attrPath ref) with
    | Some _ =>
        if upsert
        then (true, assign ctx p
                      (upsertKey (attrPath ref) (stringAnyValue value) (deref ctx p)))
        else (true, ctx)
    | None => (true, assign ctx p
                       (upsertKey (attrPath ref) (stringAnyValue value) (deref ctx p)))
    end.
Proof.
  intros Hp Hk. unfold otelLogAdd.
  rewrite (otelLogAttrs_not_field ctx ref p Hp), Hp.
  now apply setAttribute_model.
Qed.

(** [otelLogRename] removes the first entry with the source key and
    writes the text of its value under the target key. *)
Lemma otelLogRename_model (ctx : LogContext) (ref : LogFieldRef) (p : AttrsPtr)
  (to : string) (upsert : bool) :
  otelLogAttrs ctx ref = Some p -> attrPath ref <> "" -> to <> "" ->
  otelLogRename ctx ref to upsert
  = match Claims.lookup (deref ctx p) (attrPath ref) with
    | None => Some (false, ctx)
    | Some kv =>
        if (negb upsert && TransformClaims.isSome (Claims.lookup (deref ctx p) to))%bool
        then Some (true, ctx)
        else Some (true,
                   assign ctx p
                     (upsertKey to
                        (stringAnyValue (movedText (anyValueBytes (kvValue kv))))
                        (removeFirst (attrPath ref) (deref ctx p))))
    end.
Proof.
  intros Hp Hk Hto. unfold otelLogRename.
  rewrite (otelLogAttrs_not_field ctx ref p Hp), Hp.
  destruct (String.eqb_spec (attrPath ref) ""); [contradiction|].
  cbv zeta. rewrite lookup_index_neg.
  destruct (Claims.lookup (deref ctx p) (attrPath ref)) as [kv|] eqn:E; [|reflexivity].
  rewrite findAttributeIndex_found.
  destruct (negb upsert && _)%bool; [reflexivity|].
  rewrite (valueAt_lookup _ _ kv E).
  rewrite removeAt_removeFirst by (rewrite E; discriminate).
  set (l1 := removeFirst (attrPath ref) (deref ctx p)).
  assert (Hp1 : otelLogAttrs (assign ctx p l1) ref = Some p)
    by (now rewrite otelLogAttrs_assign).
  assert (Hset : forall s,
             snd (setAttribute (assign ctx p l1) (Some p) to s true)
             = assign ctx p (upsertKey to (stringAnyValue s) l1)).
  { intro s. rewrite setAttribute_model by exact Hto.
    rewrite (deref_assign_same ctx ref p l1 Hp).
    unfold upsertKey.
    destruct (Claims.lookup l1 to); simpl; now rewrite assign_assign. }
  destruct (anyValueBytes (kvValue kv)); cbn [movedText]; now rewrite Hset.
Qed.

(** Reads of the references a change of one attribute list does not
    concern are the same before and after. *)
Lemma matcher_frame (ctx : LogContext) (ref ref' : LogFieldRef) (p : AttrsPtr)
  (l' : list KeyValue) (changed : string -> Prop) :
  otelLogAttrs ctx ref = Some p ->
  (forall k', ~ changed k' -> Claims.lookup l' k' = Claims.lookup (deref ctx p) k') ->
  refKind ref' <> refKind ref \/ ~ changed (attrPath ref') ->
  OTelLogMatcher (assign ctx p l') ref' = OTelLogMatcher ctx ref'.
Proof.
  intros Hp Hsame Href.
  destruct (otelLogAttrs ctx ref') as [q|] eqn:Eq.
  - destruct (AttrsPtr_dec q p) as [->|Hne].
    + destruct Href as [Hk|Hc]; [elim Hk; now apply (otelLogAttrs_kind ctx ref' ref p)|].
      rewrite (matcher_deref (assign ctx p l') ref' p)
        by (now rewrite otelLogAttrs_assign).
      rewrite (matcher_deref ctx ref' p Eq).
      rewrite (deref_assign_same ctx ref p l' Hp).
      apply read_same_lookup. intros k rest Hpath. apply Hsame.
      unfold attrPath in Hc. now rewrite Hpath in Hc.
    + apply matcher_assign_other. rewrite Eq. congruence.
  - apply matcher_assign_other. rewrite Eq. discriminate.
Qed.

Lemma anyValueBytes_string (s : string) :
  anyValueBytes (stringAnyValue s) = nonEmptyString s.
Proof. reflexivity. Qed.

Lemma lookup_upsertKey_same (attrs : list KeyValue) (k : string) (v : option AnyValue) :
  exists kv, Claims.lookup (upsertKey k v attrs) k = Some kv /\ kvValue kv = v.
Proof.
  unfold upsertKey. destruct (Claims.lookup attrs k) eqn:E.
  - apply lookup_setFirst_same. rewrite E. discriminate.
  - rewrite lookup_snoc, E. simpl. rewrite String.eqb_refl. eexists. split; reflexivity.
Qed.

Lemma lookup_upsertKey_other (attrs : list KeyValue) (k k' : string) (v : option AnyValue) :
  k' <> k -> Claims.lookup (upsertKey k v attrs) k' = Claims.lookup attrs k'.
Proof.
  intro Hne. unfold upsertKey. destruct (Claims.lookup attrs k) eqn:E.
  - now apply lookup_setFirst_other.
  - rewrite lookup_snoc. destruct (Claims.lookup attrs k'); [reflexivity|].
    simpl. destruct (String.eqb_spec k k'); [congruence | reflexivity].
Qed.

Lemma NoDup_upsertKey (attrs : list KeyValue) (k : string) (v : option AnyValue) :
  NoDup (keys attrs) -> NoDup (keys (upsertKey k v attrs)).
Proof.
  intro H. unfold upsertKey. destruct (Claims.lookup attrs k) eqn:E.
  - now rewrite keys_setFirst.
  - now apply NoDup_snoc.
Qed.

Lemma movedText_read (val : option bytes) :
  val <> Some [] -> nonEmptyString (movedText val) = val.
Proof.
  intro H. unfold movedText, nonEmptyString.
  destruct val as [b|]; [|reflexivity].
  destruct (String.eqb_spec (string_of_list_byte b) "") as [E|E].
  - elim H. f_equal. rewrite <- (list_byte_of_string_of_list_byte b), E. reflexivity.
  - unfold to_bytes. now rewrite list_byte_of_string_of_list_byte.
Qed.

End TransformModel.

Section TransformShape.
Import Proto ProtoTransform AttrModel.

(** What a transform may do to a context: leave every attribute list as
    it is (and, for an attribute reference, every fixed field too), or
    replace the attribute list its reference designates. *)
Let shape (ctx : LogContext) (ref : LogFieldRef) (ctx' : LogContext) : Prop :=
  ((forall p, deref ctx' p = deref ctx p)
   /\ (IsField ref = false -> TransformClaims.fixedFields ctx' = TransformClaims.fixedFields ctx))
  \/ (exists q l',
        otelLogAttrs ctx ref = Some q /\ ctx' = assign ctx q l'
        /\ (NoDup (keys (deref ctx q)) -> NoDup (keys l'))).

Lemma shape_same (ctx : LogContext) (ref : LogFieldRef) : shape ctx ref ctx.
Proof. left. split; reflexivity. Qed.

Lemma shape_field (ctx : LogContext) (ref : LogFieldRef) (r : LogRecord.t) :
  IsField ref = true ->
  LogRecord.Attributes r = LogRecord.Attributes (Record_ ctx) ->
  shape ctx ref (setRecord r ctx).
Proof.
  intros Hf Ha. left. split; [|congruence].
  intros []; simpl; [exact Ha | reflexivity | reflexivity].
Qed.

Lemma shape_assign (ctx : LogContext) (ref : LogFieldRef) (q : AttrsPtr)
  (l' : list KeyValue) :
  otelLogAttrs ctx ref = Some q ->
  (NoDup (keys (deref ctx q)) -> NoDup (keys l')) ->
  shape ctx ref (assign ctx q l').
Proof. intros Hq Hn. right. exists q, l'. auto. Qed.

Lemma otelLogRemove_shape (ctx : LogContext) (ref : LogFieldRef) :
  shape ctx ref (snd (otelLogRemove ctx ref)).
Proof.
  destruct (IsField ref) eqn:Hf.
  - unfold otelLogRemove. rewrite Hf.
    destruct (Field ref); simpl; try apply shape_same; now apply shape_field.
  - destruct (otelLogAttrs ctx ref) as [q|] eqn:Hq.
    + destruct (String.eqb_spec (attrPath ref) "") as [E|E].
      * unfold otelLogRemove, removeAttribute. rewrite Hf, Hq, E. apply shape_same.
      * rewrite (otelLogRemove_model ctx ref q Hq E).
        destruct (Claims.lookup _ _); [|apply shape_same].
        apply shape_assign; [exact Hq | apply NoDup_removeFirst].
    + unfold otelLogRemove, removeAttribute. rewrite Hf, Hq. apply shape_same.
Qed.

Lemma otelLogRedact_shape (ctx : LogContext) (ref : LogFieldRef) (replacement : string) :
  shape ctx ref (snd (otelLogRedact ctx ref replacement)).
Proof.
  destruct (IsField ref) eqn:Hf.
  - unfold otelLogRedact. rewrite Hf.
    destruct (Field ref); simpl; try apply shape_same; now apply shape_field.
  - destruct (otelLogAttrs ctx ref) as [q|] eqn:Hq.
    + destruct (String.eqb_spec (attrPath ref) "") as [E|E].
      * unfold otelLogRedact. rewrite Hf, Hq, E. apply shape_same.
      * rewrite (otelLogRedact_model ctx ref q replacement Hq E).
        destruct (Claims.lookup _ _); [|apply shape_same].
        apply shape_assign; [exact Hq | now rewrite keys_setFirst].
    + unfold otelLogRedact. rewrite Hf, Hq. apply shape_same.
Qed.

Lemma otelLogAdd_shape (ctx : LogContext) (ref : LogFieldRef) (value : string)
  (upsert : bool) :
  shape ctx ref (snd (otelLogAdd ctx ref value upsert)).
Proof.
  destruct (IsField ref) eqn:Hf.
  - unfold otelLogAdd. rewrite Hf.
    destruct (Field ref); simpl; try apply shape_same;
      match goal with |- context [if ?c then _ else _] => destruct c end;
      simpl; try apply shape_same; now apply shape_field.
  - destruct (otelLogAttrs ctx ref) as [q|] eqn:Hq.
    + destruct (String.eqb_spec (attrPath ref) "") as [E|E].
      * unfold otelLogAdd, setAttribute. rewrite Hf, Hq, E. apply shape_same.
      * rewrite (otelLogAdd_model ctx ref q value upsert Hq E).
        destruct (Claims.lookup _ _); [destruct upsert|]; try apply shape_same;
          (apply shape_assign; [exact Hq | apply NoDup_upsertKey]).
    + unfold otelLogAdd, setAttribute. rewrite Hf, Hq. apply shape_same.
Qed.

Lemma otelLogRename_shape (ctx ctx' : LogContext) (ref : LogFieldRef) (to : string)
  (upsert hit : bool) :
  otelLogRename ctx ref to upsert = Some (hit, ctx') -> shape ctx ref ctx'.
Proof.
  destruct (IsField ref) eqn:Hf.
  { unfold otelLogRename. rewrite Hf. intro H. injection H as _ <-. apply shape_same. }
  destruct (String.eqb_spec (attrPath ref) "") as [E|E].
  { unfold otelLogRename. rewrite Hf, E. intro H. injection H as _ <-. apply shape_same. }
  destruct (otelLogAttrs ctx ref) as [q|] eqn:Hq.
  2:{ unfold otelLogRename. rewrite Hf, Hq.
      destruct (attrPath ref =? ""); [|discriminate].
      intro H. injection H as _ <-. apply shape_same. }
  destruct (String.eqb_spec to "") as [Eto|Eto].
  - (* the target key is empty: the source is removed and nothing is set *)
    subst to. unfold otelLogRename. rewrite Hf, Hq.
    destruct (String.eqb_spec (attrPath ref) ""); [contradiction|].
    cbv zeta. rewrite lookup_index_neg.
    destruct (Claims.lookup (deref ctx q) (attrPath ref)) eqn:El;
      [|intro H; injection H as _ <-; apply shape_same].
    destruct (negb upsert && _)%bool; [intro H; injection H as _ <-; apply shape_same|].
    rewrite removeAt_removeFirst by (rewrite El; discriminate).
    assert (Hs : forall s l1, snd (setAttribute (assign ctx q l1) (Some q) "" s true)
                            = assign ctx q l1) by reflexivity.
    destruct (anyValueBytes _); rewrite Hs; intro H; injection H as _ <-;
      (apply shape_assign; [exact Hq | apply NoDup_removeFirst]).
  - rewrite (otelLogRename_model ctx ref q to upsert Hq E Eto).
    destruct (Claims.lookup _ (attrPath ref)); [|intro H; injection H as _ <-; apply shape_same].
    destruct (negb upsert && _)%bool; intro H; injection H as _ <-; [apply shape_same|].
    apply shape_assign; [exact Hq|].
    intro Hn. apply NoDup_upsertKey. now apply NoDup_removeFirst.
Qed.

Lemma OTelLogTransformer_shape (ctx ctx' : LogContext) (op : TransformOp) (hit : bool) :
  OTelLogTransformer ctx op = Some (hit, ctx') -> shape ctx (Ref op) ctx'.
Proof.
  unfold OTelLogTransformer. destruct (opKind op).
  - intro H. injection H as H. rewrite (surjective_pairing (otelLogRemove _ _)) in H.
    injection H as _ <-. apply otelLogRemove_shape.
  - intro H. injection H as H. rewrite (surjective_pairing (otelLogRedact _ _ _)) in H.
    injection H as _ <-. apply otelLogRedact_shape.
  - apply otelLogRename_shape.
  - intro H. injection H as H. rewrite (surjective_pairing (otelLogAdd _ _ _ _)) in H.
    injection H as _ <-. apply otelLogAdd_shape.
  - intro H. injection H as _ <-. apply shape_same.
Qed.

(** Every attribute list but the designated one, and for an attribute
    reference every fixed field, is left as it was. *)
Lemma transform_isolation (ctx ctx' : LogContext) (op : TransformOp) (hit : bool) :
  OTelLogTransformer ctx op = Some (hit, ctx') ->
  (forall p, otelLogAttrs ctx (Ref op) <> Some p -> deref ctx' p = deref ctx p)
  /\ (IsField (Ref op) = false ->
      TransformClaims.fixedFields ctx' = TransformClaims.fixedFields ctx).
Proof.
  intro H. destruct (OTelLogTransformer_shape ctx ctx' op hit H)
    as [[Hd Hf]|(q & l' & Hq & -> & _)].
  - split; [intros p _; apply Hd | exact Hf].
  - split; [|intros _; apply assign_fixedFields].
    intros p Hp. apply deref_assign_other. congruence.
Qed.

Lemma transform_unique_keys (ctx ctx' : LogContext) (op : TransformOp) (hit : bool)
  (p : AttrsPtr) :
  OTelLogTransformer ctx op = Some (hit, ctx') ->
  NoDup (keys (deref ctx p)) -> NoDup (keys (deref ctx' p)).
Proof.
  intros H Hn. destruct (OTelLogTransformer_shape ctx ctx' op hit H)
    as [[Hd _]|(q & l' & Hq & -> & Hl)].
  - now rewrite Hd.
  - destruct (AttrsPtr_dec q p) as [->|Hne].
    + rewrite (deref_assign_same ctx (Ref op) p l' Hq). now apply Hl.
    + now rewrite deref_assign_other.
Qed.

End TransformShape.

(** X5. A transform of the log transformer changes nothing beside its
    target: every attribute list other than the one its reference
    designates is left as it was, and a transform of an attribute leaves all
    fixed fields and both schema URLs as they were. *)
Theorem OTelLogTransformer_isolation :
  forall (ctx ctx' : Proto.LogContext) (op : TransformOp) (hit : bool),
    ProtoTransform.OTelLogTransformer ctx op = Some (hit, ctx') ->
    (forall p, ProtoTransform.otelLogAttrs ctx (Ref op) <> Some p ->
               ProtoTransform.deref ctx' p = ProtoTransform.deref ctx p)
    /\ (IsField (Ref op) = false ->
        TransformClaims.fixedFields ctx' = TransformClaims.fixedFields ctx).
Proof. intros ctx ctx' op hit. apply transform_isolation. Qed.

Lemma OTelLogTransformer_isolation_witness :
  ProtoTransform.deref
    (snd (ProtoTransform.otelLogRemove TransformClaims.fullContext (Claims.attrRef "a")))
    ProtoTransform.ScopeAttrs
  = Claims.sampleAttrs.
Proof.
  refine (proj1 (OTelLogTransformer_isolation TransformClaims.fullContext _
                   (mkOp TransformRemove (Claims.attrRef "a") "" "" false) true eq_refl)
                ProtoTransform.ScopeAttrs _).
  discriminate.
Defined.

(** X6. No transform of the log transformer introduces a duplicate key:
    an attribute list whose keys are pairwise different before a transform
    has pairwise different keys after it. *)
Theorem OTelLogTransformer_keeps_keys_unique :
  forall (ctx ctx' : Proto.LogContext) (op : TransformOp) (hit : bool)
         (p : ProtoTransform.AttrsPtr),
    ProtoTransform.OTelLogTransformer ctx op = Some (hit, ctx') ->
    NoDup (AttrModel.keys (ProtoTransform.deref ctx p)) ->
    NoDup (AttrModel.keys (ProtoTransform.deref ctx' p)).
Proof. intros ctx ctx' op hit p. apply transform_unique_keys. Qed.

Lemma OTelLogTransformer_keeps_keys_unique_witness :
  NoDup (AttrModel.keys
           (ProtoTransform.deref
              (snd (ProtoTransform.otelLogAdd Claims.sampleContext (Claims.attrRef "a")
                      "z" true))
              ProtoTransform.RecordAttrs)).
Proof.
  refine (OTelLogTransformer_keeps_keys_unique Claims.sampleContext _
            (mkOp TransformAdd (Claims.attrRef "a") "z" "" true) true
            ProtoTransform.RecordAttrs eq_refl _).
  repeat constructor; simpl; intuition discriminate.
Defined.

(** X7. Remove, then read: after a remove of the attribute [k] from a list
    with pairwise different keys the attribute reads as absent, and every
    read of another key, of another attribute list or of a fixed field
    returns what it returned before. *)
Theorem otelLogRemove_then_read :
  forall (ctx : Proto.LogContext) (ref : LogFieldRef) (k : string)
         (p : ProtoTransform.AttrsPtr),
    AttrPath ref = [k] -> k <> "" ->
    ProtoTransform.otelLogAttrs ctx ref = Some p ->
    NoDup (AttrModel.keys (ProtoTransform.deref ctx p)) ->
    Proto.OTelLogMatcher (snd (ProtoTransform.otelLogRemove ctx ref)) ref = None
    /\ (forall ref' : LogFieldRef,
          refKind ref' <> refKind ref \/ Proto.attrPath ref' <> k ->
          Proto.OTelLogMatcher (snd (ProtoTransform.otelLogRemove ctx ref)) ref'
          = Proto.OTelLogMatcher ctx ref').
Proof.
  intros ctx ref k p Hpath Hk Hp Hn.
  pose proof (attrPath_single ref k Hpath) as Hattr.
  rewrite (otelLogRemove_model ctx ref p Hp) by (now rewrite Hattr).
  rewrite Hattr.
  destruct (Claims.lookup (ProtoTransform.deref ctx p) k) eqn:El; simpl.
  - split.
    + rewrite (matcher_deref _ ref p) by (now rewrite otelLogAttrs_assign).
      rewrite (deref_assign_same ctx ref p _ Hp), Hpath, read_lookup.
      now rewrite lookup_removeFirst_same.
    + intros ref' Href.
      apply (matcher_frame ctx ref ref' p _ (fun x => x = k) Hp); [|exact Href].
      intros k' Hk'. now apply lookup_removeFirst_other.
  - split; [|reflexivity].
    now rewrite (matcher_deref ctx ref p Hp), Hpath, read_lookup, El.
Qed.

Lemma otelLogRemove_then_read_witness :
  Proto.OTelLogMatcher
    (snd (ProtoTransform.otelLogRemove Claims.sampleContext (Claims.attrRef "a")))
    (Claims.attrRef "a") = None.
Proof.
  refine (proj1 (otelLogRemove_then_read Claims.sampleContext (Claims.attrRef "a") "a"
                   ProtoTransform.RecordAttrs eq_refl _ eq_refl _)).
  - discriminate.
  - repeat constructor; simpl; intuition discriminate.
Defined.

(** X8. Add, then read: an add without upsert on an attribute that exists
    leaves the context as it is; in every other case the attribute reads as
    the added value afterwards (as absent when the value is the empty
    text); reads of other keys, lists and fields are not affected. *)
Theorem otelLogAdd_then_read :
  forall (ctx : Proto.LogContext) (ref : LogFieldRef) (k value : string) (upsert : bool)
         (p : ProtoTransform.AttrsPtr),
    AttrPath ref = [k] -> k <> "" ->
    ProtoTransform.otelLogAttrs ctx ref = Some p ->
    let ctx' := snd (ProtoTransform.otelLogAdd ctx ref value upsert) in
    (upsert = false -> Claims.lookup (ProtoTransform.deref ctx p) k <> None -> ctx' = ctx)
    /\ (upsert = true \/ Claims.lookup (ProtoTransform.deref ctx p) k = None ->
        Proto.OTelLogMatcher ctx' ref = Proto.nonEmptyString value)
    /\ (forall ref' : LogFieldRef,
          refKind ref' <> refKind ref \/ Proto.attrPath ref' <> k ->
          Proto.OTelLogMatcher ctx' ref' = Proto.OTelLogMatcher ctx ref').
Proof.
  intros ctx ref k value upsert p Hpath Hk Hp ctx'. subst ctx'.
  pose proof (attrPath_single ref k Hpath) as Hattr.
  rewrite (otelLogAdd_model ctx ref p value upsert Hp) by (now rewrite Hattr).
  rewrite Hattr.
  assert (Hread :
            Proto.OTelLogMatcher
              (ProtoTransform.assign ctx p
                 (AttrModel.upsertKey k (stringAnyValue value) (ProtoTransform.deref ctx p)))
              ref = Proto.nonEmptyString value).
  { rewrite (matcher_deref _ ref p) by (now rewrite otelLogAttrs_assign).
    rewrite (deref_assign_same ctx ref p _ Hp), Hpath, read_lookup.
    destruct (lookup_upsertKey_same (ProtoTransform.deref ctx p) k (stringAnyValue value))
      as (kv & -> & ->). reflexivity. }
  assert (Hframe :
            forall ref' : LogFieldRef,
              refKind ref' <> refKind ref \/ Proto.attrPath ref' <> k ->
              Proto.OTelLogMatcher
                (ProtoTransform.assign ctx p
                   (AttrModel.upsertKey k (stringAnyValue value)
                      (ProtoTransform.deref ctx p))) ref'
              = Proto.OTelLogMatcher ctx ref').
  { intros ref' Href.
    apply (matcher_frame ctx ref ref' p _ (fun x => x = k) Hp); [|exact Href].
    intros k' Hk'. now apply lookup_upsertKey_other. }
  destruct (Claims.lookup (ProtoTransform.deref ctx p) k) eqn:El; [destruct upsert|]; simpl.
  - split; [discriminate|]. split; [intros _; exact Hread | exact Hframe].
  - split; [reflexivity|]. split; [intros [H|H]; discriminate | reflexivity].
  - split; [intros _ H; now elim H|]. split; [intros _; exact Hread | exact Hframe].
Qed.

Lemma otelLogAdd_then_read_witness :
  Proto.OTelLogMatcher
    (snd (ProtoTransform.otelLogAdd Claims.sampleContext (Claims.attrRef "new") "v" false))
    (Claims.attrRef "new") = Proto.nonEmptyString "v".
Proof.
  refine (proj1 (proj2 (otelLogAdd_then_read Claims.sampleContext (Claims.attrRef "new")
                          "new" "v" false ProtoTransform.RecordAttrs eq_refl _ eq_refl)) _).
  - discriminate.
  - right. reflexivity.
Defined.

(** X9. Redact, then read: a redact of an attribute that does not exist
    leaves the context as it is (no attribute is created); a redact of an
    existing attribute makes it read as the replacement, keeps the keys of
    the list and their order, and does not affect the reads of other keys,
    lists and fields. *)
Theorem otelLogRedact_then_read :
  forall (ctx : Proto.LogContext) (ref : LogFieldRef) (k replacement : string)
         (p : ProtoTransform.AttrsPtr),
    AttrPath ref = [k] -> k <> "" ->
    ProtoTransform.otelLogAttrs ctx ref = Some p ->
    let ctx' := snd (ProtoTransform.otelLogRedact ctx ref replacement) in
    (Claims.lookup (ProtoTransform.deref ctx p) k = None -> ctx' = ctx)
    /\ (Claims.lookup (ProtoTransform.deref ctx p) k <> None ->
        Proto.OTelLogMatcher ctx' ref = Proto.nonEmptyString replacement)
    /\ AttrModel.keys (ProtoTransform.deref ctx' p)
       = AttrModel.keys (ProtoTransform.deref ctx p)
    /\ (forall ref' : LogFieldRef,
          refKind ref' <> refKind ref \/ Proto.attrPath ref' <> k ->
          Proto.OTelLogMatcher ctx' ref' = Proto.OTelLogMatcher ctx ref').
Proof.
  intros ctx ref k replacement p Hpath Hk Hp ctx'. subst ctx'.
  pose proof (attrPath_single ref k Hpath) as Hattr.
  rewrite (otelLogRedact_model ctx ref p replacement Hp) by (now rewrite Hattr).
  rewrite Hattr.
  destruct (Claims.lookup (ProtoTransform.deref ctx p) k) eqn:El; simpl.
  - split; [discriminate|]. split; [|split].
    + intros _. rewrite (matcher_deref _ ref p) by (now rewrite otelLogAttrs_assign).
      rewrite (deref_assign_same ctx ref p _ Hp), Hpath, read_lookup.
      destruct (lookup_setFirst_same (ProtoTransform.deref ctx p) k
                  (stringAnyValue replacement)) as (kv & -> & ->);
        [rewrite El; discriminate | reflexivity].
    + rewrite (deref_assign_same ctx ref p _ Hp). apply keys_setFirst.
    + intros ref' Href.
      apply (matcher_frame ctx ref ref' p _ (fun x => x = k) Hp); [|exact Href].
      intros k' Hk'. now apply lookup_setFirst_other.
  - split; [reflexivity|]. split; [intro H; now elim H|]. split; reflexivity.
Qed.

Lemma otelLogRedact_then_read_witness :
  Proto.OTelLogMatcher
    (snd (ProtoTransform.otelLogRedact Claims.sampleContext (Claims.attrRef "a") "***"))
    (Claims.attrRef "a") = Proto.nonEmptyString "***".
Proof.
  refine (proj1 (proj2 (otelLogRedact_then_read Claims.sampleContext (Claims.attrRef "a")
                          "a" "***" ProtoTransform.RecordAttrs eq_refl _ eq_refl)) _);
    discriminate.
Defined.

(** X10. Rename moves what the source read as: when the source attribute
    exists and the rename is not blocked (upsert, or no attribute with the
    target key), the rename returns true, the target holds a string value
    and reads as the source read before (a source that is not a non-empty
    string leaves an empty string behind), the source reads as absent when
    the keys of the list were pairwise different, and reads that concern
    neither key are not affected. *)
Theorem otelLogRename_moves_the_read :
  forall (ctx : Proto.LogContext) (ref : LogFieldRef) (k to : string) (upsert : bool)
         (p : ProtoTransform.AttrsPtr),
    AttrPath ref = [k] -> k <> "" -> to <> "" ->
    ProtoTransform.otelLogAttrs ctx ref = Some p ->
    Claims.lookup (ProtoTransform.deref ctx p) k <> None ->
    upsert = true \/ Claims.lookup (ProtoTransform.deref ctx p) to = None ->
    exists ctx',
      ProtoTransform.otelLogRename ctx ref to upsert = Some (true, ctx')
      /\ (exists kv,
            Claims.lookup (ProtoTransform.deref ctx' p) to = Some kv
            /\ kvValue kv
               = stringAnyValue (AttrModel.movedText (Proto.OTelLogMatcher ctx ref)))
      /\ Proto.OTelLogMatcher ctx' (mkRef (refKind ref) (Field ref) [to])
         = Proto.OTelLogMatcher ctx ref
      /\ (NoDup (AttrModel.keys (ProtoTransform.deref ctx p)) -> to <> k ->
          Proto.OTelLogMatcher ctx' ref = None)
      /\ (forall ref' : LogFieldRef,
            refKind ref' <> refKind ref
            \/ (Proto.attrPath ref' <> k /\ Proto.attrPath ref' <> to) ->
            Proto.OTelLogMatcher ctx' ref' = Proto.OTelLogMatcher ctx ref').
Proof.
  intros ctx ref k to upsert p Hpath Hk Hto Hp Hsrc Hfree.
  pose proof (attrPath_single ref k Hpath) as Hattr.
  rewrite (otelLogRename_model ctx ref p to upsert Hp) by (rewrite ?Hattr; assumption).
  rewrite Hattr.
  destruct (Claims.lookup (ProtoTransform.deref ctx p) k) as [kv|] eqn:El; [|now elim Hsrc].
  assert (Hblocked :
            (negb upsert
             && TransformClaims.isSome (Claims.lookup (ProtoTransform.deref ctx p) to))%bool
            = false).
  { destruct Hfree as [->| ->]; [reflexivity | now rewrite andb_false_r]. }
  rewrite Hblocked.
  assert (Hread : Proto.OTelLogMatcher ctx ref = Proto.anyValueBytes (kvValue kv)).
  { now rewrite (matcher_deref ctx ref p Hp), Hpath, read_lookup, El. }
  rewrite <- Hread.
  set (l1 := AttrModel.removeFirst k (ProtoTransform.deref ctx p)).
  set (v := stringAnyValue (AttrModel.movedText (Proto.OTelLogMatcher ctx ref))).
  assert (Hto_ref : ProtoTransform.otelLogAttrs ctx (mkRef (refKind ref) (Field ref) [to])
                    = Some p) by exact Hp.
  eexists. split; [reflexivity|].
  rewrite (deref_assign_same ctx ref p _ Hp).
  destruct (lookup_upsertKey_same l1 to v) as (kv' & Hkv' & Hv').
  split; [exists kv'; split; assumption|].
  split; [|split].
  - rewrite (matcher_deref _ _ p) by (now rewrite otelLogAttrs_assign).
    rewrite (deref_assign_same ctx ref p _ Hp).
    cbn [AttrPath]. rewrite read_lookup, Hkv', Hv'.
    subst v. rewrite anyValueBytes_string. apply movedText_read.
    apply OTelLogMatcher_not_empty.
  - intros Hn Hne.
    rewrite (matcher_deref _ ref p) by (now rewrite otelLogAttrs_assign).
    rewrite (deref_assign_same ctx ref p _ Hp), Hpath, read_lookup.
    rewrite lookup_upsertKey_other by congruence.
    subst l1. now rewrite lookup_removeFirst_same.
  - intros ref' Href.
    apply (matcher_frame ctx ref ref' p _ (fun x => x = k \/ x = to) Hp).
    + intros k' Hk'. rewrite lookup_upsertKey_other by tauto.
      subst l1. apply lookup_removeFirst_other. tauto.
    + destruct Href as [H|H]; [now left | right; tauto].
Qed.

Lemma otelLogRename_moves_the_read_witness :
  exists ctx',
    ProtoTransform.otelLogRename Claims.sampleContext (Claims.attrRef "a") "c" false
    = Some (true, ctx')
    /\ Proto.OTelLogMatcher ctx' (Claims.attrRef "c")
       = Proto.OTelLogMatcher Claims.sampleContext (Claims.attrRef "a").
Proof.
  destruct (otelLogRename_moves_the_read Claims.sampleContext (Claims.attrRef "a")
              "a" "c" false ProtoTransform.RecordAttrs eq_refl)
    as (ctx' & H1 & _ & H2 & _);
    [discriminate | discriminate | reflexivity | discriminate | right; reflexivity |].
  exists ctx'. split; [exact H1 | exact H2].
Defined.

(** ** Hexadecimal IDs of the pdata runner *)

Section HexFacts.
Import Pdata.

Lemma fromHexChar_hexDigit (n : N) :
  (n < 16)%N -> fromHexChar (hexDigit n) = Some n.
Proof.
  intro H. destruct n as [|q]; [reflexivity|].
  do 4 (try destruct q as [q|q|]); try lia; reflexivity.
Qed.

Lemma byte_of_N_split (x : byte) :
  byte_of_N (Byte.to_N x / 16 * 16 + Byte.to_N x mod 16) = x.
Proof.
  unfold byte_of_N.
  replace (Byte.to_N x / 16 * 16 + Byte.to_N x mod 16)%N with (Byte.to_N x)
    by (rewrite (N.div_mod (Byte.to_N x) 16) at 1 by discriminate; lia).
  now rewrite Byte.of_to_N.
Qed.

Lemma DecodeString_EncodeToString (b : bytes) :
  DecodeString (EncodeToString b) = Some b.
Proof.
  induction b as [|x r IH]; [reflexivity|].
  cbn [EncodeToString DecodeString].
  rewrite (fromHexChar_hexDigit _ (ZigSamplerFacts.div16_lt x)).
  rewrite (fromHexChar_hexDigit _ (ZigSamplerFacts.mod16_lt x)).
  now rewrite IH, byte_of_N_split.
Qed.

Lemma traceIDFromString_hex (id : bytes) :
  List.length id = 16 -> traceIDFromString (EncodeToString id) = id.
Proof.
  intro H. unfold traceIDFromString. now rewrite DecodeString_EncodeToString, H.
Qed.

Lemma spanIDFromString_hex (id : bytes) :
  List.length id = 8 -> spanIDFromString (EncodeToString id) = id.
Proof.
  intro H. unfold spanIDFromString. now rewrite DecodeString_EncodeToString, H.
Qed.

Lemma hexID_some (id h : bytes) :
  hexID id = Some h -> string_of_list_byte h = EncodeToString id.
Proof.
  unfold hexID, to_bytes. destruct (IsEmpty id); [discriminate|].
  intro H. injection H as <-. apply string_of_list_byte_of_string.
Qed.

End HexFacts.

(** X11. The hexadecimal text the pdata log matcher reads for the trace ID
    (16 bytes) or the span ID (8 bytes) converts back to the same ID: a
    redact of the field with the text read from it leaves the context as it
    is. *)
Theorem pdata_id_hex_round_trip :
  forall (ctx : Pdata.LogContext) (tref sref : LogFieldRef) (h : bytes),
    IsField tref = true -> Field tref = LogFieldTraceID ->
    IsField sref = true -> Field sref = LogFieldSpanID ->
    (List.length (Pdata.TraceID (Pdata.Record_ ctx)) = 16 ->
     Pdata.OTelLogMatcher ctx tref = Some h ->
     Pdata.traceIDFromString (string_of_list_byte h) = Pdata.TraceID (Pdata.Record_ ctx)
     /\ snd (Pdata.otelLogRedact ctx tref (string_of_list_byte h)) = ctx)
    /\ (List.length (Pdata.SpanID (Pdata.Record_ ctx)) = 8 ->
        Pdata.OTelLogMatcher ctx sref = Some h ->
        Pdata.spanIDFromString (string_of_list_byte h) = Pdata.SpanID (Pdata.Record_ ctx)
        /\ snd (Pdata.otelLogRedact ctx sref (string_of_list_byte h)) = ctx).
Proof.
  intros ctx tref sref h Ht Hft Hs Hfs.
  unfold Pdata.OTelLogMatcher, Pdata.otelLogRedact. rewrite Ht, Hft, Hs, Hfs.
  split; intros Hlen Hread; apply hexID_some in Hread; rewrite Hread.
  - rewrite (traceIDFromString_hex _ Hlen). split; [reflexivity|].
    destruct ctx as [[] ? ? ? ?]; reflexivity.
  - rewrite (spanIDFromString_hex _ Hlen). split; [reflexivity|].
    destruct ctx as [[] ? ? ? ?]; reflexivity.
Qed.

Lemma pdata_id_hex_round_trip_witness :
  let ctx :=
    Pdata.mkLogContext
      (Pdata.mkLogRecord Pdata.ValueTypeEmpty "" SamplerExamples.aaTraceID
         Pdata.NewSpanIDEmpty "" [])
      [] (Pdata.mkScope "" "" []) "" "" in
  snd (Pdata.otelLogRedact ctx (Claims.fieldRef LogFieldTraceID)
         "aaaaaaaaaaaaaaaaaaaaaaaaaaaaaaaa") = ctx.
Proof.
  intro ctx.
  exact (proj2 (proj1 (pdata_id_hex_round_trip ctx (Claims.fieldRef LogFieldTraceID)
                         (Claims.fieldRef LogFieldSpanID)
                         (list_byte_of_string "aaaaaaaaaaaaaaaaaaaaaaaaaaaaaaaa")
                         eq_refl eq_refl eq_refl eq_refl) eq_refl eq_refl)).
Defined.

(** ** The two versions of the protobuf log matcher *)

Lemma findAttribute_read (attrs : list KeyValue) (k : string) :
  Proto.findAttribute attrs k = Proto.findAttributePath attrs [k].
Proof.
  rewrite read_lookup.
  induction attrs as [|x r IH]; [reflexivity|].
  simpl. destruct (kvKey x =? k); [reflexivity | exact IH].
Qed.

(** X12. The path based log matcher extends the first version, which read
    attributes by the first key of the path: for a reference whose path has
    at most one key, every read the first version answers is answered the
    same by the path based matcher. *)
Theorem OTelLogMatcher_extends_first_version :
  forall (ctx : Proto.LogContext) (ref : LogFieldRef) (b : bytes),
    List.length (AttrPath ref) <= 1 ->
    ProtoV1.OTelLogMatcher ctx ref = Some b ->
    Proto.OTelLogMatcher ctx ref = Some b.
Proof.
  intros ctx ref b Hlen.
  unfold ProtoV1.OTelLogMatcher, Proto.OTelLogMatcher.
  destruct (IsField ref).
  - destruct (Field ref); try discriminate; exact (fun H => H).
  - unfold Proto.attrPath.
    destruct (AttrPath ref) as [|k [|k' rest]]; [| |simpl in Hlen; lia].
    + destruct (IsRecordAttr ref), (IsResourceAttr ref), (IsScopeAttr ref); discriminate.
    + destruct (k =? "");
        [destruct (IsRecordAttr ref), (IsResourceAttr ref), (IsScopeAttr ref); discriminate|].
      rewrite !findAttribute_read. exact (fun H => H).
Qed.

Lemma OTelLogMatcher_extends_first_version_witness :
  Proto.OTelLogMatcher Claims.sampleContext (Claims.attrRef "a")
  = Some (list_byte_of_string "x").
Proof.
  apply (OTelLogMatcher_extends_first_version Claims.sampleContext (Claims.attrRef "a"));
    [simpl; lia | reflexivity].
Defined.

(** ** The Zig and the Go log accessor side by side *)

Section ConformanceFacts.
Import Conformance.

Lemma zig_go_anyValue (v : option AnyValue) :
  asBytes (Zig.anyValueString v) = Proto.anyValueBytes v.
Proof.
  destruct v as [[[inner|]]|]; try reflexivity.
  destruct inner; try reflexivity. simpl.
  rewrite length_zero_eqb. destruct (StringValue =? ""); reflexivity.
Qed.

Lemma zig_go_path (path : list string) :
  forall attrs, asBytes (Zig.findAttributePath attrs path) = Proto.findAttributePath attrs path.
Proof.
  induction path as [|p0 rest IH]; intros attrs; [reflexivity|].
  induction attrs as [|kv tl IHtl]; [reflexivity|].
  simpl in *. destruct (kvKey kv =? p0); simpl; [|exact IHtl].
  destruct rest as [|k rest']; [apply zig_go_anyValue|]. simpl.
  destruct (kvValue kv) as [[[inner|]]|]; try reflexivity.
  destruct inner; try reflexivity.
  destruct KvlistValue; [apply IH | reflexivity].
Qed.

Lemma zig_go_nonEmpty (s : string) :
  asBytes (Zig.nonEmpty s) = Proto.nonEmptyString s.
Proof.
  unfold Zig.nonEmpty, Proto.nonEmptyString. rewrite length_zero_eqb.
  destruct (s =? ""); reflexivity.
Qed.

Lemma zig_go_id (b : option bytes) :
  asBytes (Zig.nonEmptyId b) = Proto.nonEmptyBytes b.
Proof.
  destruct b as [[|x r]|]; try reflexivity.
  unfold Zig.nonEmptyId, Zig.nonEmpty, Proto.nonEmptyBytes.
  rewrite length_zero_eqb.
  destruct (String.eqb_spec (string_of_list_byte (x :: r)) "") as [E|E].
  - apply (f_equal list_byte_of_string) in E.
    rewrite list_byte_of_string_of_list_byte in E. discriminate.
  - simpl asBytes. now rewrite list_byte_of_string_of_list_byte.
Qed.

End ConformanceFacts.

(** X13. The Zig log accessor and the Go log matcher agree: on the same
    record, resource and scope, for every field reference, they read the
    same bytes or both read nothing. *)
Theorem zig_and_go_log_accessors_agree :
  forall (lc : Zig.LogContext) (f : Zig.FieldRef),
    Conformance.asBytes (Zig.logFieldAccessor lc f)
    = Proto.OTelLogMatcher (Conformance.goContext lc) (Conformance.goRef f).
Proof.
  intros lc [lf|path|path|path]; try apply zig_go_path.
  destruct lf; try reflexivity; try apply zig_go_nonEmpty; try apply zig_go_id.
  exact (zig_go_anyValue (LogRecord.Body (Zig.record lc))).
Qed.

(** ** The Zig log mutator *)

Section ZigMutatorFacts.
Import AttrModel Conformance.

(** The index the Zig code computes designates the first entry with the
    key. *)
Lemma zig_index_from (attrs : list KeyValue) (k : string) (v : option AnyValue) :
  forall i,
    match Zig.findAttrIndexFrom i attrs k with
    | Some idx =>
        i <= idx
        /\ Zig.orderedRemove (idx - i) attrs = removeFirst k attrs
        /\ Zig.setValueAt (idx - i) v attrs = setFirst k v attrs
        /\ nth_error attrs (idx - i) = Claims.lookup attrs k
        /\ Claims.lookup attrs k <> None
    | None => Claims.lookup attrs k = None
    end.
Proof.
  unfold Zig.orderedRemove.
  induction attrs as [|x r IH]; intro i; [reflexivity|].
  simpl. destruct (kvKey x =? k).
  - rewrite Nat.sub_diag. repeat split; auto. discriminate.
  - specialize (IH (S i)).
    destruct (Zig.findAttrIndexFrom (S i) r k) as [idx|]; [|exact IH].
    destruct IH as (Hle & Hrem & Hset & Hnth & Hsome).
    replace (idx - i) with (S (idx - S i)) by lia.
    set (n := idx - S i) in *.
    split; [lia|]. split; [exact (f_equal (cons x) Hrem)|].
    split; [exact (f_equal (cons x) Hset)|]. split; assumption.
Qed.

Lemma zig_index (attrs : list KeyValue) (k : string) (v : option AnyValue) :
  match Zig.findAttrIndex attrs k with
  | Some idx =>
      Zig.orderedRemove idx attrs = removeFirst k attrs
      /\ Zig.setValueAt idx v attrs = setFirst k v attrs
      /\ nth_error attrs idx = Claims.lookup attrs k
      /\ Claims.lookup attrs k <> None
  | None => Claims.lookup attrs k = None
  end.
Proof.
  unfold Zig.findAttrIndex. pose proof (zig_index_from attrs k v 0) as H.
  destruct (Zig.findAttrIndexFrom 0 attrs k) as [idx|]; [|exact H].
  rewrite Nat.sub_0_r in H. tauto.
Qed.

Lemma zig_removeAttr_model (lc : Zig.LogContext) (p : Zig.AttrsPtr) (k : string) :
  Zig.removeAttr lc p (Some k)
  = match Claims.lookup (Zig.items lc p) k with
    | Some _ => (true, Zig.setItems lc p (removeFirst k (Zig.items lc p)))
    | None => (false, lc)
    end.
Proof.
  unfold Zig.removeAttr. pose proof (zig_index (Zig.items lc p) k None) as H.
  destruct (Zig.findAttrIndex (Zig.items lc p) k) as [idx|].
  - destruct H as (-> & _ & _ & Hs).
    destruct (Claims.lookup (Zig.items lc p) k); [reflexivity | now elim Hs].
  - now rewrite H.
Qed.

Lemma zig_setAttr_model (lc : Zig.LogContext) (p : Zig.AttrsPtr) (k value : string) :
  Zig.setAttr lc p (Some k) value
  = (true, Zig.setItems lc p (upsertKey k (stringAnyValue value) (Zig.items lc p))).
Proof.
  unfold Zig.setAttr, upsertKey.
  pose proof (zig_index (Zig.items lc p) k (stringAnyValue value)) as H.
  destruct (Zig.findAttrIndex (Zig.items lc p) k) as [idx|].
  - destruct H as (_ & -> & _ & Hs).
    destruct (Claims.lookup (Zig.items lc p) k); [reflexivity | now elim Hs].
  - now rewrite H.
Qed.

(** A rename that is not blocked: the first entry with the source key is
    taken out, an entry with the target key is taken out as well, and the
    value goes to the end of the list under the target key. *)
Lemma zig_mutRename_model (lc : Zig.LogContext) (p : Zig.AttrsPtr) (k to : string)
  (upsert : bool) (kv : KeyValue) :
  hasContainer lc p = true ->
  Claims.lookup (Zig.items lc p) k = Some kv ->
  upsert = true \/ Claims.lookup (Zig.items lc p) to = None ->
  Claims.lookup (removeFirst k (Zig.items lc p)) to = None \/ upsert = true ->
  Zig.mutRename lc (zigRef p [k]) to upsert
  = (true, Zig.setItems lc p
             (removeFirst to (removeFirst k (Zig.items lc p)) ++ [mkKeyValue to (kvValue kv)])).
Proof.
  intros Hc Hk Hfree Hfree'. unfold Zig.mutRename.
  assert (Ht : Zig.renameTarget lc (zigRef p [k]) = Some (p, Some k)).
  { destruct p; simpl in *; [reflexivity| |].
    - destruct (Zig.resource lc); [reflexivity | discriminate].
    - destruct (Zig.scope lc); [reflexivity | discriminate]. }
  rewrite Ht.
  pose proof (zig_index (Zig.items lc p) k None) as Hi.
  destruct (Zig.findAttrIndex (Zig.items lc p) k) as [src|];
    [|rewrite Hk in Hi; discriminate].
  destruct Hi as (-> & _ & -> & _). rewrite Hk.
  pose proof (zig_index (Zig.items lc p) to None) as Hto.
  pose proof (zig_index (removeFirst k (Zig.items lc p)) to None) as Hto1.
  assert (Habsent : forall l, Claims.lookup l to = None -> removeFirst to l = l).
  { induction l as [|x r IH]; [reflexivity|]. simpl.
    destruct (kvKey x =? to); [discriminate|]. intro H. now rewrite IH. }
  destruct upsert; simpl.
  - destruct (Zig.findAttrIndex (removeFirst k (Zig.items lc p)) to) as [ti|].
    + destruct Hto1 as (-> & _). reflexivity.
    + now rewrite (Habsent _ Hto1).
  - destruct Hfree as [H|H]; [discriminate|].
    destruct (Zig.findAttrIndex (Zig.items lc p) to) as [ti|];
      [destruct Hto as (_ & _ & _ & Hs); now elim Hs|].
    destruct Hfree' as [H'|H']; [|discriminate].
    now rewrite (Habsent _ H').
Qed.

Lemma goContext_setItems (lc : Zig.LogContext) (p : Zig.AttrsPtr) (l : list KeyValue) :
  goContext (Zig.setItems lc p l) = ProtoTransform.assign (goContext lc) (goPtr p) l.
Proof.
  destruct p; simpl; [reflexivity| |]; unfold goContext; simpl.
  - destruct (Zig.resource lc) eqn:E; simpl; now rewrite ?E.
  - destruct (Zig.scope lc) eqn:E; simpl; now rewrite ?E.
Qed.

Lemma items_deref (lc : Zig.LogContext) (p : Zig.AttrsPtr) :
  Zig.items lc p = ProtoTransform.deref (goContext lc) (goPtr p).
Proof. destruct p; reflexivity. Qed.

Lemma items_setItems (lc : Zig.LogContext) (p : Zig.AttrsPtr) (l : list KeyValue) :
  hasContainer lc p = true -> Zig.items (Zig.setItems lc p l) p = l.
Proof.
  destruct p; simpl; [reflexivity| |].
  - destruct (Zig.resource lc) eqn:E; [|discriminate]. simpl. now rewrite ?E.
  - destruct (Zig.scope lc) eqn:E; [|discriminate]. simpl. now rewrite ?E.
Qed.

Lemma hasContainer_setItems (lc : Zig.LogContext) (p : Zig.AttrsPtr) (l : list KeyValue) :
  hasContainer (Zig.setItems lc p l) p = hasContainer lc p.
Proof.
  destruct p; simpl; [reflexivity| |].
  - destruct (Zig.resource lc) eqn:E; simpl; now rewrite ?E.
  - destruct (Zig.scope lc) eqn:E; simpl; now rewrite ?E.
Qed.

Lemma setItems_setItems (lc : Zig.LogContext) (p : Zig.AttrsPtr) (l1 l2 : list KeyValue) :
  Zig.setItems (Zig.setItems lc p l1) p l2 = Zig.setItems lc p l2.
Proof.
  destruct p; simpl; [reflexivity| |].
  - destruct (Zig.resource lc) eqn:E; simpl; now rewrite ?E.
  - destruct (Zig.scope lc) eqn:E; simpl; now rewrite ?E.
Qed.

Lemma lookup_Permutation (attrs : list KeyValue) (k : string) (kv : KeyValue) :
  Claims.lookup attrs k = Some kv -> Permutation attrs (kv :: removeFirst k attrs).
Proof.
  induction attrs as [|x r IH]; simpl; [discriminate|].
  destruct (kvKey x =? k).
  - intro H. injection H as <-. apply Permutation_refl.
  - intro H. apply perm_trans with (x :: kv :: removeFirst k r).
    + apply perm_skip. now apply IH.
    + apply perm_swap.
Qed.

Lemma removeFirst_snoc_absent (attrs : list KeyValue) (k : string) (kv : KeyValue) :
  Claims.lookup attrs k = None -> kvKey kv = k ->
  removeFirst k (attrs ++ [kv]) = attrs.
Proof.
  intros Hl Hk. induction attrs as [|x r IH]; simpl in *.
  - rewrite Hk, String.eqb_refl. reflexivity.
  - destruct (kvKey x =? k); [discriminate|]. now rewrite IH.
Qed.

End ZigMutatorFacts.

(** X14. The Zig mutator and the Go transformer agree on attributes: for
    an attribute reference whose first key is not empty, a Zig remove and a
    Go remove, and a Zig set and a Go add with upsert, return the same hit
    flag and leave the same record, resource and scope. *)
Theorem zig_and_go_attribute_mutations_agree :
  forall (lc : Zig.LogContext) (f : Zig.FieldRef) (value : string) (upsert : bool),
    Conformance.keyedAttribute f = true ->
    Conformance.goResult (Zig.mutRemove lc f)
    = ProtoTransform.otelLogRemove (Conformance.goContext lc) (Conformance.goRef f)
    /\ Conformance.goResult (Zig.mutSet lc f value upsert)
       = ProtoTransform.otelLogAdd (Conformance.goContext lc) (Conformance.goRef f) value true.
Proof.
  intros lc f value upsert Hk.
  assert (Hcase :
            forall (p : Zig.AttrsPtr) (path : list string),
              Conformance.keyedAttribute (Conformance.zigRef p path) = true ->
              Conformance.hasContainer lc p = true ->
              Conformance.goResult (Zig.removeAttr lc p (Zig.attrKey path))
              = ProtoTransform.otelLogRemove (Conformance.goContext lc)
                  (Conformance.goRef (Conformance.zigRef p path))
              /\ Conformance.goResult (Zig.setAttr lc p (Zig.attrKey path) value)
                 = ProtoTransform.otelLogAdd (Conformance.goContext lc)
                     (Conformance.goRef (Conformance.zigRef p path)) value true).
  { intros p path Hkey Hc.
    assert (Hp : ProtoTransform.otelLogAttrs (Conformance.goContext lc)
                   (Conformance.goRef (Conformance.zigRef p path))
                 = Some (Conformance.goPtr p)).
    { destruct p; simpl in *; [reflexivity| |]; unfold ProtoTransform.otelLogAttrs; simpl.
      - destruct (Zig.resource lc); [reflexivity | discriminate].
      - destruct (Zig.scope lc); [reflexivity | discriminate]. }
    assert (Hpath : exists k rest, path = k :: rest /\ k <> "").
    { destruct p; simpl in Hkey; destruct path as [|k rest]; try discriminate;
        exists k, rest; (split; [reflexivity|]);
        intros ->; discriminate. }
    destruct Hpath as (k & rest & -> & Hne).
    assert (Hattr : Proto.attrPath (Conformance.goRef (Conformance.zigRef p (k :: rest))) = k)
      by (destruct p; reflexivity).
    rewrite (otelLogRemove_model _ _ _ Hp) by (now rewrite Hattr).
    rewrite (otelLogAdd_model _ _ _ value true Hp) by (now rewrite Hattr).
    rewrite Hattr, <- items_deref. cbn [Zig.attrKey].
    rewrite zig_removeAttr_model, zig_setAttr_model.
    unfold Conformance.goResult.
    split; destruct (Claims.lookup (Zig.items lc p) k); cbn [fst snd];
      rewrite ?goContext_setItems; reflexivity. }
  destruct f as [lf|path|path|path]; [discriminate| | |].
  - exact (Hcase Zig.RecordAttrs path Hk eq_refl).
  - simpl. destruct (Zig.resource lc) eqn:E.
    + apply (Hcase Zig.ResourceAttrs path Hk). simpl. now rewrite E.
    + unfold ProtoTransform.otelLogRemove, ProtoTransform.otelLogAdd,
        ProtoTransform.otelLogAttrs, Conformance.goResult. simpl. rewrite E.
      split; reflexivity.
  - simpl. destruct (Zig.scope lc) eqn:E.
    + apply (Hcase Zig.ScopeAttrs path Hk). simpl. now rewrite E.
    + unfold ProtoTransform.otelLogRemove, ProtoTransform.otelLogAdd,
        ProtoTransform.otelLogAttrs, Conformance.goResult. simpl. rewrite E.
      split; reflexivity.
Qed.

Lemma zig_and_go_attribute_mutations_agree_witness :
  Conformance.goResult (Zig.mutRemove Claims.sampleZigContext (Zig.log_attribute ["a"]))
  = ProtoTransform.otelLogRemove Claims.sampleContext (Claims.attrRef "a").
Proof.
  exact (proj1 (zig_and_go_attribute_mutations_agree Claims.sampleZigContext
                  (Zig.log_attribute ["a"]) "v" false eq_refl)).
Defined.

(** X15. A Zig rename keeps the value as it is, whatever its type, and a
    rename back restores the attribute: in a list with pairwise different
    keys, renaming the attribute [k] to a key [b] that is not in use and
    then [b] back to [k] leaves the entries of the list as they were, the
    renamed entry now being the last. *)
Theorem zig_rename_there_and_back :
  forall (lc : Zig.LogContext) (p : Zig.AttrsPtr) (k b : string) (kv : KeyValue),
    Conformance.hasContainer lc p = true ->
    NoDup (AttrModel.keys (Zig.items lc p)) ->
    Claims.lookup (Zig.items lc p) k = Some kv ->
    Claims.lookup (Zig.items lc p) b = None ->
    let lc1 := snd (Zig.mutRename lc (Conformance.zigRef p [k]) b false) in
    let lc2 := snd (Zig.mutRename lc1 (Conformance.zigRef p [b]) k false) in
    Zig.items lc1 p
    = AttrModel.removeFirst k (Zig.items lc p) ++ [mkKeyValue b (kvValue kv)]
    /\ Zig.items lc2 p = AttrModel.removeFirst k (Zig.items lc p) ++ [kv]
    /\ Permutation (Zig.items lc2 p) (Zig.items lc p).
Proof.
  intros lc p k b kv Hc Hn Hk Hb lc1 lc2.
  set (l := Zig.items lc p) in *.
  assert (Hne : b <> k) by (intros ->; congruence).
  assert (Hb1 : Claims.lookup (AttrModel.removeFirst k l) b = None)
    by (now rewrite lookup_removeFirst_other).
  assert (Hk1 : Claims.lookup (AttrModel.removeFirst k l) k = None)
    by (now apply lookup_removeFirst_same).
  assert (Habsent : AttrModel.removeFirst b (AttrModel.removeFirst k l)
                    = AttrModel.removeFirst k l).
  { generalize Hb1. generalize (AttrModel.removeFirst k l).
    induction l0 as [|x r IH]; [reflexivity|]. simpl.
    destruct (kvKey x =? b); [discriminate|]. intro H. now rewrite IH. }
  assert (E1 : Zig.mutRename lc (Conformance.zigRef p [k]) b false
               = (true, Zig.setItems lc p
                          (AttrModel.removeFirst k l ++ [mkKeyValue b (kvValue kv)]))).
  { rewrite (zig_mutRename_model lc p k b false kv Hc Hk); fold l; auto.
    now rewrite Habsent. }
  subst lc2 lc1. rewrite E1. cbn [snd].
  set (l1 := AttrModel.removeFirst k l ++ [mkKeyValue b (kvValue kv)]).
  set (lc1 := Zig.setItems lc p l1).
  assert (Hitems1 : Zig.items lc1 p = l1) by (now apply items_setItems).
  assert (Hc1 : Conformance.hasContainer lc1 p = true)
    by (subst lc1; now rewrite hasContainer_setItems).
  assert (Hlb : Claims.lookup l1 b = Some (mkKeyValue b (kvValue kv))).
  { subst l1. rewrite lookup_snoc, Hb1. simpl. now rewrite String.eqb_refl. }
  assert (Hlk : Claims.lookup l1 k = None).
  { subst l1. rewrite lookup_snoc, Hk1. simpl.
    destruct (String.eqb_spec b k); [contradiction | reflexivity]. }
  assert (Hrem : AttrModel.removeFirst b l1 = AttrModel.removeFirst k l).
  { subst l1. now apply removeFirst_snoc_absent. }
  assert (Hkv : mkKeyValue k (kvValue kv) = kv).
  { pose proof (lookup_key l k kv Hk) as Hkey. destruct kv as [key val].
    simpl in *. now rewrite Hkey. }
  assert (E2 : Zig.mutRename lc1 (Conformance.zigRef p [b]) k false
               = (true, Zig.setItems lc1 p (AttrModel.removeFirst k l ++ [kv]))).
  { rewrite (zig_mutRename_model lc1 p b k false (mkKeyValue b (kvValue kv)) Hc1);
      rewrite ?Hitems1; auto.
    - rewrite Hrem. cbn [kvValue].
      assert (Hk1' : AttrModel.removeFirst k (AttrModel.removeFirst k l)
                     = AttrModel.removeFirst k l).
      { generalize Hk1. generalize (AttrModel.removeFirst k l).
        induction l0 as [|x r IH]; [reflexivity|]. simpl.
        destruct (kvKey x =? k); [discriminate|]. intro H. now rewrite IH. }
      now rewrite Hk1', Hkv.
    - left. now rewrite Hrem. }
  rewrite E2. cbn [snd]. subst lc1. rewrite setItems_setItems.
  rewrite !items_setItems by exact Hc.
  split; [reflexivity|]. split; [reflexivity|].
  apply Permutation_sym. apply perm_trans with (kv :: AttrModel.removeFirst k l).
  - now apply lookup_Permutation.
  - apply Permutation_cons_append.
Qed.

Lemma zig_rename_there_and_back_witness :
  Permutation
    (Zig.items
       (snd (Zig.mutRename
               (snd (Zig.mutRename Claims.sampleZigContext (Zig.log_attribute ["a"]) "c" false))
               (Zig.log_attribute ["c"]) "a" false))
       Zig.RecordAttrs)
    Claims.sampleAttrs.
Proof.
  refine (proj2 (proj2 (zig_rename_there_and_back Claims.sampleZigContext Zig.RecordAttrs
                          "a" "c" (mkKeyValue "a" (stringAnyValue "x"))
                          eq_refl _ eq_refl eq_refl))).
  repeat constructor; simpl; intuition discriminate.
Defined.

(** ** Matched policies and the statistics of the server *)

Lemma filter_all_true {A : Type} (f : A -> bool) (l : list A) :
  Forall (fun x => f x = true) l -> filter f l = l.
Proof.
  induction 1 as [|x r Hx _ IH]; [reflexivity|]. simpl. now rewrite Hx, IH.
Qed.

(** X16. [collectMatchedPolicies] returns a slice that is never nil: the
    IDs of the policies with a positive hit count, each as often as it is
    listed, in ascending byte-wise order. *)
Theorem collectMatchedPolicies_sorted :
  forall stats : list Stats.PolicyStats,
    exists matched,
      GoHarness.collectMatchedPolicies stats = Some matched
      /\ Sorted StatsClaims.ascending matched
      /\ Permutation matched
           (map Stats.sPolicyID (filter (fun s => N.ltb 0 (Stats.MatchHits s)) stats)).
Proof.
  intro stats. unfold GoHarness.collectMatchedPolicies.
  rewrite (append_fold (fun s => N.ltb 0 (Stats.MatchHits s)) Stats.sPolicyID stats None).
  set (ids := map Stats.sPolicyID (filter (fun s => N.ltb 0 (Stats.MatchHits s)) stats)).
  destruct (sortSlice_sorted string (fun s => s) ids) as [Hs Hp].
  destruct ids as [|x r] eqn:E.
  - exists []. repeat split; constructor.
  - exists (GoHarness.sortStrings (x :: r)).
    split; [reflexivity|]. split; [exact Hs | exact Hp].
Qed.

Section ServerFacts.
Import Server.
Local Open Scope Z_scope.

Lemma wrapInt64_add (a b : Z) : wrapInt64 (wrapInt64 a + b) = wrapInt64 (a + b).
Proof.
  unfold wrapInt64.
  replace ((a + 2 ^ 63) mod 2 ^ 64 - 2 ^ 63 + b + 2 ^ 63)
    with ((a + 2 ^ 63) mod 2 ^ 64 + b) by ring.
  rewrite Zplus_mod_idemp_l. f_equal. f_equal. ring.
Qed.

Lemma wrapInt64_idem (a : Z) : wrapInt64 (wrapInt64 a) = wrapInt64 a.
Proof.
  pose proof (wrapInt64_add a 0) as H. now rewrite !Z.add_0_r in H.
Qed.

Lemma get_set (m : statsMap) (id id' : string) (v : Z) :
  get (set m id v) id' = if (id =? id')%string then v else get m id'.
Proof.
  induction m as [|[k x] r IH]; simpl.
  - destruct (id =? id')%string; reflexivity.
  - destruct (String.eqb_spec k id) as [->|Hne]; simpl.
    + destruct (id =? id')%string; reflexivity.
    + rewrite IH. destruct (String.eqb_spec k id') as [->|Hne']; [|reflexivity].
      destruct (String.eqb_spec id id'); [congruence | reflexivity].
Qed.

Lemma keys_set (m : statsMap) (id : string) (v : Z) (x : string) :
  In x (map fst (set m id v)) <-> In x (map fst m) \/ x = id.
Proof.
  induction m as [|[k y] r IH]; simpl; [intuition|].
  destruct (String.eqb_spec k id) as [->|Hne]; simpl; [intuition|].
  rewrite IH. intuition.
Qed.

Lemma NoDup_set (m : statsMap) (id : string) (v : Z) :
  NoDup (map fst m) -> NoDup (map fst (set m id v)).
Proof.
  induction m as [|[k y] r IH]; simpl; intro H.
  - repeat constructor. simpl. tauto.
  - inversion H as [|? ? Hnin Hnd]; subst.
    destruct (String.eqb_spec k id) as [->|Hne]; simpl; [now constructor|].
    constructor; [|now apply IH].
    rewrite keys_set. intros [Hin|E]; [contradiction | congruence].
Qed.

Lemma values_set (m : statsMap) (id : string) (v : Z) (P : Z -> Prop) :
  P v -> Forall (fun e => P (snd e)) m -> Forall (fun e => P (snd e)) (set m id v).
Proof.
  intros Hv. induction 1 as [|[k y] r Hy Hr IH]; simpl; [repeat constructor; exact Hv|].
  destruct (k =? id)%string; constructor; simpl; auto.
Qed.

Lemma get_In (m : statsMap) (id : string) (v : Z) :
  NoDup (map fst m) -> In (id, v) m -> get m id = v.
Proof.
  induction m as [|[k y] r IH]; simpl; intros Hn Hin; [contradiction|].
  inversion Hn as [|? ? Hnin Hnd]; subst.
  destruct Hin as [E|Hin].
  - injection E as -> ->. now rewrite String.eqb_refl.
  - destruct (String.eqb_spec k id) as [->|Hne]; [|now apply IH].
    elim Hnin. apply in_map_iff. exists (id, v). now split.
Qed.

(** The invariants of the accumulation loop. *)
Lemma recordStats_invariant (statuses : list (option PolicySyncStatus)) :
  forall m : statsMap,
    NoDup (map fst m) ->
    Forall (fun e => snd e = wrapInt64 (snd e)) m ->
    NoDup (map fst (recordStats m statuses))
    /\ Forall (fun e => snd e = wrapInt64 (snd e)) (recordStats m statuses)
    /\ (forall id, In id (map fst (recordStats m statuses))
                   <-> In id (map fst m) \/ reported statuses id)
    /\ (forall id, wrapInt64 (get (recordStats m statuses) id)
                   = wrapInt64 (get m id + total statuses id)).
Proof.
  unfold recordStats, reported.
  induction statuses as [|st rest IH]; intros m Hn Hr.
  - simpl. repeat split; auto.
    + intros [H|(st & [] & _)]; exact H.
    + intro id. now rewrite Z.add_0_r.
  - cbn [fold_left total fold_right].
    set (step := if 0 <? GetMatchHits st
                 then set m (GetId st) (wrapInt64 (get m (GetId st) + GetMatchHits st))
                 else m).
    assert (Hn' : NoDup (map fst step))
      by (subst step; destruct (0 <? GetMatchHits st); [now apply NoDup_set | exact Hn]).
    assert (Hr' : Forall (fun e => snd e = wrapInt64 (snd e)) step).
    { subst step. destruct (0 <? GetMatchHits st); [|exact Hr].
      apply (values_set m _ _ (fun v => v = wrapInt64 v)); [|exact Hr].
      symmetry. apply wrapInt64_idem. }
    destruct (IH step Hn' Hr') as (H1 & H2 & H3 & H4).
    split; [exact H1|]. split; [exact H2|]. split.
    + intro id. rewrite H3. subst step.
      destruct (Z.ltb_spec 0 (GetMatchHits st)) as [Hpos|Hnpos].
      * rewrite keys_set. split.
        -- intros [[H| ->]|(s & Hin & Hid & Hh)]; auto.
           ++ right. exists st. simpl. auto.
           ++ right. exists s. simpl. auto.
        -- intros [H|(s & [<-|Hin] & Hid & Hh)]; auto.
           right. exists s. auto.
      * split.
        -- intros [H|(s & Hin & Hid & Hh)]; auto. right. exists s. simpl. auto.
        -- intros [H|(s & [<-|Hin] & Hid & Hh)]; auto; [lia|].
           right. exists s. auto.
    + intro id. rewrite H4. subst step.
      destruct (Z.ltb_spec 0 (GetMatchHits st)) as [Hpos|Hnpos]; simpl.
      * rewrite get_set. destruct (String.eqb_spec (GetId st) id) as [->|Hne].
        -- rewrite wrapInt64_add. apply f_equal. unfold total. ring.
        -- reflexivity.
      * reflexivity.
Qed.

End ServerFacts.

(** X17. The statistics of the server after the statuses of the clients
    were recorded in an empty store, whatever the order in which the map is
    visited: one entry for every policy that was reported with a positive
    hit count and for no other, in ascending order of the policy IDs, with
    the sum of the positive hit counts reported for it (in [int64]
    arithmetic). *)
Theorem getStats_after_recordStats :
  forall (statuses : list (option Server.PolicySyncStatus)) (visited : list (string * Z)),
    Permutation visited (Server.recordStats [] statuses) ->
    exists entries,
      Stats.getStats visited = Some entries
      /\ Sorted (fun a b => StatsClaims.ascending (Stats.hPolicyID a) (Stats.hPolicyID b))
           entries
      /\ NoDup (map Stats.hPolicyID entries)
      /\ (forall id, In id (map Stats.hPolicyID entries) <-> Server.reported statuses id)
      /\ (forall e, In e entries ->
                    Stats.hHits e
                    = Server.wrapInt64 (Server.total statuses (Stats.hPolicyID e))).
Proof.
  intros statuses visited Hperm.
  destruct (recordStats_invariant statuses [] (NoDup_nil _) (Forall_nil _))
    as (Hn & Hr & Hk & Hg).
  set (m := Server.recordStats [] statuses) in *.
  rewrite getStats_entries.
  destruct (sortSlice_sorted Stats.policyHit Stats.hPolicyID
              (map StatsClaims.serverHit visited)) as [Hs Hp].
  set (entries := Stats.sortSlice _ _) in *.
  assert (Hpm : Permutation entries (map StatsClaims.serverHit m)).
  { eapply perm_trans; [exact Hp|]. now apply Permutation_map. }
  assert (Hids : Permutation (map Stats.hPolicyID entries) (map fst m)).
  { eapply perm_trans; [apply Permutation_map; exact Hpm|].
    rewrite map_map. apply Permutation_refl. }
  exists entries. split; [reflexivity|]. split; [exact Hs|]. split; [|split].
  - apply (Permutation_NoDup (Permutation_sym Hids)). exact Hn.
  - intro id. split; intro H.
    + apply (Permutation_in _ Hids) in H. apply Hk in H. destruct H as [[]|H]. exact H.
    + apply (Permutation_in _ (Permutation_sym Hids)). apply Hk. now right.
  - intros e He. apply (Permutation_in _ Hpm) in He.
    apply in_map_iff in He as ([id v] & <- & Hin). simpl.
    rewrite Forall_forall in Hr. specialize (Hr (id, v) Hin). simpl in Hr.
    rewrite Hr, <- (get_In m id v Hn Hin), Hg. reflexivity.
Qed.

Lemma getStats_after_recordStats_witness :
  exists entries,
    Stats.getStats
      (Server.recordStats []
         [Some (Server.mkStatus "b" 2); None; Some (Server.mkStatus "a" 1);
          Some (Server.mkStatus "b" 3); Some (Server.mkStatus "c" 0)])
    = Some entries
    /\ NoDup (map Stats.hPolicyID entries).
Proof.
  destruct (getStats_after_recordStats
              [Some (Server.mkStatus "b" 2); None; Some (Server.mkStatus "a" 1);
               Some (Server.mkStatus "b" 3); Some (Server.mkStatus "c" 0)]
              _ (Permutation_refl _)) as (entries & H1 & _ & H2 & _).
  exists entries. split; [exact H1 | exact H2].
Defined.

(** An example: two clients report hits for [b]; [c] has none. *)
Example server_stats_example :
  Stats.getStats
    (Server.recordStats []
       [Some (Server.mkStatus "b" 2); None; Some (Server.mkStatus "a" 1);
        Some (Server.mkStatus "b" 3); Some (Server.mkStatus "c" 0)])
  = Some [Stats.mkHit "a" 1; Stats.mkHit "b" 5].
Proof. reflexivity. Qed.

(** ** The sink server *)

(** X18. The sink reports exactly the signals it holds data for: [hasData]
    is true precisely when [output] has an entry, every entry of [output]
    has at least one element under its own key, data arrives in the order
    of the requests, and after [reset] there is no data and no entry. *)
Theorem sink_output_reports_data :
  forall (s : Sink.sink) (a b : list Sink.RawMessage),
    (Sink.hasData s = true <-> Sink.output s <> [])
    /\ (forall key entries, In (key, entries) (Sink.output s) -> 0 < len entries)
    /\ NoDup (map fst (Sink.output s))
    /\ Sink.logs (Sink.appendLogs (Sink.appendLogs s a) b)
       = Sink.appendAll (Sink.logs s) (a ++ b)
    /\ Sink.output (Sink.reset s) = []
    /\ Sink.hasData (Sink.reset s) = false.
Proof.
  intros [l m t] a b. unfold Sink.hasData, Sink.output. simpl.
  split; [|split; [|split; [|split]]].
  - destruct (Nat.ltb 0 (len l)), (Nat.ltb 0 (len m)), (Nat.ltb 0 (len t)); simpl;
      split; try discriminate; try reflexivity; intro H; now elim H.
  - intros key entries.
    destruct (Nat.ltb_spec 0 (len l)), (Nat.ltb_spec 0 (len m)), (Nat.ltb_spec 0 (len t));
      simpl; intuition; match goal with H : (_, _) = (_, _) |- _ => injection H as <- <- end;
      assumption.
  - destruct (Nat.ltb 0 (len l)), (Nat.ltb 0 (len m)), (Nat.ltb 0 (len t)); simpl;
      repeat constructor; simpl; intuition discriminate.
  - destruct l as [l|]; simpl.
    + now rewrite app_assoc.
    + destruct a as [|x a]; simpl; [destruct b; reflexivity | reflexivity].
  - split; reflexivity.
Qed.

(** ** The evaluation loops *)

Section LoopFacts.
Import Process ProcessModel.

Variable Rec : Type.
Variable Eng : Type.
Variable evaluate : Evaluation Rec Eng.

Lemma evalRecords_logged (recs : list Rec) :
  forall eng log res sc,
    evalRecords Rec (Eng * list Rec) (logged evaluate) (eng, log) res sc recs
    = let '(kept, res', sc', eng') := evalRecords Rec Eng evaluate eng res sc recs in
      (kept, res', sc', (eng', log ++ recs)).
Proof.
  induction recs as [|rec rest IH]; intros eng log res sc.
  - simpl. now rewrite app_nil_r.
  - cbn [evalRecords]. unfold logged at 1. cbn [fst snd].
    destruct (evaluate eng res sc rec) as [[[[result rec'] res'] sc'] eng'].
    rewrite IH.
    destruct (evalRecords Rec Eng evaluate eng' res' sc' rest) as [[[kept res''] sc''] eng''].
    now rewrite <- app_assoc.
Qed.

Lemma evalScopes_logged (scopes : list (ScopeRecords Rec)) :
  forall eng log res,
    evalScopes Rec (Eng * list Rec) (logged evaluate) (eng, log) res scopes
    = let '(scopes', res', eng') := evalScopes Rec Eng evaluate eng res scopes in
      (scopes', res', (eng', log ++ flat_map Records scopes)).
Proof.
  induction scopes as [|sl rest IH]; intros eng log res.
  - simpl. now rewrite app_nil_r.
  - cbn [evalScopes flat_map]. rewrite evalRecords_logged.
    destruct (evalRecords Rec Eng evaluate eng res (Scope sl) (Records sl))
      as [[[kept res'] sc'] eng'].
    rewrite IH.
    destruct (evalScopes Rec Eng evaluate eng' res' rest) as [[rest' res''] eng''].
    now rewrite <- app_assoc.
Qed.

Lemma evalResources_logged (data : list (ResourceRecords Rec)) :
  forall eng log,
    evalResources Rec (Eng * list Rec) (logged evaluate) (eng, log) data
    = (fst (evalResources Rec Eng evaluate eng data),
       (snd (evalResources Rec Eng evaluate eng data), log ++ allRecords Rec data)).
Proof.
  induction data as [|rl rest IH]; intros eng log.
  - simpl. now rewrite app_nil_r.
  - cbn [evalResources]. unfold allRecords. cbn [flat_map]. rewrite evalScopes_logged.
    destruct (evalScopes Rec Eng evaluate eng (Resource rl) (Scopes rl))
      as [[scopes' res'] eng'].
    rewrite IH.
    destruct (evalResources Rec Eng evaluate eng' rest) as [rest' eng''].
    cbn [fst snd]. unfold allRecords. now rewrite <- app_assoc.
Qed.

Lemma prune_identity (data : list (ResourceRecords Rec)) :
  noEmptyContainer Rec data -> pruneResources Rec (pruneScopes Rec data) = data.
Proof.
  unfold noEmptyContainer, pruneResources, pruneScopes. intro H.
  assert (Hs : map (fun rl => mkResourceRecords (Resource rl)
                               (keepIf (fun sl => Nat.ltb 0 (List.length (Records sl)))
                                  (Scopes rl))) data = data).
  { induction H as [|rl r [_ Hrl] _ IH]; [reflexivity|]. simpl. rewrite IH. f_equal.
    rewrite keepIf_filter, filter_all_true; [destruct rl; reflexivity|].
    apply Forall_forall. intros sl Hin. rewrite Forall_forall in Hrl.
    apply length_pos_not_nil. now apply Hrl. }
  rewrite Hs, keepIf_filter. apply filter_all_true.
  apply Forall_forall. intros rl Hin. rewrite Forall_forall in H.
  apply length_pos_not_nil. now apply (H rl Hin).
Qed.

End LoopFacts.

(** X19. The processing loops hand every record of the input to the policy
    engine exactly once, in the order of the document (resource by
    resource, scope by scope): an evaluation that also logs the records it
    is given ends with the log of all the records of the input, and returns
    the same output and the same engine. *)
Theorem process_evaluates_each_record_once :
  forall (Rec Eng : Type) (evaluate : Process.Evaluation Rec Eng) (eng : Eng)
         (log : list Rec) (data : list (Process.ResourceRecords Rec)),
    Process.process Rec (Eng * list Rec) (ProcessModel.logged evaluate) (eng, log) data
    = (fst (Process.process Rec Eng evaluate eng data),
       (snd (Process.process Rec Eng evaluate eng data),
        log ++ Process.allRecords Rec data)).
Proof.
  intros Rec Eng evaluate eng log data. unfold Process.process.
  rewrite evalResources_logged.
  destruct (Process.evalResources Rec Eng evaluate eng data) as [data1 eng1].
  reflexivity.
Qed.

(** X20. Pruning removes nothing but empty containers: when the evaluated
    data has no resource container without scope containers and no scope
    container without records, the data handed to the marshaler is the
    evaluated data itself; and pruning the output again changes nothing. *)
Theorem process_prunes_only_empty_containers :
  forall (Rec Eng : Type) (evaluate : Process.Evaluation Rec Eng) (eng : Eng)
         (data : list (Process.ResourceRecords Rec)),
    let evaluated := fst (Process.evalResources Rec Eng evaluate eng data) in
    let out := fst (Process.process Rec Eng evaluate eng data) in
    (Process.noEmptyContainer Rec evaluated -> out = evaluated)
    /\ Process.pruneResources Rec (Process.pruneScopes Rec out) = out.
Proof.
  intros Rec Eng evaluate eng data evaluated out.
  assert (Hout : out = Process.pruneResources Rec (Process.pruneScopes Rec evaluated)).
  { subst out evaluated. unfold Process.process.
    now destruct (Process.evalResources Rec Eng evaluate eng data). }
  split.
  - intro H. rewrite Hout. now apply prune_identity.
  - apply prune_identity. rewrite Hout. apply pruned_noEmptyContainer.
Qed.

Lemma process_prunes_only_empty_containers_witness :
  fst (Process.processLogs unit ProcessExamples.dropDebug tt
         [Process.mkResourceRecords None [ProcessExamples.keptScope]])
  = [Process.mkResourceRecords None [ProcessExamples.keptScope]].
Proof.
  refine (proj1 (process_prunes_only_empty_containers LogRecord.t unit
                   (Process.evalLog unit ProcessExamples.dropDebug) tt
                   [Process.mkResourceRecords None [ProcessExamples.keptScope]]) _).
  repeat constructor; discriminate.
Defined.

(** ** The attribute operations of the pdata log transformer *)

Section PdataFacts.
Import Pdata.

Lemma Get_RemoveIf_same (m : Map) (k : string) :
  Get (RemoveIf m (fun k' _ => k' =? k)) k = None.
Proof.
  unfold RemoveIf. induction m as [|[k' v] r IH]; [reflexivity|].
  simpl. destruct (k' =? k) eqn:E; simpl; [exact IH|]. now rewrite E.
Qed.

Lemma Get_RemoveIf_other (m : Map) (k k' : string) :
  k' <> k -> Get (RemoveIf m (fun x _ => x =? k)) k' = Get m k'.
Proof.
  intro Hne. unfold RemoveIf. induction m as [|[x v] r IH]; [reflexivity|].
  simpl. destruct (String.eqb_spec x k) as [->|Hx]; simpl.
  - destruct (String.eqb_spec k k'); [congruence | exact IH].
  - now rewrite IH.
Qed.

Lemma Get_PutStr_same (m : Map) (k s : string) :
  Get (PutStr m k s) k = Some (ValueTypeStr s).
Proof.
  induction m as [|[x v] r IH]; simpl; [now rewrite String.eqb_refl|].
  destruct (x =? k) eqn:E; simpl; now rewrite E.
Qed.

Lemma Get_PutStr_other (m : Map) (k k' s : string) :
  k' <> k -> Get (PutStr m k s) k' = Get m k'.
Proof.
  intro Hne. induction m as [|[x v] r IH]; simpl.
  - destruct (String.eqb_spec k k'); [congruence | reflexivity].
  - destruct (String.eqb_spec x k) as [->|Hx]; simpl.
    + destruct (String.eqb_spec k k'); [congruence | reflexivity].
    + now rewrite IH.
Qed.

Lemma pdata_read (attrs : Map) (path : list string) :
  findAttributePath attrs path
  = match path with
    | [] => None
    | [k] => match Get attrs k with Some v => valueBytes v | None => None end
    | k :: rest =>
        match Get attrs k with
        | Some (ValueTypeMap m) => findAttributePath m rest
        | _ => None
        end
    end.
Proof.
  destruct path as [|k [|k' rest]]; simpl; try reflexivity;
    destruct (Get attrs k) as [[]|]; reflexivity.
Qed.

Lemma pdata_read_same (l1 l2 : Map) (path : list string) :
  (forall k rest, path = k :: rest -> Get l1 k = Get l2 k) ->
  findAttributePath l1 path = findAttributePath l2 path.
Proof.
  intro H. destruct path as [|k rest]; [reflexivity|].
  simpl. now rewrite (H k rest eq_refl).
Qed.

Lemma pdata_matcher_deref (ctx : LogContext) (ref : LogFieldRef) :
  IsField ref = false ->
  OTelLogMatcher ctx ref = findAttributePath (deref ctx (otelLogAttrs ref)) (AttrPath ref).
Proof.
  unfold OTelLogMatcher, otelLogAttrs. intros ->.
  destruct (IsRecordAttr ref); [reflexivity|].
  destruct (IsResourceAttr ref); [reflexivity|].
  destruct (IsScopeAttr ref); [reflexivity|].
  simpl. destruct (AttrPath ref); reflexivity.
Qed.

Lemma pdata_matcher_assign (ctx : LogContext) (ref ref' : LogFieldRef) (l' : Map)
  (changed : string -> Prop) :
  IsField ref = false ->
  (forall k', ~ changed k' ->
              Get l' k' = Get (deref ctx (otelLogAttrs ref)) k') ->
  refKind ref' <> refKind ref \/ ~ changed (attrPath ref') ->
  OTelLogMatcher (assign ctx (otelLogAttrs ref) l') ref' = OTelLogMatcher ctx ref'.
Proof.
  intros Hf Hsame Href.
  destruct (IsField ref') eqn:Hf'.
  { unfold OTelLogMatcher. rewrite Hf'.
    destruct (otelLogAttrs ref); reflexivity. }
  rewrite !pdata_matcher_deref by assumption.
  unfold otelLogAttrs, IsField, IsRecordAttr, IsResourceAttr, IsScopeAttr, attrPath in *.
  destruct (refKind ref) eqn:K, (refKind ref') eqn:K'; try discriminate;
    try reflexivity;
    (destruct Href as [H|H]; [now elim H|]);
    apply pdata_read_same; intros k rest Hp; rewrite Hp in H; now apply Hsame.
Qed.

End PdataFacts.

(** X21. In the pdata runner a remove takes out every entry with the key:
    whatever the attribute map holds, the removed attribute reads as absent
    afterwards, and every read of another key, of another map or of a fixed
    field returns what it returned before. *)
Theorem pdata_otelLogRemove_then_read :
  forall (ctx : Pdata.LogContext) (ref : LogFieldRef) (k : string),
    IsField ref = false -> AttrPath ref = [k] -> k <> "" ->
    Pdata.OTelLogMatcher (snd (Pdata.otelLogRemove ctx ref)) ref = None
    /\ (forall ref' : LogFieldRef,
          refKind ref' <> refKind ref \/ Pdata.attrPath ref' <> k ->
          Pdata.OTelLogMatcher (snd (Pdata.otelLogRemove ctx ref)) ref'
          = Pdata.OTelLogMatcher ctx ref').
Proof.
  intros ctx ref k Hf Hpath Hk.
  assert (Hattr : Pdata.attrPath ref = k) by (unfold Pdata.attrPath; now rewrite Hpath).
  unfold Pdata.otelLogRemove, Pdata.removeAttribute. rewrite Hf, Hattr.
  destruct (String.eqb_spec k ""); [contradiction|].
  destruct (Pdata.Get (Pdata.deref ctx (Pdata.otelLogAttrs ref)) k) eqn:Eg; simpl.
  - split.
    + rewrite pdata_matcher_deref by exact Hf. rewrite Hpath.
      unfold Pdata.otelLogAttrs in *.
      destruct (IsRecordAttr ref); [simpl; now rewrite Get_RemoveIf_same|].
      destruct (IsResourceAttr ref); [simpl; now rewrite Get_RemoveIf_same|].
      destruct (IsScopeAttr ref); [simpl; now rewrite Get_RemoveIf_same | reflexivity].
    + intros ref' Href.
      apply (pdata_matcher_assign ctx ref ref' _ (fun x => x = k) Hf); [|exact Href].
      intros k' Hk'. now apply Get_RemoveIf_other.
  - split; [|reflexivity].
    rewrite pdata_matcher_deref by exact Hf. rewrite Hpath. simpl. now rewrite Eg.
Qed.

Lemma pdata_otelLogRemove_then_read_witness :
  Pdata.OTelLogMatcher
    (snd (Pdata.otelLogRemove Claims.samplePdataContext (Claims.attrRef "a")))
    (Claims.attrRef "a") = None.
Proof.
  refine (proj1 (pdata_otelLogRemove_then_read Claims.samplePdataContext
                   (Claims.attrRef "a") "a" eq_refl eq_refl _)).
  discriminate.
Defined.

(** X22. A rename to the empty key drops the attribute: [setAttribute]
    refuses the empty key, so when the source attribute exists and the
    rename is not blocked, the rename returns true, the first entry with the
    source key is removed and no entry is written. *)
Theorem otelLogRename_to_empty_key_drops :
  forall (ctx : Proto.LogContext) (ref : LogFieldRef) (k : string) (upsert : bool)
         (p : ProtoTransform.AttrsPtr),
    AttrPath ref = [k] -> k <> "" ->
    ProtoTransform.otelLogAttrs ctx ref = Some p ->
    Claims.lookup (ProtoTransform.deref ctx p) k <> None ->
    upsert = true \/ Claims.lookup (ProtoTransform.deref ctx p) "" = None ->
    ProtoTransform.otelLogRename ctx ref "" upsert
    = Some (true,
            ProtoTransform.assign ctx p
              (AttrModel.removeFirst k (ProtoTransform.deref ctx p))).
Proof.
  intros ctx ref k upsert p Hpath Hk Hp Hsrc Hfree.
  pose proof (attrPath_single ref k Hpath) as Hattr.
  unfold ProtoTransform.otelLogRename.
  rewrite (otelLogAttrs_not_field ctx ref p Hp), Hp, Hattr.
  destruct (String.eqb_spec k ""); [contradiction|].
  cbv zeta. rewrite lookup_index_neg.
  destruct (Claims.lookup (ProtoTransform.deref ctx p) k) eqn:El; [|now elim Hsrc].
  rewrite findAttributeIndex_found.
  assert (Hb : (negb upsert
                && TransformClaims.isSome (Claims.lookup (ProtoTransform.deref ctx p) ""))%bool
               = false).
  { destruct Hfree as [->| ->]; [reflexivity | now rewrite andb_false_r]. }
  rewrite Hb.
  rewrite removeAt_removeFirst by (rewrite El; discriminate).
  destruct (Proto.anyValueBytes _); reflexivity.
Qed.

Lemma otelLogRename_to_empty_key_drops_witness :
  ProtoTransform.otelLogRename Claims.sampleContext (Claims.attrRef "a") "" false
  = Some (true,
          ProtoTransform.assign Claims.sampleContext ProtoTransform.RecordAttrs
            (AttrModel.removeFirst "a" Claims.sampleAttrs)).
Proof.
  apply (otelLogRename_to_empty_key_drops Claims.sampleContext (Claims.attrRef "a") "a"
           false ProtoTransform.RecordAttrs eq_refl);
    [discriminate | reflexivity | discriminate | right; reflexivity].
Defined.

(** ** Merging a threshold into a tracestate twice *)

Section OverwriteFacts.
Import TracestateModel.

Lemma hasChar_cons (c a : ascii) (s : string) :
  hasChar c (String a s) = (Ascii.eqb c a || hasChar c s)%bool.
Proof. reflexivity. Qed.

Lemma hasChar_app (c : ascii) (a b : string) :
  hasChar c (a ++ b) = (hasChar c a || hasChar c b)%bool.
Proof.
  induction a as [|x a IH]; [reflexivity|].
  cbn [append]. rewrite !hasChar_cons, IH. apply orb_assoc.
Qed.

Lemma Split_not_nil (s : string) (sep : ascii) : Split s sep <> [].
Proof.
  induction s as [|a r IH]; simpl; [discriminate|].
  destruct (Ascii.eqb a sep); [discriminate|].
  destruct (Split r sep); discriminate.
Qed.

Lemma Split_single (s : string) (sep : ascii) :
  hasChar sep s = false -> Split s sep = [s].
Proof.
  induction s as [|a r IH]; [reflexivity|].
  rewrite hasChar_cons. intro H. apply orb_false_elim in H as [Ha Hr].
  simpl. rewrite Ascii.eqb_sym, Ha, (IH Hr). reflexivity.
Qed.

Lemma Split_app (a b : string) (sep : ascii) :
  hasChar sep a = false -> Split (a ++ String sep b) sep = a :: Split b sep.
Proof.
  induction a as [|x a IH]; intro H.
  - simpl. now rewrite Ascii.eqb_refl.
  - rewrite hasChar_cons in H. apply orb_false_elim in H as [Hx Ha].
    cbn [append Split]. rewrite Ascii.eqb_sym, Hx, (IH Ha). reflexivity.
Qed.

Lemma Split_pieces (s : string) (sep : ascii) :
  Forall (fun p => hasChar sep p = false) (Split s sep).
Proof.
  induction s as [|a r IH]; simpl; [repeat constructor|].
  destruct (Ascii.eqb a sep) eqn:E; [constructor; [reflexivity | exact IH]|].
  destruct (Split r sep) as [|h t]; [repeat constructor; simpl|].
  - rewrite hasChar_cons, Ascii.eqb_sym, E. reflexivity.
  - inversion IH as [|? ? Hh Ht]; subst. constructor; [|exact Ht].
    now rewrite hasChar_cons, Ascii.eqb_sym, E.
Qed.

Lemma Split_pieces_free (s : string) (sep c : ascii) :
  hasChar c s = false -> Forall (fun p => hasChar c p = false) (Split s sep).
Proof.
  induction s as [|a r IH]; simpl; intro H; [repeat constructor|].
  rewrite hasChar_cons in H. apply orb_false_elim in H as [Ha Hr].
  specialize (IH Hr).
  destruct (Ascii.eqb a sep); [constructor; [reflexivity | exact IH]|].
  destruct (Split r sep) as [|h t]; [repeat constructor; simpl|].
  - rewrite hasChar_cons, Ha. reflexivity.
  - inversion IH as [|? ? Hh Ht]; subst. constructor; [|exact Ht].
    now rewrite hasChar_cons, Ha.
Qed.

Lemma concat_empty_cons (a : string) (l : list string) :
  String.concat "" (a :: l) = (a ++ String.concat "" l)%string.
Proof.
  destruct l as [|b l]; [simpl; now rewrite string_app_nil_r | reflexivity].
Qed.

Lemma Split_separated (sep : ascii) (l : list string) :
  forall a,
    hasChar sep a = false ->
    Forall (fun p => hasChar sep p = false) l ->
    Split (a ++ String.concat "" (map (fun x => String sep x) l)) sep = a :: l.
Proof.
  induction l as [|x r IH]; intros a Ha Hl.
  - simpl. rewrite string_app_nil_r. now apply Split_single.
  - inversion Hl as [|? ? Hx Hr]; subst.
    cbn [map]. rewrite concat_empty_cons. cbn [append].
    rewrite (Split_app a _ sep Ha). f_equal. now apply IH.
Qed.

Lemma Join_cons2 (a b : string) (r : list string) (sep : string) :
  Join (a :: b :: r) sep = (a ++ sep ++ Join (b :: r) sep)%string.
Proof. reflexivity. Qed.

Lemma Split_Join (sep : ascii) (l : list string) :
  l <> [] ->
  Forall (fun p => hasChar sep p = false) l ->
  Split (Join l (String sep "")) sep = l.
Proof.
  induction l as [|a r IH]; intros Hne Hl; [now elim Hne|].
  inversion Hl as [|? ? Ha Hr]; subst.
  destruct r as [|b r]; [now apply Split_single|].
  rewrite Join_cons2. cbn [append].
  rewrite (Split_app a _ sep Ha). f_equal. apply IH; [discriminate | exact Hr].
Qed.

Lemma hasChar_Join (c : ascii) (sep : string) (l : list string) :
  hasChar c sep = false ->
  Forall (fun p => hasChar c p = false) l ->
  hasChar c (Join l sep) = false.
Proof.
  intros Hsep. induction 1 as [|a r Ha Hr IH]; [reflexivity|].
  destruct r as [|b r]; [exact Ha|].
  rewrite Join_cons2, !hasChar_app, Ha, Hsep, IH. reflexivity.
Qed.

(** Trimming. *)

Lemma hasChar_trimLeft (c : ascii) (s : string) :
  hasChar c s = false -> hasChar c (Zig.trimLeft s) = false.
Proof.
  induction s as [|a r IH]; [reflexivity|]. intro H.
  simpl. destruct (Ascii.eqb a " "); [|exact H].
  rewrite hasChar_cons in H. apply orb_false_elim in H as [_ Hr]. now apply IH.
Qed.

Lemma hasChar_trimRight (c : ascii) (s : string) :
  hasChar c s = false -> hasChar c (Zig.trimRight s) = false.
Proof.
  induction s as [|a r IH]; [reflexivity|]. intro H.
  rewrite hasChar_cons in H. apply orb_false_elim in H as [Ha Hr].
  specialize (IH Hr). simpl.
  destruct (Zig.trimRight r) as [|x y].
  - destruct (Ascii.eqb a " "); [reflexivity|]. now rewrite hasChar_cons, Ha.
  - now rewrite hasChar_cons, Ha, IH.
Qed.

Lemma hasChar_trim (c : ascii) (s : string) :
  hasChar c s = false -> hasChar c (Zig.trim s) = false.
Proof. intro H. unfold Zig.trim. now apply hasChar_trimRight, hasChar_trimLeft. Qed.

Lemma hasChar_drop (c : ascii) (n : nat) :
  forall s, hasChar c s = false -> hasChar c (drop n s) = false.
Proof.
  induction n as [|n IH]; intros s H; [exact H|].
  destruct s as [|a r]; [reflexivity|].
  rewrite hasChar_cons in H. apply orb_false_elim in H as [_ Hr].
  simpl. now apply IH.
Qed.

Lemma trimRight_head (a : ascii) (r : string) :
  Ascii.eqb a " " = false -> Zig.trimRight (String a r) = String a (Zig.trimRight r).
Proof.
  intro H. simpl. rewrite H. destruct (Zig.trimRight r); reflexivity.
Qed.

Lemma trimRight_idem (s : string) : Zig.trimRight (Zig.trimRight s) = Zig.trimRight s.
Proof.
  induction s as [|a r IH]; [reflexivity|].
  simpl. destruct (Zig.trimRight r) as [|x y] eqn:E.
  - destruct (Ascii.eqb a " ") eqn:Ea; [reflexivity|].
    simpl. now rewrite Ea.
  - change (Zig.trimRight (String a (String x y)))
      with (match Zig.trimRight (String x y) with
            | EmptyString => if Ascii.eqb a " " then EmptyString else String a EmptyString
            | r' => String a r'
            end).
    now rewrite IH.
Qed.

Lemma trimLeft_fixed (s : string) :
  Zig.trimLeft (Zig.trimLeft s) = Zig.trimLeft s.
Proof.
  induction s as [|a r IH]; [reflexivity|].
  simpl. destruct (Ascii.eqb a " ") eqn:E; [exact IH|]. simpl. now rewrite E.
Qed.

Lemma trimLeft_trimRight (s : string) :
  Zig.trimLeft s = s -> Zig.trimLeft (Zig.trimRight s) = Zig.trimRight s.
Proof.
  destruct s as [|a r]; [reflexivity|]. intro H.
  destruct (Ascii.eqb a " ") eqn:E.
  - exfalso. simpl in H. rewrite E in H.
    assert (Hlen : String.length (Zig.trimLeft r) <= String.length r).
    { clear. induction r as [|b r IH]; simpl; [lia|].
      destruct (Ascii.eqb b " "); simpl; lia. }
    rewrite H in Hlen. simpl in Hlen. lia.
  - rewrite (trimRight_head a r E). simpl. now rewrite E.
Qed.

Lemma trim_idem (s : string) : Zig.trim (Zig.trim s) = Zig.trim s.
Proof.
  unfold Zig.trim.
  rewrite (trimLeft_trimRight (Zig.trimLeft s) (trimLeft_fixed s)).
  apply trimRight_idem.
Qed.

Lemma trimRight_app (a b : string) :
  Zig.trimRight b <> "" -> Zig.trimRight (a ++ b) = (a ++ Zig.trimRight b)%string.
Proof.
  intro Hb. induction a as [|x a IH]; [reflexivity|].
  cbn [append]. simpl. rewrite IH.
  destruct (a ++ Zig.trimRight b)%string eqn:E; [|reflexivity].
  destruct a; simpl in E; [contradiction | discriminate].
Qed.

Lemma trim_ot (j : string) : Zig.trim ("ot=" ++ j) = ("ot=" ++ Zig.trimRight j)%string.
Proof.
  unfold Zig.trim. cbn [append Zig.trimLeft].
  change (Ascii.eqb "o" " ") with false. cbv iota.
  now rewrite !trimRight_head by reflexivity.
Qed.

Lemma trimRight_th (v : string) :
  Zig.trimRight ("th:" ++ v) = ("th:" ++ Zig.trimRight v)%string.
Proof. cbn [append]. now rewrite !trimRight_head by reflexivity. Qed.

Lemma trim_th (v : string) :
  Zig.trim ("th:" ++ Zig.trimRight v) = ("th:" ++ Zig.trimRight v)%string.
Proof.
  unfold Zig.trim. cbn [append Zig.trimLeft].
  change (Ascii.eqb "t" " ") with false. cbv iota.
  rewrite !trimRight_head by reflexivity. now rewrite trimRight_idem.
Qed.

Lemma trimRight_Join_last (l : list string) (x : string) :
  Zig.trimRight x <> "" ->
  Zig.trimRight (Join (l ++ [x]) ";") = Join (l ++ [Zig.trimRight x]) ";".
Proof.
  intro Hx. destruct l as [|a r]; [reflexivity|].
  rewrite !Join_snoc by discriminate.
  assert (Hs : Zig.trimRight (";" ++ x) = (";" ++ Zig.trimRight x)%string)
    by (cbn [append]; now rewrite trimRight_head by reflexivity).
  rewrite trimRight_app; rewrite Hs; [reflexivity | discriminate].
Qed.

(** The members of a list are trimmed, not empty and hold no separator. *)
Lemma members_props (text : string) (sep : ascii) :
  Forall (fun s => TracestateSpec.nonEmpty s = true /\ Zig.trim s = s
                   /\ hasChar sep s = false)
    (TracestateSpec.members Zig.trim text sep).
Proof.
  unfold TracestateSpec.members. apply Forall_forall. intros s Hs.
  apply filter_In in Hs as [Hin Hne]. apply in_map_iff in Hin as (x & <- & Hx).
  split; [exact Hne|]. split; [apply trim_idem|].
  apply hasChar_trim.
  pose proof (Split_pieces text sep) as Hp. rewrite Forall_forall in Hp. now apply Hp.
Qed.

Lemma members_free (text : string) (sep c : ascii) :
  hasChar c text = false ->
  Forall (fun s => hasChar c s = false) (TracestateSpec.members Zig.trim text sep).
Proof.
  intro H. unfold TracestateSpec.members. apply Forall_forall. intros s Hs.
  apply filter_In in Hs as [Hin _]. apply in_map_iff in Hin as (x & <- & Hx).
  apply hasChar_trim.
  pose proof (Split_pieces_free text sep c H) as Hp. rewrite Forall_forall in Hp.
  now apply Hp.
Qed.

Lemma members_fixed (l : list string) (sep : ascii) :
  l <> [] ->
  Forall (fun s => TracestateSpec.nonEmpty s = true /\ Zig.trim s = s
                   /\ hasChar sep s = false) l ->
  TracestateSpec.members Zig.trim (Join l (String sep "")) sep = l.
Proof.
  intros Hne Hl. unfold TracestateSpec.members.
  rewrite Split_Join; [|exact Hne|].
  - clear Hne. induction Hl as [|a r (Hn & Ht & _) _ IH]; [reflexivity|].
    cbn [map filter]. now rewrite Ht, Hn, IH.
  - apply Forall_impl with (2 := Hl). tauto.
Qed.

End OverwriteFacts.

Section OverwriteProof.
Import TracestateModel.

Let trim := Zig.trim.
Let isTh := TracestateExamples.zigIsTh.
Let notTh := fun p : string => negb (isTh p).
Let notOT := fun v : string => negb (TracestateSpec.isOT v).
Let good (sep : ascii) := fun s : string =>
  TracestateSpec.nonEmpty s = true /\ Zig.trim s = s /\ hasChar sep s = false.

Lemma filter_twice {A : Type} (f : A -> bool) (l : list A) :
  filter f (filter f l) = filter f l.
Proof.
  induction l as [|a r IH]; [reflexivity|].
  simpl. destruct (f a) eqn:E; [simpl; now rewrite E, IH | exact IH].
Qed.

Lemma filter_opposite {A : Type} (f : A -> bool) (l : list A) :
  filter f (filter (fun x => negb (f x)) l) = [].
Proof.
  induction l as [|a r IH]; [reflexivity|].
  simpl. destruct (f a) eqn:E; simpl; [exact IH | now rewrite E].
Qed.

Lemma vendorEntries_props (ts : string) :
  Forall (good ",") (TracestateSpec.vendorEntries trim ts).
Proof.
  unfold TracestateSpec.vendorEntries. destruct (ts =? "")%string; [constructor|].
  apply members_props.
Qed.

Lemma otherVendors_props (ts : string) :
  Forall (good ",") (TracestateSpec.otherVendors trim ts).
Proof.
  unfold TracestateSpec.otherVendors. apply Forall_forall. intros x Hx.
  apply filter_In in Hx as [Hx _].
  pose proof (vendorEntries_props ts) as H. rewrite Forall_forall in H. now apply H.
Qed.

Lemma otSubKeys_props (ts : string) :
  Forall (fun s => good ";" s /\ hasChar "," s = false)
    (TracestateSpec.otSubKeys trim ts).
Proof.
  unfold TracestateSpec.otSubKeys. apply Forall_forall. intros s Hs.
  apply in_flat_map in Hs as (e & He & Hs).
  apply filter_In in He as [He _].
  pose proof (vendorEntries_props ts) as H. rewrite Forall_forall in H.
  destruct (H e He) as (_ & _ & Hc).
  split.
  - pose proof (members_props (drop 3 e) ";") as Hm. rewrite Forall_forall in Hm.
    now apply Hm.
  - pose proof (members_free (drop 3 e) ";" "," (hasChar_drop "," 3 e Hc)) as Hm.
    rewrite Forall_forall in Hm. now apply Hm.
Qed.

Lemma filter_good {A : Type} (P : A -> Prop) (f : A -> bool) (l : list A) :
  Forall P l -> Forall P (filter f l).
Proof.
  intro H. apply Forall_forall. intros x Hx. apply filter_In in Hx as [Hx _].
  rewrite Forall_forall in H. now apply H.
Qed.

Lemma members_already (l : list string) :
  Forall (good ",") l ->
  filter TracestateSpec.nonEmpty (map Zig.trim l) = l.
Proof.
  induction 1 as [|a r (Hn & Ht & _) _ IH]; [reflexivity|].
  cbn [map filter]. now rewrite Ht, Hn, IH.
Qed.

Lemma isOT_ot (x : string) : TracestateSpec.isOT ("ot=" ++ x) = true.
Proof. unfold TracestateSpec.isOT, HasPrefix. simpl. now destruct x. Qed.

(** The vendor entries of a merged tracestate: the rebuilt [ot] entry, then
    the other vendors of the input. *)
Lemma vendorEntries_merged (ts v : string) :
  hasChar "," v = false ->
  TracestateSpec.vendorEntries trim (TracestateSpec.merged trim isTh ts v)
  = ("ot=" ++ Zig.trimRight
               (Join (filter notTh (TracestateSpec.otSubKeys trim ts)
                      ++ [("th:" ++ v)%string]) ";"))%string
    :: TracestateSpec.otherVendors trim ts.
Proof.
  intro Hv.
  set (P := filter notTh (TracestateSpec.otSubKeys trim ts)).
  set (V := TracestateSpec.otherVendors trim ts).
  set (J := Join (P ++ [("th:" ++ v)%string]) ";").
  assert (HJ : hasChar "," J = false).
  { apply hasChar_Join; [reflexivity|]. apply Forall_app. split.
    - apply filter_good.
      apply Forall_impl with (2 := otSubKeys_props ts). tauto.
    - constructor; [exact Hv | constructor]. }
  assert (HV : Forall (good ",") V) by apply otherVendors_props.
  unfold TracestateSpec.vendorEntries.
  change (TracestateSpec.merged trim isTh ts v)
    with (("ot=" ++ J) ++ String.concat "" (map (fun x => String "," x) V))%string.
  change ((("ot=" ++ J) ++ String.concat "" (map (fun x => String "," x) V)) =? "")%string
    with false. cbv iota.
  unfold TracestateSpec.members.
  rewrite Split_separated;
    [| exact HJ | apply Forall_impl with (2 := HV); unfold good; tauto].
  cbn [map]. fold trim. unfold trim at 1. rewrite trim_ot.
  cbn [filter].
  change (TracestateSpec.nonEmpty ("ot=" ++ Zig.trimRight J)) with true. cbv iota.
  unfold trim. now rewrite (members_already V HV).
Qed.

Lemma otherVendors_merged (ts v : string) :
  hasChar "," v = false ->
  TracestateSpec.otherVendors trim (TracestateSpec.merged trim isTh ts v)
  = TracestateSpec.otherVendors trim ts.
Proof.
  intro Hv. unfold TracestateSpec.otherVendors at 1.
  rewrite (vendorEntries_merged ts v Hv). cbn [filter].
  rewrite isOT_ot. cbn [negb].
  unfold TracestateSpec.otherVendors. apply filter_twice.
Qed.

Lemma otSubKeys_merged (ts v : string) :
  hasChar "," v = false -> hasChar ";" v = false ->
  filter notTh (TracestateSpec.otSubKeys trim (TracestateSpec.merged trim isTh ts v))
  = filter notTh (TracestateSpec.otSubKeys trim ts).
Proof.
  intros Hv Hs. unfold TracestateSpec.otSubKeys at 1.
  rewrite (vendorEntries_merged ts v Hv). cbn [filter].
  rewrite isOT_ot.
  unfold TracestateSpec.otherVendors.
  rewrite (filter_opposite (TracestateSpec.isOT)). cbn [flat_map]. rewrite app_nil_r.
  set (P := filter notTh (TracestateSpec.otSubKeys trim ts)).
  change (drop 3 ("ot=" ++ Zig.trimRight (Join (P ++ [("th:" ++ v)%string]) ";")))
    with (Zig.trimRight (Join (P ++ [("th:" ++ v)%string]) ";")).
  rewrite trimRight_Join_last by (rewrite trimRight_th; discriminate).
  rewrite trimRight_th.
  unfold trim. rewrite members_fixed.
  - rewrite filter_app. unfold P at 1. rewrite filter_twice. cbn [filter].
    unfold notTh at 2. unfold isTh, TracestateExamples.zigIsTh.
    assert (Hth : HasPrefix ("th:" ++ Zig.trimRight v) "th:" = true)
      by (unfold HasPrefix; simpl; now destruct (Zig.trimRight v)).
    rewrite Hth. cbn [negb]. apply app_nil_r.
  - destruct P; discriminate.
  - apply Forall_app. split.
    + apply filter_good. apply Forall_impl with (2 := otSubKeys_props ts).
      intros a [H _]. exact H.
    + constructor; [|constructor]. split; [reflexivity|]. split; [apply trim_th|].
      change (hasChar ";" ("th:" ++ Zig.trimRight v))
        with (hasChar ";" (Zig.trimRight v)).
      now apply hasChar_trimRight.
Qed.

End OverwriteProof.

(** X23. Merging a threshold into a tracestate that already went through a
    merge replaces the earlier threshold and changes nothing else, provided
    the earlier value held no comma and no semicolon: the result is the one
    of merging the new value into the original tracestate. *)
Theorem zig_mergeOTTracestate_overwrites (tracestate v v' : string) :
  TracestateModel.hasChar "," v = false ->
  TracestateModel.hasChar ";" v = false ->
  Zig.mergeOTTracestate (Zig.mergeOTTracestate tracestate v) v'
  = Zig.mergeOTTracestate tracestate v'.
Proof.
  intros Hc Hs. rewrite !zig_merge_layout.
  unfold TracestateSpec.merged at 1 3.
  rewrite (otSubKeys_merged tracestate v Hc Hs).
  now rewrite (otherVendors_merged tracestate v Hc).
Qed.

Lemma zig_mergeOTTracestate_overwrites_witness :
  Zig.mergeOTTracestate (Zig.mergeOTTracestate "vendor1=a, ot=rv:9;th:1" "8") "c"
  = Zig.mergeOTTracestate "vendor1=a, ot=rv:9;th:1" "c".
Proof.
  apply (zig_mergeOTTracestate_overwrites "vendor1=a, ot=rv:9;th:1" "8" "c");
    reflexivity.
Defined.

(** ** The Zig mutator and the Go transformer on fixed fields *)

Lemma length_positive (s : string) :
  Nat.ltb 0 (String.length s) = negb (s =? "")%string.
Proof. now destruct s. Qed.

(** X24. On the fixed fields of a log record the Zig mutator and the Go
    transformer agree up to the kind of empty slice a remove leaves: a
    remove returns the same hit flag and leaves a context that every field
    reference reads the same; a Zig set, whatever its upsert flag, is a Go
    add with upsert; a rename is refused by both. *)
Theorem zig_and_go_field_mutations_agree :
  forall (lc : Zig.LogContext) (lf : LogField) (value to : string) (upsert : bool),
    let f := Zig.log_field lf in
    let go := Conformance.goContext lc in
    fst (Zig.mutRemove lc f) = fst (ProtoTransform.otelLogRemove go (Conformance.goRef f))
    /\ (forall ref : LogFieldRef,
          Proto.OTelLogMatcher (Conformance.goContext (snd (Zig.mutRemove lc f))) ref
          = Proto.OTelLogMatcher
              (snd (ProtoTransform.otelLogRemove go (Conformance.goRef f))) ref)
    /\ Conformance.goResult (Zig.mutSet lc f value upsert)
       = ProtoTransform.otelLogAdd go (Conformance.goRef f) value true
    /\ ProtoTransform.otelLogRename go (Conformance.goRef f) to upsert
       = Some (Conformance.goResult (Zig.mutRename lc f to upsert)).
Proof.
  intros lc lf value to upsert f go.
  split; [|split; [|split]].
  - destruct lf; try reflexivity; simpl; apply length_positive.
  - intro ref. destruct lf; reflexivity.
  - destruct lf; reflexivity.
  - reflexivity.
Qed.

Lemma pdata_deref_assign (ctx : Pdata.LogContext) (p : Pdata.MapRef) (m : Pdata.Map) :
  p <> Pdata.NewMap -> Pdata.deref (Pdata.assign ctx p m) p = m.
Proof. destruct p; intro H; try reflexivity. now elim H. Qed.

Lemma pdata_attrs_not_field (ref : LogFieldRef) :
  Pdata.otelLogAttrs ref <> Pdata.NewMap -> IsField ref = false.
Proof.
  unfold Pdata.otelLogAttrs, IsField, IsRecordAttr, IsResourceAttr, IsScopeAttr.
  destruct (refKind ref); intro H; try reflexivity. now elim H.
Qed.

(** X25. Add, then read, in the pdata runner: for an attribute of the
    record, the resource or the scope, an add without upsert on a key the
    map holds leaves the context as it is; in every other case the
    attribute reads as the added value afterwards (as absent when the value
    is the empty text); reads of other keys, maps and fields are not
    affected. *)
Theorem pdata_otelLogAdd_then_read :
  forall (ctx : Pdata.LogContext) (ref : LogFieldRef) (k value : string) (upsert : bool),
    Pdata.otelLogAttrs ref <> Pdata.NewMap -> AttrPath ref = [k] -> k <> "" ->
    let ctx' := snd (Pdata.otelLogAdd ctx ref value upsert) in
    let held := Pdata.Get (Pdata.deref ctx (Pdata.otelLogAttrs ref)) k in
    (upsert = false -> held <> None -> ctx' = ctx)
    /\ (upsert = true \/ held = None ->
        Pdata.OTelLogMatcher ctx' ref = Pdata.nonEmptyString value)
    /\ (forall ref' : LogFieldRef,
          refKind ref' <> refKind ref \/ Pdata.attrPath ref' <> k ->
          Pdata.OTelLogMatcher ctx' ref' = Pdata.OTelLogMatcher ctx ref').
Proof.
  intros ctx ref k value upsert Hp Hpath Hk.
  pose proof (pdata_attrs_not_field ref Hp) as Hf.
  assert (Hattr : Pdata.attrPath ref = k) by (unfold Pdata.attrPath; now rewrite Hpath).
  assert (Hput : forall ref' : LogFieldRef,
             refKind ref' <> refKind ref \/ Pdata.attrPath ref' <> k ->
             Pdata.OTelLogMatcher
               (Pdata.assign ctx (Pdata.otelLogAttrs ref)
                  (Pdata.PutStr (Pdata.deref ctx (Pdata.otelLogAttrs ref)) k value)) ref'
             = Pdata.OTelLogMatcher ctx ref').
  { intros ref' Href.
    apply (pdata_matcher_assign ctx ref ref' _ (fun x => x = k) Hf); [|exact Href].
    intros k' Hk'. now apply Get_PutStr_other. }
  assert (Hread : Pdata.OTelLogMatcher
                    (Pdata.assign ctx (Pdata.otelLogAttrs ref)
                       (Pdata.PutStr (Pdata.deref ctx (Pdata.otelLogAttrs ref)) k value)) ref
                  = Pdata.nonEmptyString value).
  { rewrite pdata_matcher_deref by exact Hf.
    rewrite pdata_deref_assign by exact Hp.
    rewrite Hpath. simpl. now rewrite Get_PutStr_same. }
  cbv zeta. unfold Pdata.otelLogAdd, Pdata.setAttribute. rewrite Hf, Hattr.
  destruct (String.eqb_spec k ""); [contradiction|].
  destruct (Pdata.Get (Pdata.deref ctx (Pdata.otelLogAttrs ref)) k) eqn:Eg;
    destruct upsert; simpl.
  - split; [discriminate|]. split; [intros _; exact Hread | exact Hput].
  - split; [reflexivity|]. split; [intros [H|H]; discriminate | reflexivity].
  - split; [discriminate|]. split; [intros _; exact Hread | exact Hput].
  - split; [intros _ H; now elim H|]. split; [intros _; exact Hread | exact Hput].
Qed.

Lemma pdata_otelLogAdd_then_read_witness :
  Pdata.OTelLogMatcher
    (snd (Pdata.otelLogAdd Claims.samplePdataContext (Claims.attrRef "a") "v" true))
    (Claims.attrRef "a")
  = Pdata.nonEmptyString "v".
Proof.
  refine (proj1 (proj2 (pdata_otelLogAdd_then_read Claims.samplePdataContext
                          (Claims.attrRef "a") "a" "v" true _ eq_refl _)) _).
  - discriminate.
  - discriminate.
  - left. reflexivity.
Defined.

(** ** The hit flag of the mutations in the three runners (C3) *)

Section HitFacts.
Import HitClaims.

Lemma mutable_attribute (ref : LogFieldRef) :
  TransformClaims.mutableTarget ref = true -> IsField ref = false ->
  (IsRecordAttr ref || IsResourceAttr ref || IsScopeAttr ref)%bool = true
  /\ (Proto.attrPath ref =? "")%string = false.
Proof.
  unfold TransformClaims.mutableTarget. intros Hm Hf. rewrite Hf in Hm.
  apply andb_prop in Hm as [Hk Hp]. split; [exact Hk | now apply negb_true_iff].
Qed.

Lemma container_attrs (ctx : Proto.LogContext) (ref : LogFieldRef) :
  TransformClaims.mutableTarget ref = true -> IsField ref = false ->
  TransformClaims.isSome (ProtoTransform.otelLogAttrs ctx ref) = containerPresent ctx ref.
Proof.
  intros Hm Hf. destruct (mutable_attribute ref Hm Hf) as [Hk _].
  unfold ProtoTransform.otelLogAttrs, containerPresent,
    IsRecordAttr, IsResourceAttr, IsScopeAttr in *.
  destruct (refKind ref); try discriminate; try reflexivity.
  - destruct (Proto.Resource_ ctx); reflexivity.
  - destruct (Proto.Scope_ ctx); reflexivity.
Qed.

Lemma container_field (ctx : Proto.LogContext) (ref : LogFieldRef) :
  IsField ref = true -> containerPresent ctx ref = true.
Proof.
  unfold containerPresent, IsField, IsResourceAttr, IsScopeAttr.
  destruct (refKind ref); try discriminate; reflexivity.
Qed.

Lemma proto_rename_hit (ctx : Proto.LogContext) (ref : LogFieldRef) (to : string)
  (upsert : bool) :
  TransformClaims.mutableTarget ref = true ->
  containerPresent ctx ref = true ->
  exists ctx', ProtoTransform.otelLogRename ctx ref to upsert
               = Some (sourceAttribute ctx ref, ctx').
Proof.
  intros Hm Hc. unfold sourceAttribute.
  destruct (IsField ref) eqn:Hf.
  - exists ctx. unfold ProtoTransform.otelLogRename. now rewrite Hf.
  - pose proof (container_attrs ctx ref Hm Hf) as Ha. rewrite Hc in Ha.
    destruct (ProtoTransform.otelLogAttrs ctx ref) as [p|] eqn:Hp; [|discriminate].
    exact (otelLogRename_hit ctx ref to upsert p Hm Hf Hp).
Qed.

Lemma proto_add_hit (ctx : Proto.LogContext) (ref : LogFieldRef) (value : string)
  (upsert : bool) :
  TransformClaims.mutableTarget ref = true ->
  fst (ProtoTransform.otelLogAdd ctx ref value upsert) = containerPresent ctx ref.
Proof.
  intro Hm. rewrite (otelLogAdd_hit ctx ref value upsert Hm).
  destruct (IsField ref) eqn:Hf; simpl.
  - symmetry. now apply container_field.
  - now apply container_attrs.
Qed.

(** The pdata runner. *)

Lemma pdata_isSome_Get (m : Pdata.Map) (k : string) :
  Pdata.isSome (Pdata.Get m k) = existsb (fun e => fst e =? k)%string m.
Proof.
  induction m as [|[x v] r IH]; [reflexivity|].
  simpl. destruct (x =? k)%string; [reflexivity | exact IH].
Qed.

Lemma pdata_attributes (ctx : Pdata.LogContext) (ref : LogFieldRef) :
  (IsRecordAttr ref || IsResourceAttr ref || IsScopeAttr ref)%bool = true ->
  Pdata.deref ctx (Pdata.otelLogAttrs ref) = pdataAttributes ctx ref.
Proof.
  unfold Pdata.otelLogAttrs, pdataAttributes, IsRecordAttr, IsResourceAttr, IsScopeAttr.
  destruct (refKind ref); try discriminate; reflexivity.
Qed.

Lemma pdata_hits (ctx : Pdata.LogContext) (ref : LogFieldRef) (value to : string)
  (upsert : bool) :
  TransformClaims.mutableTarget ref = true ->
  fst (Pdata.otelLogRemove ctx ref) = pdataPresent ctx ref
  /\ fst (Pdata.otelLogRedact ctx ref value) = pdataPresent ctx ref
  /\ fst (Pdata.otelLogRename ctx ref to upsert)
     = (negb (IsField ref) && pdataPresent ctx ref)%bool
  /\ fst (Pdata.otelLogAdd ctx ref value upsert) = true.
Proof.
  intro Hm.
  unfold Pdata.otelLogRemove, Pdata.otelLogRedact, Pdata.otelLogRename, Pdata.otelLogAdd,
    pdataPresent.
  destruct (IsField ref) eqn:Hf.
  - unfold TransformClaims.mutableTarget in Hm. rewrite Hf in Hm.
    destruct (Field ref); try discriminate; simpl;
      repeat split;
      match goal with
      | |- fst (if ?c then _ else _) = _ => destruct c; reflexivity
      | _ => idtac
      end.
  - destruct (mutable_attribute ref Hm Hf) as [Hk Hp].
    unfold Pdata.removeAttribute, Pdata.setAttribute.
    change (Pdata.attrPath ref) with (Proto.attrPath ref). rewrite Hp.
    rewrite (pdata_attributes ctx ref Hk).
    rewrite <- (pdata_isSome_Get (pdataAttributes ctx ref) (Proto.attrPath ref)).
    destruct (Pdata.Get (pdataAttributes ctx ref) (Proto.attrPath ref)) as [v|]; simpl;
      repeat split;
      repeat match goal with
             | |- fst (if ?c then _ else _) = _ => destruct c
             end; reflexivity.
Qed.

(** The Zig runner. *)

Lemma zig_find_hasKey (attrs : list KeyValue) (k : string) :
  forall i,
    match Zig.findAttrIndexFrom i attrs k with Some _ => true | None => false end
    = hasKey k attrs.
Proof.
  induction attrs as [|kv r IH]; intro i; [reflexivity|].
  simpl. destruct (kvKey kv =? k)%string; [reflexivity | apply IH].
Qed.

Lemma zig_removeAttr_hit (lc : Zig.LogContext) (p : Zig.AttrsPtr) (k : string) :
  fst (Zig.removeAttr lc p (Some k)) = hasKey k (Zig.items lc p).
Proof.
  unfold Zig.removeAttr, Zig.findAttrIndex.
  rewrite <- (zig_find_hasKey (Zig.items lc p) k 0).
  destruct (Zig.findAttrIndexFrom 0 (Zig.items lc p) k); reflexivity.
Qed.

Lemma zig_setAttr_hit (lc : Zig.LogContext) (p : Zig.AttrsPtr) (k value : string) :
  fst (Zig.setAttr lc p (Some k) value) = true.
Proof.
  unfold Zig.setAttr. destruct (Zig.findAttrIndex (Zig.items lc p) k); reflexivity.
Qed.

Lemma zig_rename_hit (lc : Zig.LogContext) (p : Zig.AttrsPtr) (k to : string)
  (upsert : bool) (f : Zig.FieldRef) :
  Zig.renameTarget lc f = Some (p, Some k) ->
  fst (Zig.mutRename lc f to upsert) = hasKey k (Zig.items lc p).
Proof.
  intro Ht. unfold Zig.mutRename. rewrite Ht. unfold Zig.findAttrIndex at 1.
  rewrite <- (zig_find_hasKey (Zig.items lc p) k 0).
  destruct (Zig.findAttrIndexFrom 0 (Zig.items lc p) k); [|reflexivity].
  destruct (negb upsert && _)%bool; reflexivity.
Qed.

Lemma zig_hits (lc : Zig.LogContext) (f : Zig.FieldRef) (value to : string)
  (upsert : bool) :
  zigMutable f = true ->
  fst (Zig.mutRemove lc f) = zigPresent lc f
  /\ fst (Zig.mutSet lc f value upsert) = zigWritable lc f
  /\ fst (Zig.mutRename lc f to upsert) = (zigIsAttribute f && zigPresent lc f)%bool.
Proof.
  intro Hm. destruct f as [lf|path|path|path]; simpl in Hm.
  - destruct lf; try discriminate; simpl; repeat split; apply length_positive.
  - destruct path as [|k rest]; [discriminate|].
    unfold Zig.mutRemove, Zig.mutSet, zigPresent, zigWritable, zigIsAttribute.
    cbn [Zig.attrKey hd andb].
    rewrite zig_removeAttr_hit, zig_setAttr_hit,
      (zig_rename_hit lc Zig.RecordAttrs k to upsert
         (Zig.log_attribute (k :: rest)) eq_refl).
    repeat split.
  - destruct path as [|k rest]; [discriminate|].
    unfold Zig.mutRemove, Zig.mutSet, zigPresent, zigWritable, zigIsAttribute.
    cbn [Zig.attrKey hd andb].
    destruct (Zig.resource lc) as [r|] eqn:E.
    + assert (Hi : Zig.items lc Zig.ResourceAttrs = Resource.Attributes r)
        by (simpl; now rewrite E).
      assert (Ht : Zig.renameTarget lc (Zig.resource_attribute (k :: rest))
                   = Some (Zig.ResourceAttrs, Some k)) by (simpl; now rewrite E).
      rewrite zig_removeAttr_hit, zig_setAttr_hit,
        (zig_rename_hit lc Zig.ResourceAttrs k to upsert _ Ht), Hi.
      repeat split.
    + unfold Zig.mutRename. simpl. rewrite E. repeat split.
  - destruct path as [|k rest]; [discriminate|].
    unfold Zig.mutRemove, Zig.mutSet, zigPresent, zigWritable, zigIsAttribute.
    cbn [Zig.attrKey hd andb].
    destruct (Zig.scope lc) as [sc|] eqn:E.
    + assert (Hi : Zig.items lc Zig.ScopeAttrs = InstrumentationScope.Attributes sc)
        by (simpl; now rewrite E).
      assert (Ht : Zig.renameTarget lc (Zig.scope_attribute (k :: rest))
                   = Some (Zig.ScopeAttrs, Some k)) by (simpl; now rewrite E).
      rewrite zig_removeAttr_hit, zig_setAttr_hit,
        (zig_rename_hit lc Zig.ScopeAttrs k to upsert _ Ht), Hi.
      repeat split.
    + unfold Zig.mutRename. simpl. rewrite E. repeat split.
Qed.

End HitFacts.

(** C3 (as amended). For a reference a mutation can act on (a mutable
    fixed field, or an attribute reference with a key), in the protobuf
    runner, the pdata runner and the Zig runner: remove and redact return
    true exactly when the targeted field existed before; rename returns true
    exactly when the reference is an attribute reference whose source
    attribute existed before (for the protobuf runner this is stated for a
    reference whose resource or scope is present); add (set) returns true
    whenever the target can be written, that is for every fixed field and
    for every attribute whose resource or scope is present, whether or not
    the field existed before. *)
Theorem C3_hit_flag_of_mutations :
  forall (ctx : Proto.LogContext) (pctx : Pdata.LogContext) (lc : Zig.LogContext)
         (ref : LogFieldRef) (f : Zig.FieldRef) (value to : string) (upsert : bool),
    TransformClaims.mutableTarget ref = true ->
    HitClaims.zigMutable f = true ->
    (* protobuf runner *)
    fst (ProtoTransform.otelLogRemove ctx ref) = TransformClaims.present ctx ref
    /\ fst (ProtoTransform.otelLogRedact ctx ref value) = TransformClaims.present ctx ref
    /\ (HitClaims.containerPresent ctx ref = true ->
        exists ctx', ProtoTransform.otelLogRename ctx ref to upsert
                     = Some (HitClaims.sourceAttribute ctx ref, ctx'))
    /\ fst (ProtoTransform.otelLogAdd ctx ref value upsert)
       = HitClaims.containerPresent ctx ref
    (* pdata runner *)
    /\ fst (Pdata.otelLogRemove pctx ref) = HitClaims.pdataPresent pctx ref
    /\ fst (Pdata.otelLogRedact pctx ref value) = HitClaims.pdataPresent pctx ref
    /\ fst (Pdata.otelLogRename pctx ref to upsert)
       = (negb (IsField ref) && HitClaims.pdataPresent pctx ref)%bool
    /\ fst (Pdata.otelLogAdd pctx ref value upsert) = true
    (* Zig runner *)
    /\ fst (Zig.mutRemove lc f) = HitClaims.zigPresent lc f
    /\ fst (Zig.mutSet lc f value upsert) = HitClaims.zigWritable lc f
    /\ fst (Zig.mutRename lc f to upsert)
       = (HitClaims.zigIsAttribute f && HitClaims.zigPresent lc f)%bool.
Proof.
  intros ctx pctx lc ref f value to upsert Hm Hz.
  destruct (pdata_hits pctx ref value to upsert Hm) as (P1 & P2 & P3 & P4).
  destruct (zig_hits lc f value to upsert Hz) as (Z1 & Z2 & Z3).
  split; [now apply otelLogRemove_hit|].
  split; [now apply otelLogRedact_hit|].
  split; [now apply proto_rename_hit|].
  split; [now apply proto_add_hit|].
  repeat split; assumption.
Qed.

Lemma C3_witness :
  TransformClaims.mutableTarget (Claims.attrRef "a") = true /\
  HitClaims.zigMutable (Zig.log_attribute ["zz"]) = true /\
  HitClaims.containerPresent Claims.sampleContext (Claims.attrRef "a") = true /\
  fst (ProtoTransform.otelLogRemove Claims.sampleContext (Claims.attrRef "a")) = true /\
  (exists ctx',
     ProtoTransform.otelLogRename Claims.sampleContext (Claims.attrRef "a") "t" false
     = Some (true, ctx')) /\
  fst (Pdata.otelLogRename Claims.samplePdataContext (Claims.attrRef "a") "t" false) = true /\
  fst (Zig.mutRemove Claims.sampleZigContext (Zig.log_attribute ["zz"])) = false.
Proof.
  pose proof (C3_hit_flag_of_mutations Claims.sampleContext Claims.samplePdataContext
                Claims.sampleZigContext (Claims.attrRef "a") (Zig.log_attribute ["zz"])
                "v" "t" false eq_refl eq_refl)
    as (H1 & _ & H3 & _ & _ & _ & H7 & _ & H9 & _).
  split; [reflexivity|]. split; [reflexivity|]. split; [reflexivity|].
  split; [exact H1|]. split; [exact (H3 eq_refl)|]. split; [exact H7 | exact H9].
Defined.

(** What the amended claim leaves out: in the protobuf runner the rename of
    a resource attribute on a context without resource dereferences the nil
    attribute pointer (a panic), where remove, redact and add return
    false. *)
Example rename_without_resource_panics :
  HitClaims.containerPresent Claims.sampleContext (HitClaims.resourceRef "a") = false
  /\ ProtoTransform.otelLogRename Claims.sampleContext (HitClaims.resourceRef "a") "t" false
     = None
  /\ fst (ProtoTransform.otelLogRemove Claims.sampleContext (HitClaims.resourceRef "a"))
     = false
  /\ fst (ProtoTransform.otelLogAdd Claims.sampleContext (HitClaims.resourceRef "a") "v" true)
     = false.
Proof. repeat split. Qed.
